(** * Driplo marketplace: the database contract of
      [SUPABASE_COMPLETE_STRUCTURE_FINAL.md]

    A shallow embedding of the schema dump: the SQL functions of section 4.1,
    the triggers of section 4.2, the table constraints of section 3 and the
    row-level-security policies of section 5.2, followed by the properties
    that hold of them.

    Conventions.
    - [uuid] is a 128-bit number, [timestamptz] a number of microseconds.
    - A nullable column is an [option]; SQL's NULL is [None].
    - [text] is the string in UTF-8, the encoding of the database, as a
      list of bytes; lengths are counted in characters where PostgreSQL
      counts characters.  [LOWER] is the one of the database's locale.
    - [NUMERIC] values are exact rationals (the finite values of the type).
      A [DOUBLE PRECISION] value is the rational it stands for; arithmetic
      on doubles rounds the exact result to the nearest double.
    - Values drawn from the platform ([NOW()], [RANDOM()], the default
      [uuid_generate_v4()]) are explicit arguments of the functions that
      read them. *)

From Stdlib Require Import List Bool Arith ZArith NArith QArith Qround Qabs Qpower Lia Lqa.
From Stdlib Require Import Ascii String DecimalString.
From Equations Require Import Equations.
Import ListNotations.

Set Implicit Arguments.
Close Scope Q_scope.

(* ===================================================================== *)
(** * Platform primitives *)
(* ===================================================================== *)

Module Pg.

Local Open Scope string_scope.

Definition uuid := N.
Definition timestamptz := Z.
Definition text := string.

(** ** Characters

    In UTF-8 a character is one byte that is no continuation byte (none of
    the bytes 128 to 191), followed by the continuation bytes that belong
    to it.  The characters of ASCII are the bytes below 128. *)

Definition is_continuation (c : ascii) : bool :=
  let n := nat_of_ascii c in (128 <=? n)%nat && (n <=? 191)%nat.

(** [CHAR_LENGTH(s)] *)
Fixpoint CHAR_LENGTH (s : text) : nat :=
  match s with
  | EmptyString => 0
  | String c s' => (if is_continuation c then 0 else 1) + CHAR_LENGTH s'
  end.

(** The number of bytes the first [n] characters of [s] take. *)
Fixpoint bytes_of_chars (n : nat) (s : text) : nat :=
  match s with
  | EmptyString => 0
  | String c s' =>
      if is_continuation c then S (bytes_of_chars n s')
      else match n with
           | O => 0
           | S n' => S (bytes_of_chars n' s')
           end
  end.

(** [LEFT(s, n)]: the first [n] characters of [s]. *)
Definition first_chars (n : nat) (s : text) : text :=
  substring 0 (bytes_of_chars n s) s.

Fixpoint is_ascii (s : text) : bool :=
  match s with
  | EmptyString => true
  | String c s' => (nat_of_ascii c <? 128)%nat && is_ascii s'
  end.

(** ** Text functions *)

Definition is_upper (c : ascii) : bool :=
  let n := nat_of_ascii c in (65 <=? n)%nat && (n <=? 90)%nat.

Definition lower_char (c : ascii) : ascii :=
  if is_upper c then ascii_of_nat (nat_of_ascii c + 32) else c.

(** The letters A to Z folded to a to z, every other byte kept. *)
Fixpoint lower_ascii (s : text) : text :=
  match s with
  | EmptyString => EmptyString
  | String c s' => String (lower_char c) (lower_ascii s')
  end.

(** [LOWER(s)] follows the locale of the database ([lc_ctype]).  What it
    makes of a character outside ASCII is the locale's business: in the
    locale [C] nothing, in [en_US.UTF-8] the lower-case letter of Unicode.
    On a text of ASCII it folds A to Z, in every locale whose alphabet has
    these letters as English has them (the Turkish and Azeri locales, which
    fold [I] to a dotless i, are not among them). *)
Class Locale := {
  LOWER : text -> text;
  LOWER_ascii : forall s, is_ascii s = true -> LOWER s = lower_ascii s
}.

(** The locale [C]. *)
Definition C_locale : Locale :=
  {| LOWER := lower_ascii; LOWER_ascii := fun _ _ => eq_refl |}.

(** The functions below work on the bytes.  Their delimiters, patterns and
    fill characters in the dump are ASCII, and in UTF-8 a byte of ASCII is
    never part of another character: what they find among the bytes is
    what PostgreSQL finds among the characters. *)

(** The string without its first [n] bytes. *)
Fixpoint drop (n : nat) (s : text) : text :=
  match n, s with
  | O, _ => s
  | S _, EmptyString => EmptyString
  | S n', String _ s' => drop n' s'
  end.

(** [SPLIT_PART(s, delim, k + 1)]: the fields of [s] between occurrences of
    [delim], counted from the left; the empty string when there are fewer
    fields.  An empty delimiter makes the whole string the only field. *)
Fixpoint split_part_from (s delim : text) (k : nat) : text :=
  match k with
  | O =>
      if delim =? "" then s
      else match index 0 delim s with
           | Some i => substring 0 i s
           | None => s
           end
  | S k' =>
      if delim =? "" then ""
      else match index 0 delim s with
           | Some i => split_part_from (drop (i + length delim) s) delim k'
           | None => ""
           end
  end.

Definition SPLIT_PART (s delim : text) (n : positive) : text :=
  split_part_from s delim (Nat.pred (Pos.to_nat n)).

(** [s LIKE p] for patterns built from literal characters, [%] (any run of
    characters) and [_] (exactly one character).  The patterns of the dump
    contain no escape character. *)
Fixpoint like_pattern (p : text) : text -> bool :=
  match p with
  | EmptyString => fun s => s =? ""
  | String c p' =>
      if Ascii.eqb c "%" then
        fix any (s : text) : bool :=
          like_pattern p' s ||
          match s with
          | EmptyString => false
          | String _ s' => any s'
          end
      else if Ascii.eqb c "_" then
        fun s => match s with
                 | EmptyString => false
                 | String _ s' => like_pattern p' s'
                 end
      else
        fun s => match s with
                 | EmptyString => false
                 | String d s' => Ascii.eqb c d && like_pattern p' s'
                 end
  end.

Definition LIKE (s p : text) : bool := like_pattern p s.

(** [REPLACE(s, from, to)]: every occurrence of [from] in [s], scanning from
    the left and without overlap, becomes [to]; an empty [from] changes
    nothing. *)
Equations? REPLACE (s from to : text) : text by wf (length s) lt :=
  REPLACE EmptyString _ _ := EmptyString;
  REPLACE (String c s') from to :=
    if negb (from =? "") && prefix from (String c s')
    then to ++ REPLACE (drop (Nat.pred (length from)) s') from to
    else String c (REPLACE s' from to).
Proof.
  clear. generalize (Nat.pred (length from)).
  induction s' as [|a s' IH]; intros [|n]; simpl; try lia.
  specialize (IH n). lia.
Qed.

(** [k] characters read cyclically from [fill], starting in the middle of it
    at [cur]. *)
Fixpoint fill_chars (k : nat) (fill cur : text) : text :=
  match k with
  | O => ""
  | S k' =>
      match cur with
      | String c r => String c (fill_chars k' fill r)
      | EmptyString =>
          match fill with
          | String c r => String c (fill_chars k' fill r)
          | EmptyString => ""
          end
      end
  end.

(** [LPAD(s, n, fill)]: [s] brought to length [n], by cutting it on the right
    when it is too long and by prepending characters of [fill] when it is too
    short. *)
Definition LPAD (s : text) (n : nat) (fill : text) : text :=
  if (n <=? length s)%nat then substring 0 n s
  else fill_chars (n - length s) fill fill ++ s.

(** The decimal digits of a natural number: the cast [::TEXT] of a
    non-negative whole number. *)
Definition N_to_text (n : N) : text := NilZero.string_of_uint (N.to_uint n).

(** A number printed on at least [w] digits, as the numeric fields of
    [TO_CHAR] are. *)
Definition zero_padded (w : nat) (n : N) : text :=
  let s := N_to_text n in
  fill_chars (w - length s) "0" "0" ++ s.

(** A timestamp broken down into the calendar fields [TO_CHAR] prints. *)
Record calendar := {
  cal_year : N;
  cal_month : N;
  cal_day : N
}.

Definition valid_calendar (d : calendar) : Prop :=
  (1 <= cal_year d <= 9999)%N /\ (1 <= cal_month d <= 12)%N /\ (1 <= cal_day d <= 31)%N.

(** [TO_CHAR(t, 'YYYYMMDD')] *)
Definition TO_CHAR_YYYYMMDD (d : calendar) : text :=
  zero_padded 4 (cal_year d) ++ zero_padded 2 (cal_month d) ++ zero_padded 2 (cal_day d).

(** ** NUMERIC *)

Definition numeric := Q.

(** [ROUND(x, s)]: to [s] decimal places, ties away from zero. *)
Definition ROUND (x : numeric) (s : nat) : numeric :=
  let scale := (10 ^ Z.of_nat s)%Z in
  let y := (x * inject_Z scale)%Q in
  let k := if Qle_bool 0 y then Qfloor (y + (1 # 2)) else (- Qfloor (- y + (1 # 2)))%Z in
  (inject_Z k / inject_Z scale)%Q.

(** [FLOOR(x)] of a non-negative value, as a whole number. *)
Definition FLOOR (x : Q) : N := Z.to_N (Qfloor x).

(** ** DOUBLE PRECISION

    A double is a whole multiple of the step of its binade: of 2^(e-52)
    when it lies between 2^e and 2^(e+1), and of 2^-1074 below 2^-1022.  An
    operation returns the double nearest to the exact result, the one with
    the even multiple when two are equally near.  Results beyond the largest
    double, which raise an overflow, are not modelled. *)

(** The exponent [e] with 2^e <= |q| < 2^(e+1), for [q] other than 0. *)
Definition binade (q : Q) : Z :=
  let a := Qabs q in
  if Qle_bool 1 a then Z.log2 (Qfloor a) else (- Z.log2_up (Qceiling (/ a)))%Z.

Definition round_half_even (x : Q) : Z :=
  let f := Qfloor x in
  match (x - inject_Z f ?= 1 # 2)%Q with
  | Lt => f
  | Gt => (f + 1)%Z
  | Eq => if Z.even f then f else (f + 1)%Z
  end.

(** The step between the doubles around [q]. *)
Definition float8_quantum (q : Q) : Q := (2 ^ (Z.max (binade q) (-1022) - 52))%Q.

(** The double nearest to [q]. *)
Definition float8 (q : Q) : Q :=
  (inject_Z (round_half_even (q / float8_quantum q)) * float8_quantum q)%Q.

Definition is_float8 (q : Q) : bool := Qeq_bool (float8 q) q.

(** [x * y] on doubles *)
Definition float8mul (x y : Q) : Q := float8 (x * y).

End Pg.

Import Pg.

(* ===================================================================== *)
(** * Schema: enumerated types, rows, tables and their constraints *)
(* ===================================================================== *)

Module Schema.

Local Open Scope string_scope.

(** [CREATE TYPE user_role AS ENUM ('user', 'admin', 'moderator')] *)
Inductive user_role := role_user | role_admin | role_moderator.

(** [CREATE TYPE order_status AS ENUM (...)] *)
Inductive order_status :=
| pending_payment | payment_processing | payment_failed | paid
| preparing | shipped | in_transit | delivered | completed
| cancelled | refunded.

Definition user_role_eqb (a b : user_role) : bool :=
  match a, b with
  | role_user, role_user | role_admin, role_admin
  | role_moderator, role_moderator => true
  | _, _ => false
  end.

Definition order_status_eqb (a b : order_status) : bool :=
  match a, b with
  | pending_payment, pending_payment | payment_processing, payment_processing
  | payment_failed, payment_failed | paid, paid | preparing, preparing
  | shipped, shipped | in_transit, in_transit | delivered, delivered
  | completed, completed | cancelled, cancelled | refunded, refunded => true
  | _, _ => false
  end.

(** Rows.  A table's columns that no function, trigger or policy of the dump
    reads or writes are left out; the nullable ones are options. *)

(** [auth.users], the platform's table of principals. *)
Record auth_user := {
  au_id : uuid;
  au_email : option text
}.

Record profile := {
  p_id : uuid;
  p_email : text;
  p_username : text;
  p_is_admin : option bool;
  p_role : option user_role;
  p_account_type : option text;
  p_setup_completed : option bool;
  p_setup_completed_at : option timestamptz;
  p_created_at : option timestamptz;
  p_updated_at : option timestamptz
}.

Record setup_progress := {
  sp_id : uuid;
  sp_user_id : uuid;
  sp_step_name : text;
  sp_completed : option bool;
  sp_completed_at : option timestamptz;
  sp_updated_at : option timestamptz
}.

Record shopping_cart := {
  sc_id : uuid;
  sc_user_id : uuid;
  sc_expires_at : option timestamptz;
  sc_created_at : option timestamptz;
  sc_updated_at : option timestamptz
}.

Record cart_item := {
  ci_id : uuid;
  ci_cart_id : uuid;
  ci_listing_id : uuid;
  ci_quantity : Z
}.

Record order := {
  o_id : uuid;
  o_buyer_id : uuid;
  o_seller_id : uuid;
  o_status : order_status;
  o_updated_at : option timestamptz;
  o_cancelled_at : option timestamptz
}.

Record user_follow := {
  uf_id : uuid;
  uf_follower_id : uuid;
  uf_following_id : uuid;
  uf_created_at : option timestamptz
}.

Record user_stats := {
  us_user_id : uuid;
  us_total_sales : option Z;
  us_total_purchases : option Z;
  us_total_spent : option numeric;
  us_total_earned : option numeric;
  us_average_rating : option numeric;
  us_total_ratings : option Z;
  us_follower_count : option Z;
  us_following_count : option Z;
  us_response_rate : option numeric;
  us_response_time_hours : option numeric;
  us_ship_time_hours : option numeric;
  us_last_active_at : option timestamptz;
  us_updated_at : option timestamptz
}.

(** The database: one list of rows per table. *)
Record db := {
  auth_users : list auth_user;
  profiles : list profile;
  profile_setup_progress : list setup_progress;
  shopping_carts : list shopping_cart;
  cart_items : list cart_item;
  orders : list order;
  user_follows : list user_follow;
  user_stats_summary : list user_stats
}.

Definition empty_db : db :=
  {| auth_users := []; profiles := []; profile_setup_progress := [];
     shopping_carts := []; cart_items := []; orders := [];
     user_follows := []; user_stats_summary := [] |}.

Definition with_auth_users (f : list auth_user -> list auth_user) (d : db) : db :=
  {| auth_users := f (auth_users d); profiles := profiles d;
     profile_setup_progress := profile_setup_progress d;
     shopping_carts := shopping_carts d; cart_items := cart_items d;
     orders := orders d; user_follows := user_follows d;
     user_stats_summary := user_stats_summary d |}.

Definition with_profiles (f : list profile -> list profile) (d : db) : db :=
  {| auth_users := auth_users d; profiles := f (profiles d);
     profile_setup_progress := profile_setup_progress d;
     shopping_carts := shopping_carts d; cart_items := cart_items d;
     orders := orders d; user_follows := user_follows d;
     user_stats_summary := user_stats_summary d |}.

Definition with_profile_setup_progress
  (f : list setup_progress -> list setup_progress) (d : db) : db :=
  {| auth_users := auth_users d; profiles := profiles d;
     profile_setup_progress := f (profile_setup_progress d);
     shopping_carts := shopping_carts d; cart_items := cart_items d;
     orders := orders d; user_follows := user_follows d;
     user_stats_summary := user_stats_summary d |}.

Definition with_shopping_carts (f : list shopping_cart -> list shopping_cart) (d : db) : db :=
  {| auth_users := auth_users d; profiles := profiles d;
     profile_setup_progress := profile_setup_progress d;
     shopping_carts := f (shopping_carts d); cart_items := cart_items d;
     orders := orders d; user_follows := user_follows d;
     user_stats_summary := user_stats_summary d |}.

Definition with_user_follows (f : list user_follow -> list user_follow) (d : db) : db :=
  {| auth_users := auth_users d; profiles := profiles d;
     profile_setup_progress := profile_setup_progress d;
     shopping_carts := shopping_carts d; cart_items := cart_items d;
     orders := orders d; user_follows := f (user_follows d);
     user_stats_summary := user_stats_summary d |}.

Definition with_user_stats_summary (f : list user_stats -> list user_stats) (d : db) : db :=
  {| auth_users := auth_users d; profiles := profiles d;
     profile_setup_progress := profile_setup_progress d;
     shopping_carts := shopping_carts d; cart_items := cart_items d;
     orders := orders d; user_follows := user_follows d;
     user_stats_summary := f (user_stats_summary d) |}.

(** ** Statements that can fail *)

Inductive sql_error :=
| unique_violation (constraint : string)
| not_null_violation (column : string)
| foreign_key_violation (constraint : string)
| check_violation (constraint : string)
| string_data_right_truncation (column : string).

Inductive result (A : Type) :=
| Ok (a : A)
| Err (e : sql_error).
Arguments Ok {A} a.
Arguments Err {A} e.

(** A command reads and writes the database and may raise.  The database it
    leaves behind when it raises is the one reached so far: undoing it is the
    work of [atomically]. *)
Definition tx (A : Type) := db -> db * result A.

Definition ret {A} (a : A) : tx A := fun d => (d, Ok a).
Definition raise {A} (e : sql_error) : tx A := fun d => (d, Err e).
Definition bind {A B} (m : tx A) (k : A -> tx B) : tx B :=
  fun d => match m d with
           | (d', Ok a) => k a d'
           | (d', Err e) => (d', Err e)
           end.
Definition read {A} (f : db -> A) : tx A := fun d => (d, Ok (f d)).
Definition write (f : db -> db) : tx unit := fun d => (f d, Ok tt).
Definition require (b : bool) (e : sql_error) : tx unit :=
  if b then ret tt else raise e.
Definition not_null {A} (column : string) (v : option A) : tx A :=
  match v with
  | Some a => ret a
  | None => raise (not_null_violation column)
  end.

Declare Scope tx_scope.
Delimit Scope tx_scope with tx.
Notation "x <- m ;; k" := (bind m (fun x => k))
  (at level 61, m at next level, right associativity) : tx_scope.
Notation "m ;; k" := (bind m (fun _ => k))
  (at level 61, right associativity) : tx_scope.
Local Open Scope tx_scope.

(** A statement and the triggers it fires run in one transaction: when any
    of them raises, the database is the one before the statement. *)
Definition atomically {A} (m : tx A) : tx A :=
  fun d => match m d with
           | (d', Ok a) => (d', Ok a)
           | (_, Err e) => (d, Err e)
           end.

(** A value stored in a [VARCHAR(n)] column: values of more than [n]
    characters are refused, unless what exceeds [n] characters is spaces,
    which are cut. *)
Fixpoint all_spaces (s : text) : bool :=
  match s with
  | EmptyString => true
  | String c s' => Ascii.eqb c " " && all_spaces s'
  end.

Definition varchar (n : nat) (column : string) (s : text) : tx text :=
  if (CHAR_LENGTH s <=? n)%nat then ret s
  else if all_spaces (drop (bytes_of_chars n s) s) then ret (first_chars n s)
  else raise (string_data_right_truncation column).

(** Thirty days, in microseconds. *)
Definition interval_30_days : Z := 30 * 24 * 60 * 60 * 1000000.

(** ** INSERT, with the constraints of each [CREATE TABLE] *)

Definition append_row {A} (r : A) (t : list A) : list A := (t ++ [r])%list.

(** [INSERT INTO auth.users]: the primary key of the platform's table. *)
Definition insert_auth_users (u : auth_user) : tx unit :=
  taken <- read (fun d => existsb (fun r => N.eqb (au_id r) (au_id u)) (auth_users d)) ;;
  require (negb taken) (unique_violation "users_pkey") ;;
  write (with_auth_users (append_row u)).

(** [INSERT INTO profiles (id, email, username) VALUES (...)]: the other
    columns take their defaults. *)
Definition insert_profiles (id : uuid) (email username : option text)
  (now : timestamptz) : tx unit :=
  email <- not_null "email" email ;;
  email <- varchar 255 "email" email ;;
  username <- not_null "username" username ;;
  username <- varchar 30 "username" username ;;
  dup_id <- read (fun d => existsb (fun r => N.eqb (p_id r) id) (profiles d)) ;;
  require (negb dup_id) (unique_violation "profiles_pkey") ;;
  dup_name <- read (fun d => existsb (fun r => p_username r =? username) (profiles d)) ;;
  require (negb dup_name) (unique_violation "profiles_username_key") ;;
  known <- read (fun d => existsb (fun r => N.eqb (au_id r) id) (auth_users d)) ;;
  require known (foreign_key_violation "profiles_id_fkey") ;;
  write (with_profiles (append_row
    {| p_id := id; p_email := email; p_username := username;
       p_is_admin := Some false; p_role := Some role_user;
       p_account_type := Some "personal";
       p_setup_completed := Some false; p_setup_completed_at := None;
       p_created_at := Some now; p_updated_at := Some now |})).

(** [INSERT INTO shopping_carts (user_id) VALUES (...) RETURNING id]; [id] is
    the value [uuid_generate_v4()] draws for the new row. *)
Definition insert_shopping_carts (id user_id : uuid) (now : timestamptz) : tx uuid :=
  dup_id <- read (fun d => existsb (fun r => N.eqb (sc_id r) id) (shopping_carts d)) ;;
  require (negb dup_id) (unique_violation "shopping_carts_pkey") ;;
  dup_user <- read (fun d => existsb (fun r => N.eqb (sc_user_id r) user_id) (shopping_carts d)) ;;
  require (negb dup_user) (unique_violation "shopping_carts_user_id_key") ;;
  known <- read (fun d => existsb (fun r => N.eqb (p_id r) user_id) (profiles d)) ;;
  require known (foreign_key_violation "shopping_carts_user_id_fkey") ;;
  write (with_shopping_carts (append_row
    {| sc_id := id; sc_user_id := user_id;
       sc_expires_at := Some (now + interval_30_days)%Z;
       sc_created_at := Some now; sc_updated_at := Some now |})) ;;
  ret id.

(** [INSERT INTO user_stats_summary (user_id) VALUES (...)] *)
Definition insert_user_stats_summary (user_id : uuid) (now : timestamptz) : tx unit :=
  dup <- read (fun d => existsb (fun r => N.eqb (us_user_id r) user_id) (user_stats_summary d)) ;;
  require (negb dup) (unique_violation "user_stats_summary_pkey") ;;
  known <- read (fun d => existsb (fun r => N.eqb (p_id r) user_id) (profiles d)) ;;
  require known (foreign_key_violation "user_stats_summary_user_id_fkey") ;;
  write (with_user_stats_summary (append_row
    {| us_user_id := user_id;
       us_total_sales := Some 0%Z; us_total_purchases := Some 0%Z;
       us_total_spent := Some 0%Q; us_total_earned := Some 0%Q;
       us_average_rating := None;
       us_total_ratings := Some 0%Z;
       us_follower_count := Some 0%Z; us_following_count := Some 0%Z;
       us_response_rate := None; us_response_time_hours := None;
       us_ship_time_hours := None; us_last_active_at := None;
       us_updated_at := Some now |})).

End Schema.

Import Schema.

(* ===================================================================== *)
(** * Section 4.1: database functions *)
(* ===================================================================== *)

Module Fn.

Local Open Scope string_scope.
Local Open Scope tx_scope.

(** ** [get_or_create_cart(user_uuid UUID) RETURNS UUID] *)

(** [expires_at > NOW()], which a NULL [expires_at] does not satisfy. *)
Definition cart_is_live (now : timestamptz) (c : shopping_cart) : bool :=
  match sc_expires_at c with
  | Some e => (now <? e)%Z
  | None => false
  end.

(** [SELECT id INTO cart_uuid FROM shopping_carts
     WHERE user_id = user_uuid AND expires_at > NOW()] *)
Definition select_live_cart (user_uuid : uuid) (now : timestamptz) (d : db) : option uuid :=
  option_map sc_id
    (find (fun c => N.eqb (sc_user_id c) user_uuid && cart_is_live now c)
          (shopping_carts d)).

Definition get_or_create_cart (user_uuid : uuid) (fresh_id : uuid)
  (now : timestamptz) : tx uuid :=
  cart_uuid <- read (select_live_cart user_uuid now) ;;
  match cart_uuid with
  | None => insert_shopping_carts fresh_id user_uuid now
  | Some c => ret c
  end.

(** ** [handle_new_user() RETURNS TRIGGER] *)

Definition handle_new_user `{Locale} (NEW : auth_user) (fresh_cart_id : uuid)
  (now : timestamptz) : tx auth_user :=
  insert_profiles (au_id NEW) (au_email NEW)
    (option_map (fun e => LOWER (SPLIT_PART e "@" 1)) (au_email NEW)) now ;;
  insert_shopping_carts fresh_cart_id (au_id NEW) now ;;
  insert_user_stats_summary (au_id NEW) now ;;
  ret NEW.

(** ** [update_updated_at_column() RETURNS TRIGGER] *)

Class HasUpdatedAt (R : Type) := set_updated_at : option timestamptz -> R -> R.

#[export] Instance profile_updated_at : HasUpdatedAt profile := fun t r =>
  {| p_id := p_id r; p_email := p_email r; p_username := p_username r;
     p_is_admin := p_is_admin r; p_role := p_role r;
     p_account_type := p_account_type r;
     p_setup_completed := p_setup_completed r;
     p_setup_completed_at := p_setup_completed_at r;
     p_created_at := p_created_at r; p_updated_at := t |}.

#[export] Instance order_updated_at : HasUpdatedAt order := fun t r =>
  {| o_id := o_id r; o_buyer_id := o_buyer_id r; o_seller_id := o_seller_id r;
     o_status := o_status r; o_updated_at := t;
     o_cancelled_at := o_cancelled_at r |}.

#[export] Instance setup_progress_updated_at : HasUpdatedAt setup_progress := fun t r =>
  {| sp_id := sp_id r; sp_user_id := sp_user_id r;
     sp_step_name := sp_step_name r; sp_completed := sp_completed r;
     sp_completed_at := sp_completed_at r; sp_updated_at := t |}.

Definition update_updated_at_column {R} `{HasUpdatedAt R}
  (now : timestamptz) (NEW : R) : R :=
  set_updated_at (Some now) NEW.

(** ** [calculate_platform_fee(amount NUMERIC) RETURNS NUMERIC] *)

Definition calculate_platform_fee (amount : numeric) : numeric :=
  ROUND (amount * (5 # 100))%Q 2.

(** ** [generate_order_number() RETURNS VARCHAR]

    [now] is [NOW()] in calendar fields and [random] the value of
    [RANDOM()], a double in the interval 0 <= random < 1.  The product is
    the one of doubles; its floor, a whole number below 10^15, is cast to
    text as its decimal digits. *)
Definition generate_order_number (now : calendar) (random : Q) : text :=
  "ORD-" ++ TO_CHAR_YYYYMMDD now ++ "-" ++
  LPAD (N_to_text (FLOOR (float8mul random 10000))) 4 "0".

(** ** [get_optimized_image_url(base_url text, size text DEFAULT 'medium')] *)

Definition get_optimized_image_url (base_url size : text) : text :=
  if LIKE base_url "%_thumb.webp" ||
     LIKE base_url "%_small.webp" ||
     LIKE base_url "%_medium.webp" ||
     LIKE base_url "%_large.webp"
  then base_url
  else if LIKE base_url "%.webp"
  then REPLACE base_url ".webp" ("_" ++ size ++ ".webp")
  else base_url.

Definition get_optimized_image_url_default (base_url : text) : text :=
  get_optimized_image_url base_url "medium".

(** ** [is_admin(user_id uuid) RETURNS boolean] *)

Definition is_admin (user_id : uuid) (d : db) : bool :=
  existsb (fun p => N.eqb (p_id p) user_id &&
                    match p_role p with
                    | Some r => user_role_eqb r role_admin
                    | None => false
                    end)
          (profiles d).

(** ** [update_setup_completion() RETURNS TRIGGER] *)

(** [EXISTS (SELECT 1 FROM profile_setup_progress WHERE user_id = u
     AND step_name = step AND completed = true)] *)
Definition step_completed (u : uuid) (step : text) (d : db) : bool :=
  existsb (fun r => N.eqb (sp_user_id r) u &&
                    (sp_step_name r =? step) &&
                    match sp_completed r with
                    | Some b => b
                    | None => false
                    end)
          (profile_setup_progress d).

(** The row [UPDATE profiles SET setup_completed = true,
    setup_completed_at = now()] makes of [r]. *)
Definition mark_setup_completed (now : timestamptz) (r : profile) : profile :=
  {| p_id := p_id r; p_email := p_email r; p_username := p_username r;
     p_is_admin := p_is_admin r; p_role := p_role r;
     p_account_type := p_account_type r;
     p_setup_completed := Some true;
     p_setup_completed_at := Some now;
     p_created_at := p_created_at r; p_updated_at := p_updated_at r |}.

(** [UPDATE profiles SET ... WHERE id = user_id]; the trigger
    [update_profiles_updated_at] runs on each row before it is stored. *)
Definition update_profiles_setup_completed (user_id : uuid)
  (now : timestamptz) : tx unit :=
  write (with_profiles (map (fun r =>
    if N.eqb (p_id r) user_id
    then update_updated_at_column now (mark_setup_completed now r)
    else r))).

Definition required_steps : list text :=
  ["avatar_selected"; "profile_info_completed"; "account_type_selected"].

Definition update_setup_completion (NEW : setup_progress)
  (now : timestamptz) : tx setup_progress :=
  (if existsb (String.eqb (sp_step_name NEW)) required_steps then
     avatar <- read (step_completed (sp_user_id NEW) "avatar_selected") ;;
     info <- read (step_completed (sp_user_id NEW) "profile_info_completed") ;;
     if avatar && info
     then update_profiles_setup_completed (sp_user_id NEW) now
     else ret tt
   else ret tt) ;;
  ret NEW.

End Fn.

Import Fn.

(* ===================================================================== *)
(** * Section 4.2: statements and the triggers they fire *)
(* ===================================================================== *)

Module Stmt.

Local Open Scope string_scope.
Local Open Scope tx_scope.

Fixpoint for_each {A} (f : A -> tx unit) (l : list A) : tx unit :=
  match l with
  | [] => ret tt
  | x :: l' => f x ;; for_each f l'
  end.

(** ** [auth.users] and [on_auth_user_created]

    [AFTER INSERT ON auth.users FOR EACH ROW EXECUTE FUNCTION
    handle_new_user()]: creating a principal is the insertion of its row
    followed, in the same transaction, by the trigger. *)
Definition create_principal `{Locale} (u : auth_user) (fresh_cart_id : uuid)
  (now : timestamptz) : tx unit :=
  atomically (insert_auth_users u ;;
              handle_new_user u fresh_cart_id now ;;
              ret tt).

(** ** [profile_setup_progress] and [trigger_update_setup_completion] *)

(** [INSERT INTO profile_setup_progress (id, user_id, step_name, completed,
    completed_at)], then the trigger [AFTER INSERT]. *)
Definition insert_profile_setup_progress (id user_id : uuid) (step_name : text)
  (completed : option bool) (completed_at : option timestamptz)
  (now : timestamptz) : tx unit :=
  let NEW := {| sp_id := id; sp_user_id := user_id; sp_step_name := step_name;
                sp_completed := completed; sp_completed_at := completed_at;
                sp_updated_at := Some now |} in
  atomically (
    dup_id <- read (fun d => existsb (fun r => N.eqb (sp_id r) id)
                                     (profile_setup_progress d)) ;;
    require (negb dup_id) (unique_violation "profile_setup_progress_pkey") ;;
    dup_step <- read (fun d => existsb (fun r => N.eqb (sp_user_id r) user_id &&
                                                 (sp_step_name r =? step_name))
                                       (profile_setup_progress d)) ;;
    require (negb dup_step)
      (unique_violation "profile_setup_progress_user_id_step_name_key") ;;
    known <- read (fun d => existsb (fun r => N.eqb (au_id r) user_id) (auth_users d)) ;;
    require known (foreign_key_violation "profile_setup_progress_user_id_fkey") ;;
    write (with_profile_setup_progress (append_row NEW)) ;;
    update_setup_completion NEW now ;;
    ret tt).

(** The rows of [WHERE user_id = u AND step_name = s]. *)
Definition is_step (user_id : uuid) (step_name : text) (r : setup_progress) : bool :=
  N.eqb (sp_user_id r) user_id && (sp_step_name r =? step_name).

(** The row [SET completed = c, completed_at = t] makes of [r]. *)
Definition set_completed (c : option bool) (t : option timestamptz)
  (r : setup_progress) : setup_progress :=
  {| sp_id := sp_id r; sp_user_id := sp_user_id r;
     sp_step_name := sp_step_name r; sp_completed := c;
     sp_completed_at := t; sp_updated_at := sp_updated_at r |}.

(** [UPDATE profile_setup_progress SET completed = c, completed_at = t
     WHERE user_id = u AND step_name = s]: each row found is rewritten,
    [update_profile_setup_progress_updated_at] stamping it first, and the
    trigger [AFTER UPDATE] then runs once for each of them. *)
Definition update_profile_setup_progress (user_id : uuid) (step_name : text)
  (completed : option bool) (completed_at : option timestamptz)
  (now : timestamptz) : tx unit :=
  let rewrite_row r :=
    update_updated_at_column now (set_completed completed completed_at r) in
  atomically (
    hit <- read (fun d => filter (is_step user_id step_name)
                                 (profile_setup_progress d)) ;;
    write (with_profile_setup_progress
             (map (fun r => if is_step user_id step_name r
                            then rewrite_row r else r))) ;;
    for_each (fun r => update_setup_completion (rewrite_row r) now ;; ret tt) hit).

(** ** [user_follows] *)

(** [CHECK (follower_id != following_id)]: a check constraint refuses a row
    only when its expression is false, and a comparison with NULL is not. *)
Definition user_follows_check (follower_id following_id : option uuid) : bool :=
  match follower_id, following_id with
  | Some a, Some b => negb (N.eqb a b)
  | _, _ => true
  end.

Definition same_follow (a b : uuid) (r : user_follow) : bool :=
  N.eqb (uf_follower_id r) a && N.eqb (uf_following_id r) b.

(** [UNIQUE(follower_id, following_id)] and the primary key, on a whole
    table. *)
Fixpoint user_follows_unique (t : list user_follow) : bool :=
  match t with
  | [] => true
  | r :: t' =>
      negb (existsb (fun r' => N.eqb (uf_id r') (uf_id r)) t') &&
      negb (existsb (same_follow (uf_follower_id r) (uf_following_id r)) t') &&
      user_follows_unique t'
  end.

Definition profile_exists (id : uuid) (d : db) : bool :=
  existsb (fun r => N.eqb (p_id r) id) (profiles d).

(** [INSERT INTO user_follows (id, follower_id, following_id)] *)
Definition insert_user_follows (id : uuid) (follower_id following_id : option uuid)
  (now : timestamptz) : tx unit :=
  atomically (
    a <- not_null "follower_id" follower_id ;;
    b <- not_null "following_id" following_id ;;
    require (user_follows_check follower_id following_id)
      (check_violation "user_follows_check") ;;
    dup_id <- read (fun d => existsb (fun r => N.eqb (uf_id r) id) (user_follows d)) ;;
    require (negb dup_id) (unique_violation "user_follows_pkey") ;;
    dup <- read (fun d => existsb (same_follow a b) (user_follows d)) ;;
    require (negb dup)
      (unique_violation "user_follows_follower_id_following_id_key") ;;
    known_a <- read (profile_exists a) ;;
    require known_a (foreign_key_violation "user_follows_follower_id_fkey") ;;
    known_b <- read (profile_exists b) ;;
    require known_b (foreign_key_violation "user_follows_following_id_fkey") ;;
    write (with_user_follows (append_row
      {| uf_id := id; uf_follower_id := a; uf_following_id := b;
         uf_created_at := Some now |}))).

(** One row of [UPDATE user_follows SET follower_id = e1, following_id = e2]:
    the new values pass NOT NULL and the check constraint, or the statement
    raises. *)
Definition user_follows_set (e : user_follow -> option uuid * option uuid)
  (r : user_follow) : tx user_follow :=
  let (follower_id, following_id) := e r in
  a <- not_null "follower_id" follower_id ;;
  b <- not_null "following_id" following_id ;;
  require (user_follows_check follower_id following_id)
    (check_violation "user_follows_check") ;;
  ret {| uf_id := uf_id r; uf_follower_id := a; uf_following_id := b;
         uf_created_at := uf_created_at r |}.

(** The rows are rewritten one after the other, in the order of the table.
    [UNIQUE(follower_id, following_id)] is checked as each row is stored,
    against the table as it then is: the rows before it as rewritten
    ([done]), the rows after it as they were ([todo]). *)
Fixpoint user_follows_rewrite (cond : user_follow -> bool)
  (e : user_follow -> option uuid * option uuid)
  (done todo : list user_follow) : tx (list user_follow) :=
  match todo with
  | [] => ret done
  | r :: todo' =>
      if cond r then
        r' <- user_follows_set e r ;;
        require (negb (existsb (same_follow (uf_follower_id r') (uf_following_id r'))
                               (done ++ todo')))
          (unique_violation "user_follows_follower_id_following_id_key") ;;
        user_follows_rewrite cond e (done ++ [r']) todo'
      else user_follows_rewrite cond e (done ++ [r]) todo'
  end.

(** The two foreign keys of a row, checked when the statement has stored
    all its rows, and only for a key the statement has changed. *)
Definition user_follows_references (rows : user_follow * user_follow) : tx unit :=
  let (r, r') := rows in
  known_a <- read (profile_exists (uf_follower_id r')) ;;
  require (N.eqb (uf_follower_id r') (uf_follower_id r) || known_a)
    (foreign_key_violation "user_follows_follower_id_fkey") ;;
  known_b <- read (profile_exists (uf_following_id r')) ;;
  require (N.eqb (uf_following_id r') (uf_following_id r) || known_b)
    (foreign_key_violation "user_follows_following_id_fkey").

(** [UPDATE user_follows SET follower_id = e1, following_id = e2 WHERE cond] *)
Definition update_user_follows (cond : user_follow -> bool)
  (e : user_follow -> option uuid * option uuid) : tx unit :=
  atomically (
    old <- read user_follows ;;
    new <- user_follows_rewrite cond e [] old ;;
    for_each user_follows_references (combine old new) ;;
    write (with_user_follows (fun _ => new))).

(** [DELETE FROM user_follows WHERE cond]; the rows a deleted profile takes
    with it ([ON DELETE CASCADE]) leave the table the same way. *)
Definition delete_user_follows (cond : user_follow -> bool) : tx unit :=
  write (with_user_follows (filter (fun r => negb (cond r)))).

(** The states of the database: the empty one and those a statement on
    [user_follows] that did not raise, or any change to the other tables,
    leads to. *)
Inductive reachable : db -> Prop :=
| reach_empty : reachable empty_db
| reach_insert d d' id a b now :
    reachable d ->
    insert_user_follows id a b now d = (d', Ok tt) ->
    reachable d'
| reach_update d d' cond e :
    reachable d ->
    update_user_follows cond e d = (d', Ok tt) ->
    reachable d'
| reach_delete d d' cond :
    reachable d ->
    delete_user_follows cond d = (d', Ok tt) ->
    reachable d'
| reach_other d d' :
    reachable d ->
    user_follows d' = user_follows d ->
    reachable d'.

End Stmt.

Import Stmt.

(* ===================================================================== *)
(** * Section 5: row level security *)
(* ===================================================================== *)

Module Rls.

Local Open Scope string_scope.

(** ** Rows and expressions, as a policy sees them *)

Inductive value :=
| Null
| Uuid (u : uuid)
| Text (s : text)
| Time (t : timestamptz).

(** A row: its columns by name.  A column that is not listed is NULL. *)
Definition row := list (string * value).

Fixpoint col (r : row) (name : string) : value :=
  match r with
  | [] => Null
  | (n, v) :: r' => if n =? name then v else col r' name
  end.

Fixpoint set_col (name : string) (v : value) (r : row) : row :=
  match r with
  | [] => [(name, v)]
  | (n, w) :: r' => if n =? name then (n, v) :: r' else (n, w) :: set_col name v r'
  end.

(** SQL's three truth values: [None] is unknown. *)
Definition sql_bool := option bool.

Definition sql_eq (a b : value) : sql_bool :=
  match a, b with
  | Null, _ | _, Null => None
  | Uuid x, Uuid y => Some (N.eqb x y)
  | Text x, Text y => Some (x =? y)
  | Time x, Time y => Some (Z.eqb x y)
  | _, _ => Some false
  end.

Definition sql_and (a b : sql_bool) : sql_bool :=
  match a, b with
  | Some false, _ | _, Some false => Some false
  | Some true, Some true => Some true
  | _, _ => None
  end.

Definition sql_or (a b : sql_bool) : sql_bool :=
  match a, b with
  | Some true, _ | _, Some true => Some true
  | Some false, Some false => Some false
  | _, _ => None
  end.

(** [v IN (x1, ..., xn)] *)
Fixpoint sql_in (v : value) (l : list value) : sql_bool :=
  match l with
  | [] => Some false
  | x :: l' => sql_or (sql_eq v x) (sql_in v l')
  end.

(** A row passes a filter when the filter is true of it, not when it is
    unknown. *)
Definition is_true (b : sql_bool) : bool :=
  match b with
  | Some true => true
  | _ => false
  end.

(** [EXISTS (SELECT 1 FROM t WHERE cond)] *)
Definition sql_exists {A} (t : list A) (cond : A -> sql_bool) : sql_bool :=
  Some (existsb (fun x => is_true (cond x)) t).

Definition user_role_label (r : user_role) : text :=
  match r with
  | role_user => "user"
  | role_admin => "admin"
  | role_moderator => "moderator"
  end.

Definition order_status_label (s : order_status) : text :=
  match s with
  | pending_payment => "pending_payment"
  | payment_processing => "payment_processing"
  | payment_failed => "payment_failed"
  | paid => "paid"
  | preparing => "preparing"
  | shipped => "shipped"
  | in_transit => "in_transit"
  | delivered => "delivered"
  | completed => "completed"
  | cancelled => "cancelled"
  | refunded => "refunded"
  end.

Definition opt_value {A} (f : A -> value) (o : option A) : value :=
  match o with
  | Some a => f a
  | None => Null
  end.

(** An [orders] row, as the policies read it. *)
Definition row_of_order (o : order) : row :=
  [("id", Uuid (o_id o));
   ("buyer_id", Uuid (o_buyer_id o));
   ("seller_id", Uuid (o_seller_id o));
   ("status", Text (order_status_label (o_status o)));
   ("updated_at", opt_value Time (o_updated_at o));
   ("cancelled_at", opt_value Time (o_cancelled_at o))].

(** ** The tables of section 5.1, all with row level security enabled *)

Inductive table :=
| t_profiles | t_auth_sessions | t_auth_login_history | t_categories
| t_listings | t_product_variants | t_favorites | t_shopping_carts
| t_cart_items | t_orders | t_order_items | t_order_status_history
| t_order_tracking | t_shipping_addresses | t_shipping_labels
| t_payment_accounts | t_payment_methods | t_payment_transactions
| t_conversations | t_messages | t_notifications | t_disputes
| t_dispute_messages | t_returns | t_coupons | t_coupon_usage
| t_user_follows | t_user_ratings | t_user_stats_summary | t_store_credits
| t_stripe_webhook_events | t_transactions | t_profile_setup_progress
| t_brand_verification_requests | t_social_media_accounts
| t_admin_approvals | t_seller_payouts | t_shipping_events
| t_admin_audit_log | t_query_performance_log | t_database_health_metrics
| t_slow_queries | t_refund_requests.

Scheme Equality for table.

Inductive command := SELECT | INSERT | UPDATE | DELETE.

Inductive policy_for := FOR_ALL | FOR_SELECT | FOR_INSERT | FOR_UPDATE | FOR_DELETE.

Definition applies_to (f : policy_for) (c : command) : bool :=
  match f, c with
  | FOR_ALL, _ => true
  | FOR_SELECT, SELECT | FOR_INSERT, INSERT
  | FOR_UPDATE, UPDATE | FOR_DELETE, DELETE => true
  | _, _ => false
  end.

(** A policy expression reads [auth.uid()], the database (in its
    subqueries) and the row. *)
Definition expr := option uuid -> db -> row -> sql_bool.

Record policy := {
  policy_name : string;
  policy_table : table;
  policy_cmd : policy_for;
  policy_using : option expr;
  policy_with_check : option expr
}.

(** [auth.uid()] *)
Definition auth_uid (uid : option uuid) : value := opt_value Uuid uid.

(** [EXISTS (SELECT 1 FROM profiles WHERE id = auth.uid() AND role = 'admin')] *)
Definition exists_admin_profile : expr := fun uid d _ =>
  sql_exists (profiles d) (fun p =>
    sql_and (sql_eq (Uuid (p_id p)) (auth_uid uid))
            (sql_eq (opt_value (fun r => Text (user_role_label r)) (p_role p))
                    (Text "admin"))).

Definition sql_true : expr := fun _ _ _ => Some true.
Definition sql_false : expr := fun _ _ _ => Some false.

(** [auth.uid() = column] *)
Definition owns (column : string) : expr := fun uid _ r =>
  sql_eq (auth_uid uid) (col r column).

Definition USING (f : policy_for) (t : table) (name : string) (e : expr) : policy :=
  {| policy_name := name; policy_table := t; policy_cmd := f;
     policy_using := Some e; policy_with_check := None |}.

Definition WITH_CHECK (f : policy_for) (t : table) (name : string) (e : expr) : policy :=
  {| policy_name := name; policy_table := t; policy_cmd := f;
     policy_using := None; policy_with_check := Some e |}.

Definition USING_WITH_CHECK (f : policy_for) (t : table) (name : string)
  (e c : expr) : policy :=
  {| policy_name := name; policy_table := t; policy_cmd := f;
     policy_using := Some e; policy_with_check := Some c |}.

(** ** The policies of section 5.2, in the order of the dump

    The policies of section 6.2 are on [storage.objects], which is not one
    of these tables. *)

Definition policies : list policy := [
  (* Profiles *)
  USING FOR_SELECT t_profiles "Anyone can view profiles" sql_true;
  WITH_CHECK FOR_INSERT t_profiles "Users can insert own profile" (owns "id");
  USING FOR_UPDATE t_profiles "Users can update own profile" (owns "id");
  (* Listings *)
  USING FOR_SELECT t_listings "Listings are viewable by everyone"
    (fun _ _ r => sql_in (col r "status") [Text "active"; Text "sold"; Text "reserved"]);
  WITH_CHECK FOR_INSERT t_listings "Users can create their own listings" (owns "seller_id");
  USING FOR_UPDATE t_listings "Users can update their own listings" (owns "seller_id");
  USING FOR_DELETE t_listings "Users can delete their own listings" (owns "seller_id");
  (* Shopping carts *)
  USING FOR_SELECT t_shopping_carts "Users can view their own cart" (owns "user_id");
  WITH_CHECK FOR_INSERT t_shopping_carts "Users can create their own cart" (owns "user_id");
  USING FOR_UPDATE t_shopping_carts "Users can update their own cart" (owns "user_id");
  (* Orders *)
  USING FOR_SELECT t_orders "Users can view their orders"
    (fun uid d r => sql_or (owns "buyer_id" uid d r) (owns "seller_id" uid d r));
  WITH_CHECK FOR_INSERT t_orders "Buyers can create orders" (owns "buyer_id");
  USING FOR_UPDATE t_orders "Buyers can cancel pending orders"
    (fun uid d r =>
       sql_and (owns "buyer_id" uid d r)
               (sql_in (col r "status")
                       [Text "pending_payment"; Text "payment_processing"]));
  USING_WITH_CHECK FOR_UPDATE t_orders "Sellers can update order status"
    (owns "seller_id") (owns "seller_id");
  (* Profile setup progress *)
  USING FOR_SELECT t_profile_setup_progress "Users can view own setup progress"
    (owns "user_id");
  WITH_CHECK FOR_INSERT t_profile_setup_progress "Users can insert own setup progress"
    (owns "user_id");
  USING FOR_UPDATE t_profile_setup_progress "Users can update own setup progress"
    (owns "user_id");
  (* Brand verification requests *)
  USING FOR_SELECT t_brand_verification_requests "Users can view own brand requests"
    (fun uid d r => sql_or (owns "user_id" uid d r) (exists_admin_profile uid d r));
  WITH_CHECK FOR_INSERT t_brand_verification_requests "Users can create brand requests"
    (owns "user_id");
  USING FOR_UPDATE t_brand_verification_requests "Users can update own pending requests"
    (fun uid d r =>
       sql_and (owns "user_id" uid d r)
               (sql_eq (col r "verification_status") (Text "pending")));
  USING FOR_UPDATE t_brand_verification_requests "Admins can update any brand request"
    exists_admin_profile;
  (* Social media accounts *)
  USING FOR_SELECT t_social_media_accounts "Users can view social media accounts" sql_true;
  USING FOR_ALL t_social_media_accounts "Users can manage own social accounts"
    (owns "user_id");
  (* Admin approvals *)
  USING FOR_SELECT t_admin_approvals "Only admins can view approvals" exists_admin_profile;
  WITH_CHECK FOR_INSERT t_admin_approvals "Only admins can create approvals"
    exists_admin_profile;
  (* Seller payouts *)
  USING FOR_SELECT t_seller_payouts "Sellers can view own payouts" (owns "seller_id");
  WITH_CHECK FOR_INSERT t_seller_payouts "Only system can create payouts" sql_false;
  (* Shipping events *)
  USING FOR_SELECT t_shipping_events "Users can view shipping events for their orders"
    (fun uid d r =>
       sql_exists (orders d) (fun o =>
         sql_and (sql_eq (Uuid (o_id o)) (col r "order_id"))
                 (sql_or (sql_eq (Uuid (o_buyer_id o)) (auth_uid uid))
                         (sql_eq (Uuid (o_seller_id o)) (auth_uid uid)))));
  (* Admin audit log *)
  USING FOR_SELECT t_admin_audit_log "Only admins can view audit log" exists_admin_profile;
  (* Performance monitoring (service role only) *)
  USING_WITH_CHECK FOR_ALL t_query_performance_log "Service role only" sql_false sql_false;
  USING_WITH_CHECK FOR_ALL t_database_health_metrics "Service role only" sql_false sql_false;
  USING_WITH_CHECK FOR_ALL t_slow_queries "Service role only" sql_false sql_false;
  (* Refund requests *)
  USING FOR_SELECT t_refund_requests "Users can view own refund requests"
    (fun uid d r =>
       sql_or (sql_eq (col r "requested_by") (auth_uid uid))
              (sql_exists (orders d) (fun o =>
                 sql_and (sql_eq (Uuid (o_id o)) (col r "order_id"))
                         (sql_eq (Uuid (o_seller_id o)) (auth_uid uid)))));
  WITH_CHECK FOR_INSERT t_refund_requests "Buyers can create refund requests"
    (fun uid d r =>
       sql_and (sql_eq (col r "requested_by") (auth_uid uid))
               (sql_exists (orders d) (fun o =>
                  sql_and (sql_eq (Uuid (o_id o)) (col r "order_id"))
                          (sql_eq (Uuid (o_buyer_id o)) (auth_uid uid)))));
  USING FOR_UPDATE t_refund_requests "Only admins can update refund requests"
    exists_admin_profile
].

(** ** How the policies of a table decide a command

    All the policies are permissive: those that apply to the command are
    combined with OR.  [USING] filters the rows already in the table;
    [WITH CHECK] judges the rows a command would store, and a policy that
    gives none is taken to check its [USING] expression.  With no policy at
    all for a command, nothing passes.

    A command is judged by the policies declared for it or for all
    commands.  An [INSERT], [UPDATE] or [DELETE] that reads columns of the
    table, in a [WHERE] clause, in [RETURNING] or on the right of a [SET],
    needs the right to select as well: the [SELECT] policies are then
    applied to the rows it reads, the old row as a filter and the new row
    as a check.  [reads] says whether the statement is one of these; a
    statement that names the row it changes is. *)

Definition passes (e : option expr) (uid : option uuid) (d : db) (r : row) : bool :=
  match e with
  | Some f => is_true (f uid d r)
  | None => false
  end.

Definition effective_check (p : policy) : option expr :=
  match policy_with_check p with
  | Some c => Some c
  | None => policy_using p
  end.

Definition policies_for (t : table) (c : command) : list policy :=
  filter (fun p => table_beq (policy_table p) t && applies_to (policy_cmd p) c) policies.

Definition using_ok (uid : option uuid) (d : db) (t : table) (c : command) (r : row) : bool :=
  existsb (fun p => passes (policy_using p) uid d r) (policies_for t c).

Definition check_ok (uid : option uuid) (d : db) (t : table) (c : command) (r : row) : bool :=
  existsb (fun p => passes (effective_check p) uid d r) (policies_for t c).

(** [SELECT]: the row is returned, or silently left out. *)
Definition rls_select (uid : option uuid) (d : db) (t : table) (r : row) : bool :=
  using_ok uid d t SELECT r.

(** The [SELECT] policies, for a statement that reads the row. *)
Definition select_ok (reads : bool) (uid : option uuid) (d : db) (t : table)
  (r : row) : bool :=
  negb reads || rls_select uid d t r.

(** [INSERT]: the new row is stored, or the statement raises. *)
Definition rls_insert (reads : bool) (uid : option uuid) (d : db) (t : table)
  (r : row) : bool :=
  check_ok uid d t INSERT r && select_ok reads uid d t r.

(** [DELETE]: the row is removed, or silently left alone. *)
Definition rls_delete (reads : bool) (uid : option uuid) (d : db) (t : table)
  (r : row) : bool :=
  using_ok uid d t DELETE r && select_ok reads uid d t r.

(** The tables whose rows [update_updated_at_column] stamps before an
    update is stored (section 4.2). *)
Definition has_updated_at_trigger (t : table) : bool :=
  match t with
  | t_profiles | t_listings | t_orders | t_profile_setup_progress
  | t_brand_verification_requests | t_social_media_accounts => true
  | _ => false
  end.

#[export] Instance row_updated_at : HasUpdatedAt row := fun t r =>
  set_col "updated_at" (opt_value Time t) r.

Inductive update_outcome :=
| row_updated (new : row)   (* the new row replaces the old one *)
| row_not_seen              (* the old row fails USING: the statement does
                               not see it and changes nothing *)
| rls_violation.            (* the new row fails WITH CHECK: the statement
                               raises and changes nothing *)

(** [UPDATE t SET ...] on one row [old], the assignment being [set]. *)
Definition rls_update (reads : bool) (uid : option uuid) (d : db) (t : table)
  (now : timestamptz) (old : row) (set : row -> row) : update_outcome :=
  if using_ok uid d t UPDATE old && select_ok reads uid d t old then
    let new := if has_updated_at_trigger t
               then update_updated_at_column now (set old)
               else set old in
    if check_ok uid d t UPDATE new && select_ok reads uid d t new
    then row_updated new else rls_violation
  else row_not_seen.

(** The row of [t] after the statement. *)
Definition row_after (old : row) (o : update_outcome) : row :=
  match o with
  | row_updated new => new
  | _ => old
  end.

(** Is [c] let through?  [old] is the row in the table (for [SELECT],
    [UPDATE], [DELETE]) and [new] the row to store (for [INSERT],
    [UPDATE]). *)
Definition permits (reads : bool) (uid : option uuid) (d : db) (t : table)
  (c : command) (old new : row) : bool :=
  match c with
  | SELECT => rls_select uid d t old
  | INSERT => rls_insert reads uid d t new
  | UPDATE => (using_ok uid d t UPDATE old && select_ok reads uid d t old) &&
              (check_ok uid d t UPDATE new && select_ok reads uid d t new)
  | DELETE => rls_delete reads uid d t old
  end.

(** [UPDATE orders SET status = 'cancelled', cancelled_at = NOW()] *)
Definition cancel_order (now : timestamptz) (r : row) : row :=
  set_col "cancelled_at" (Time now) (set_col "status" (Text "cancelled") r).

(** The principal holds the role [admin]. *)
Definition principal_is_admin (uid : option uuid) (d : db) : bool :=
  match uid with
  | Some u => is_admin u d
  | None => false
  end.




(** The commands some policy opens to everyone whatever the row. *)
Definition public_read (t : table) (c : command) : bool :=
  match t, c with
  | t_profiles, SELECT | t_social_media_accounts, SELECT => true
  | _, _ => false
  end.

End Rls.

Import Rls.

(* ===================================================================== *)
(** * Section 4.1, continued: [promote_to_admin] *)
(* ===================================================================== *)

Module Admin.

Local Open Scope string_scope.

(** [admin_approvals]; [metadata] is the JSON object as its list of
    members. *)
Record admin_approval := {
  aa_id : uuid;
  aa_request_type : text;
  aa_request_id : uuid;
  aa_admin_id : uuid;
  aa_action : text;
  aa_notes : option text;
  aa_metadata : list (text * text);
  aa_created_at : option timestamptz
}.

(** The database together with the approvals table. *)
Record admin_db := {
  base : db;
  admin_approvals : list admin_approval
}.

Definition with_base (f : db -> db) (s : admin_db) : admin_db :=
  {| base := f (base s); admin_approvals := admin_approvals s |}.

Definition with_admin_approvals (f : list admin_approval -> list admin_approval)
  (s : admin_db) : admin_db :=
  {| base := base s; admin_approvals := f (admin_approvals s) |}.

(** What a function can raise: a constraint violation, or the exception of
    a [RAISE EXCEPTION]. *)
Inductive fn_error :=
| violated (e : sql_error)
| raised (message : text).

Inductive fn_result (A : Type) :=
| Done (a : A)
| Failed (e : fn_error).
Arguments Done {A} a.
Arguments Failed {A} e.

Definition fn (A : Type) := admin_db -> admin_db * fn_result A.

Definition fn_ret {A} (a : A) : fn A := fun s => (s, Done a).
Definition fn_raise {A} (e : fn_error) : fn A := fun s => (s, Failed e).
Definition fn_bind {A B} (m : fn A) (k : A -> fn B) : fn B :=
  fun s => match m s with
           | (s', Done a) => k a s'
           | (s', Failed e) => (s', Failed e)
           end.
Definition fn_read {A} (f : admin_db -> A) : fn A := fun s => (s, Done (f s)).
Definition fn_write (f : admin_db -> admin_db) : fn unit := fun s => (f s, Done tt).
Definition fn_require (b : bool) (e : sql_error) : fn unit :=
  if b then fn_ret tt else fn_raise (violated e).

Declare Scope fn_scope.
Delimit Scope fn_scope with fn.
Notation "x <- m ;; k" := (fn_bind m (fun x => k))
  (at level 61, m at next level, right associativity) : fn_scope.
Notation "m ;; k" := (fn_bind m (fun _ => k))
  (at level 61, right associativity) : fn_scope.
Local Open Scope fn_scope.

(** The statement that calls a function is one transaction. *)
Definition fn_atomically {A} (m : fn A) : fn A :=
  fun s => match m s with
           | (s', Done a) => (s', Done a)
           | (_, Failed e) => (s, Failed e)
           end.

(** [SELECT id INTO target_user_id FROM auth.users WHERE email = user_email];
    a row without email does not match. *)
Definition select_user_by_email (user_email : text) (s : admin_db) : option uuid :=
  option_map au_id
    (find (fun u => match au_email u with
                    | Some e => e =? user_email
                    | None => false
                    end)
          (auth_users (base s))).

(** The row [UPDATE profiles SET role = 'admin'] makes of [r]. *)
Definition set_role_admin (r : profile) : profile :=
  {| p_id := p_id r; p_email := p_email r; p_username := p_username r;
     p_is_admin := p_is_admin r; p_role := Some role_admin;
     p_account_type := p_account_type r;
     p_setup_completed := p_setup_completed r;
     p_setup_completed_at := p_setup_completed_at r;
     p_created_at := p_created_at r; p_updated_at := p_updated_at r |}.

(** [UPDATE profiles SET role = 'admin' WHERE id = target_user_id], with
    the trigger [update_profiles_updated_at]. *)
Definition update_profiles_role_admin (target : uuid) (now : timestamptz) : fn unit :=
  fn_write (with_base (with_profiles (map (fun r =>
    if N.eqb (p_id r) target
    then update_updated_at_column now (set_role_admin r)
    else r)))).

Definition request_types : list text :=
  ["brand_verification"; "product_approval"; "user_ban"; "user_promotion"].

Definition actions : list text := ["approve"; "reject"; "request_info"].

(** [INSERT INTO admin_approvals (request_type, request_id, admin_id, action,
    notes, metadata)], with the constraints of the table. *)
Definition insert_admin_approvals (id : uuid) (request_type : text)
  (request_id : uuid) (admin_id : option uuid) (action : text)
  (notes : text) (metadata : list (text * text)) (now : timestamptz) : fn unit :=
  admin <- match admin_id with
           | Some a => fn_ret a
           | None => fn_raise (violated (not_null_violation "admin_id"))
           end ;;
  fn_require (existsb (String.eqb request_type) request_types)
    (check_violation "admin_approvals_request_type_check") ;;
  fn_require (existsb (String.eqb action) actions)
    (check_violation "admin_approvals_action_check") ;;
  dup <- fn_read (fun s => existsb (fun r => N.eqb (aa_id r) id) (admin_approvals s)) ;;
  fn_require (negb dup) (unique_violation "admin_approvals_pkey") ;;
  known <- fn_read (fun s => existsb (fun r => N.eqb (au_id r) admin)
                               (auth_users (base s))) ;;
  fn_require known (foreign_key_violation "admin_approvals_admin_id_fkey") ;;
  fn_write (with_admin_approvals (append_row
    {| aa_id := id; aa_request_type := request_type;
       aa_request_id := request_id; aa_admin_id := admin;
       aa_action := action; aa_notes := Some notes;
       aa_metadata := metadata; aa_created_at := Some now |})).

(** [promote_to_admin(user_email text) RETURNS void]; [uid] is [auth.uid()]
    and [fresh_id] the id drawn for the approval row. *)
Definition promote_to_admin (user_email : text) (uid : option uuid)
  (fresh_id : uuid) (now : timestamptz) : fn unit :=
  target_user_id <- fn_read (select_user_by_email user_email) ;;
  match target_user_id with
  | None => fn_raise (raised ("User with email " ++ user_email ++ " not found"))
  | Some target =>
      update_profiles_role_admin target now ;;
      insert_admin_approvals fresh_id "user_promotion" target uid "approve"
        "Promoted to admin role" [("email", user_email); ("role", "admin")] now
  end.

(** [SELECT promote_to_admin(...)] *)
Definition select_promote_to_admin (user_email : text) (uid : option uuid)
  (fresh_id : uuid) (now : timestamptz) : fn unit :=
  fn_atomically (promote_to_admin user_email uid fresh_id now).

End Admin.

Import Admin.

(* ===================================================================== *)
(** * The registration form: [registerSchema] and [handleRegister] *)
(* ===================================================================== *)

Module Register.

(** A string of the form, as its UTF-16 code units. *)
Definition jsstring := list N.

Inductive account_type := personal | brand.

Record register_form := {
  email : jsstring;
  password : jsstring;
  confirmPassword : jsstring;
  username : jsstring;
  fullName : jsstring;
  agreedToTerms : bool;
  accountType : account_type;
  brandName : jsstring;
  brandCategory : jsstring;
  brandWebsite : jsstring
}.

(** [x || undefined] *)
Definition or_undefined (x : jsstring) : option jsstring :=
  match x with
  | [] => None
  | _ => Some x
  end.

Definition jsstring_eqb (a b : jsstring) : bool :=
  (List.length a =? List.length b)%nat &&
  forallb (fun p => N.eqb (fst p) (snd p)) (combine a b).

(** [[a-zA-Z0-9_]] *)
Definition word_unit (c : N) : bool :=
  ((97 <=? c) && (c <=? 122) || (65 <=? c) && (c <=? 90) ||
   (48 <=? c) && (c <=? 57) || (c =? 95))%N.

(** [z.string().min(3).max(30).regex(/^[a-zA-Z0-9_]+$/)] *)
Definition username_rule (s : jsstring) : bool :=
  (3 <=? List.length s)%nat && (List.length s <=? 30)%nat &&
  (negb (List.length s =? 0)%nat && forallb word_unit s).

Section Schema.

(** What [z.string().email()] and [z.string().url()] accept is the
    library's business. *)
Variables is_email is_url : jsstring -> bool.

(** The data [handleRegister] hands to [registerSchema.parse]. *)
Record register_data := {
  d_email : jsstring;
  d_password : jsstring;
  d_confirmPassword : jsstring;
  d_username : jsstring;
  d_fullName : option jsstring;
  d_agreedToTerms : bool;
  d_accountType : account_type;
  d_brandName : option jsstring;
  d_brandCategory : option jsstring;
  d_brandWebsite : option jsstring
}.

Definition data_of_form (f : register_form) : register_data :=
  {| d_email := email f; d_password := password f;
     d_confirmPassword := confirmPassword f; d_username := username f;
     d_fullName := or_undefined (fullName f);
     d_agreedToTerms := agreedToTerms f; d_accountType := accountType f;
     d_brandName := or_undefined (brandName f);
     d_brandCategory := or_undefined (brandCategory f);
     d_brandWebsite := or_undefined (brandWebsite f) |}.

(** [z.string().url().optional().or(z.literal(''))] *)
Definition website_rule (w : option jsstring) : bool :=
  match w with
  | None => true
  | Some s => is_url s || jsstring_eqb s []
  end.

(** The first refinement: [data.password === data.confirmPassword]. *)
Definition passwords_match (x : register_data) : bool :=
  jsstring_eqb (d_password x) (d_confirmPassword x).

(** The second refinement: a brand account has a brand name of two
    characters or more. *)
Definition brand_named (x : register_data) : bool :=
  match d_accountType x with
  | brand =>
      match d_brandName x with
      | Some n => (2 <=? List.length n)%nat
      | None => false
      end
  | personal => true
  end.

(** [registerSchema.parse] returns the data when no rule is broken and
    throws otherwise. *)
Definition registerSchema_accepts (x : register_data) : bool :=
  is_email (d_email x) &&
  (8 <=? List.length (d_password x))%nat &&
  username_rule (d_username x) &&
  d_agreedToTerms x &&
  website_rule (d_brandWebsite x) &&
  passwords_match x &&
  brand_named x.

(** The metadata of [auth.signUp]. *)
Record signup_metadata := {
  account_type_ : account_type;
  brand_name : option jsstring;
  brand_category : option jsstring;
  brand_website : option jsstring
}.

Record signup_call := {
  su_email : jsstring;
  su_password : jsstring;
  su_username : jsstring;
  su_fullName : option jsstring;
  su_metadata : signup_metadata
}.

Definition for_brand (f : register_form) (x : jsstring) : option jsstring :=
  match accountType f with
  | brand => Some x
  | personal => None
  end.

(** [handleRegister], up to the call of [auth.signUp]: the call it makes,
    or none when the schema throws. *)
Definition handleRegister (f : register_form) : option signup_call :=
  if registerSchema_accepts (data_of_form f) then
    Some {| su_email := email f; su_password := password f;
            su_username := username f;
            su_fullName := or_undefined (fullName f);
            su_metadata :=
              {| account_type_ := accountType f;
                 brand_name := for_brand f (brandName f);
                 brand_category := for_brand f (brandCategory f);
                 brand_website := for_brand f (brandWebsite f) |} |}
  else None.

End Schema.

(** The code units of a text of ASCII characters. *)
Definition units_of_text (s : text) : jsstring :=
  map N_of_ascii (list_ascii_of_string s).

End Register.

Import Register.

(* ===================================================================== *)
(** * Vocabulary of the properties *)
(* ===================================================================== *)

Module Preds.

Local Open Scope string_scope.

(** [s] ends with [suffix]. *)
Definition ends_with (s suffix : text) : Prop := exists pre, s = pre ++ suffix.

(** A pattern without wildcard. *)
Fixpoint literal (p : text) : bool :=
  match p with
  | EmptyString => true
  | String c p' => negb (Ascii.eqb c "%") && negb (Ascii.eqb c "_") && literal p'
  end.

(** The sizes [get_optimized_image_url] knows. *)
Definition recognized_size (size : text) : Prop :=
  size = "thumb" \/ size = "small" \/ size = "medium" \/ size = "large".

Definition is_digit (c : ascii) : bool :=
  let n := nat_of_ascii c in (48 <=? n)%nat && (n <=? 57)%nat.

Fixpoint all_digits (s : text) : bool :=
  match s with
  | EmptyString => true
  | String c s' => is_digit c && all_digits s'
  end.

(** The number a string of decimal digits writes. *)
Fixpoint digits_value_from (acc : N) (s : text) : N :=
  match s with
  | EmptyString => acc
  | String c s' => digits_value_from (acc * 10 + (N_of_ascii c - 48))%N s'
  end.

Definition digits_value (s : text) : N := digits_value_from 0 s.

(** [s] is the number [n] written on exactly [w] decimal digits. *)
Definition writes (w : nat) (n : N) (s : text) : bool :=
  (length s =? w)%nat && all_digits s && N.eqb (digits_value s) n.

(** [P] holds of every number below 2^k: of the even ones and of the odd
    ones, both halved. *)
Fixpoint all_below_pow2 (k : nat) (P : N -> bool) : bool :=
  match k with
  | O => P 0%N
  | S k' => all_below_pow2 k' (fun n => P (2 * n)%N) &&
            all_below_pow2 k' (fun n => P (2 * n + 1)%N)
  end.

(** ** Row level security *)

(** The statuses under which a listing is public. *)
Definition public_status (r : row) : Prop :=
  col r "status" = Text "active" \/ col r "status" = Text "sold" \/
  col r "status" = Text "reserved".

(** The principal is the one named in [column]. *)
Definition is_owner (uid : option uuid) (r : row) (column : string) : Prop :=
  exists u, uid = Some u /\ col r column = Uuid u.

(** Listing visibility as the specification words it: a listing is returned
    to a principal exactly when its status is public, or the principal is its
    seller, or the principal is an admin. *)
Definition listing_visibility_as_specified (uid : option uuid) (d : db) (r : row) : Prop :=
  rls_select uid d t_listings r = true <->
  (public_status r \/ is_owner uid r "seller_id" \/ principal_is_admin uid d = true).

(** The statuses in which the buyer's policy lets an order be updated. *)
Definition before_payment (s : order_status) : Prop :=
  s = pending_payment \/ s = payment_processing.

(** The cancellation of an order by a principal. *)
Definition cancellation (reads : bool) (uid : option uuid) (d : db)
  (now : timestamptz) (o : order) : update_outcome :=
  rls_update reads uid d t_orders now (row_of_order o) (cancel_order now).

(** Order cancellation as the specification words it: it succeeds only for
    the buyer of an order not yet paid, and never on a shipped order. *)
Definition cancellation_as_specified (reads : bool) (uid : option uuid) (d : db)
  (now : timestamptz) (o : order) : Prop :=
  (forall new, cancellation reads uid d now o = row_updated new ->
     uid = Some (o_buyer_id o) /\ before_payment (o_status o)) /\
  (o_status o = shipped ->
     forall new, cancellation reads uid d now o <> row_updated new).




(** [auth.uid()] is the principal [u]. *)
Definition uid_eqb (uid : option uuid) (u : uuid) : bool :=
  match uid with
  | Some x => N.eqb x u
  | None => false
  end.

Definition before_paymentb (s : order_status) : bool :=
  match s with
  | pending_payment | payment_processing => true
  | _ => false
  end.


(** Sample rows: principals 1 (a buyer), 2 (a seller), 7 (a seller of
    listings) and 9 (an admin). *)
Definition draft_listing : row :=
  [("id", Uuid 100%N); ("seller_id", Uuid 7%N); ("status", Text "draft")].

Definition sample_order (s : order_status) : order :=
  {| o_id := 500%N; o_buyer_id := 1%N; o_seller_id := 2%N; o_status := s;
     o_updated_at := Some 10%Z; o_cancelled_at := None |}.

Definition sample_profile (id : uuid) (name : text) (r : user_role) : profile :=
  {| p_id := id; p_email := name ++ "@example.com"; p_username := name;
     p_is_admin := Some (user_role_eqb r role_admin); p_role := Some r;
     p_account_type := Some "personal";
     p_setup_completed := Some false; p_setup_completed_at := None;
     p_created_at := Some 0%Z; p_updated_at := Some 0%Z |}.

Definition db_with_admin : db :=
  with_profiles (fun _ => [sample_profile 1%N "bea" role_user;
                           sample_profile 2%N "sam" role_user;
                           sample_profile 9%N "ada" role_admin])
                empty_db.

(** A refund request of principal 1 on order 500, which principal 2
    sells. *)
Definition refund_of_one (status : text) : row :=
  [("id", Uuid 600%N); ("order_id", Uuid 500%N); ("requested_by", Uuid 1%N);
   ("status", Text status)].

(** The database of [db_with_admin], with order 500 in it. *)
Definition db_with_order : db :=
  {| auth_users := []; profiles := profiles db_with_admin;
     profile_setup_progress := []; shopping_carts := []; cart_items := [];
     orders := [sample_order delivered];
     user_follows := []; user_stats_summary := [] |}.


(** ** Follows *)

(** No row of [user_follows] has a user following themselves. *)
Definition no_self_follow (d : db) : Prop :=
  forall r, In r (user_follows d) -> uf_follower_id r <> uf_following_id r.

Definition db_two_profiles : db :=
  with_profiles (fun _ => [sample_profile 1%N "bea" role_user;
                           sample_profile 2%N "sam" role_user])
                empty_db.

Definition sample_follow : user_follow :=
  {| uf_id := 300%N; uf_follower_id := 1%N; uf_following_id := 2%N;
     uf_created_at := Some 5%Z |}.

Definition db_one_follow : db :=
  with_user_follows (append_row sample_follow) db_two_profiles.

(** Principal 1 follows 2 and 3; the three have profiles. *)
Definition db_two_follows : db :=
  with_user_follows
    (fun _ => [sample_follow;
               {| uf_id := 301%N; uf_follower_id := 1%N; uf_following_id := 3%N;
                  uf_created_at := Some 6%Z |}])
    (with_profiles (fun _ => [sample_profile 1%N "bea" role_user;
                              sample_profile 2%N "sam" role_user;
                              sample_profile 3%N "tom" role_user])
                   empty_db).

(** [SET following_id = 5 - following_id]: 2 becomes 3 and 3 becomes 2. *)
Definition swap_followed (r : user_follow) : option uuid * option uuid :=
  (Some (uf_follower_id r), Some (5 - uf_following_id r)%N).


(** ** Principal bootstrap *)

(** The rows of a principal, and the items of a cart. *)
Definition profiles_of (u : uuid) (d : db) : list profile :=
  filter (fun p => N.eqb (p_id p) u) (profiles d).

Definition carts_of (u : uuid) (d : db) : list shopping_cart :=
  filter (fun c => N.eqb (sc_user_id c) u) (shopping_carts d).

Definition stats_of (u : uuid) (d : db) : list user_stats :=
  filter (fun s => N.eqb (us_user_id s) u) (user_stats_summary d).

Definition items_of (cart : uuid) (d : db) : list cart_item :=
  filter (fun i => N.eqb (ci_cart_id i) cart) (cart_items d).

Definition known_principal (u : uuid) (d : db) : bool :=
  existsb (fun r => N.eqb (au_id r) u) (auth_users d).

Definition cart_exists (c : uuid) (d : db) : bool :=
  existsb (fun r => N.eqb (sc_id r) c) (shopping_carts d).

(** The foreign keys of the four tables the bootstrap touches hold. *)
Record referential_integrity (d : db) : Prop := {
  fk_profiles : forall p, In p (profiles d) -> known_principal (p_id p) d = true;
  fk_carts : forall c, In c (shopping_carts d) -> profile_exists (sc_user_id c) d = true;
  fk_stats : forall s, In s (user_stats_summary d) -> profile_exists (us_user_id s) d = true;
  fk_items : forall i, In i (cart_items d) -> cart_exists (ci_cart_id i) d = true
}.

(** The profile of a new principal: the three inserted columns and the
    defaults of the others. *)
Definition default_profile (id : uuid) (email username : text)
  (now : timestamptz) : profile :=
  {| p_id := id; p_email := email; p_username := username;
     p_is_admin := Some false; p_role := Some role_user;
     p_account_type := Some "personal";
     p_setup_completed := Some false; p_setup_completed_at := None;
     p_created_at := Some now; p_updated_at := Some now |}.

Definition new_cart (id user_id : uuid) (now : timestamptz) : shopping_cart :=
  {| sc_id := id; sc_user_id := user_id;
     sc_expires_at := Some (now + interval_30_days)%Z;
     sc_created_at := Some now; sc_updated_at := Some now |}.

(** A stats row that counts nothing: the counters and totals are zero, the
    averages and times are not known yet. *)
Definition zeroed_stats (user_id : uuid) (now : timestamptz) : user_stats :=
  {| us_user_id := user_id;
     us_total_sales := Some 0%Z; us_total_purchases := Some 0%Z;
     us_total_spent := Some 0%Q; us_total_earned := Some 0%Q;
     us_average_rating := None;
     us_total_ratings := Some 0%Z;
     us_follower_count := Some 0%Z; us_following_count := Some 0%Z;
     us_response_rate := None; us_response_time_hours := None;
     us_ship_time_hours := None; us_last_active_at := None;
     us_updated_at := Some now |}.

(** The username the bootstrap derives from an email address. *)
Definition default_username `{Locale} (email : text) : text :=
  LOWER (SPLIT_PART email "@" 1).

(** The local part of an address, as the specification words it: what
    stands before the first [@], the whole address when it has none. *)
Definition local_part_as_specified (email local : text) : Prop :=
  (forall i, get i local <> Some "@"%char) /\
  (email = local \/ exists rest, email = local ++ "@" ++ rest).

(** Lower case as the specification means it for a text of ASCII: each of
    the twenty-six capital letters replaced by its small letter, everything
    else as it was. *)
Definition small_letter (c : ascii) : ascii :=
  match c with
  | "A" => "a" | "B" => "b" | "C" => "c" | "D" => "d" | "E" => "e"
  | "F" => "f" | "G" => "g" | "H" => "h" | "I" => "i" | "J" => "j"
  | "K" => "k" | "L" => "l" | "M" => "m" | "N" => "n" | "O" => "o"
  | "P" => "p" | "Q" => "q" | "R" => "r" | "S" => "s" | "T" => "t"
  | "U" => "u" | "V" => "v" | "W" => "w" | "X" => "x" | "Y" => "y"
  | "Z" => "z"
  | _ => c
  end%char.

Definition lower_cased_as_specified (s lowered : text) : Prop :=
  length lowered = length s /\
  forall i, get i lowered = option_map small_letter (get i s).

(** [s] has no character [c]. *)
Fixpoint without_char (c : ascii) (s : text) : bool :=
  match s with
  | EmptyString => true
  | String x s' => negb (Ascii.eqb x c) && without_char c s'
  end.

Definition sample_user : auth_user :=
  {| au_id := 1%N; au_email := Some "Bea.Stone@Example.com" |}.

(** A database where the id the next cart would draw is taken. *)
Definition db_cart_id_taken : db :=
  with_shopping_carts (append_row (new_cart 77%N 2%N 0%Z))
    (with_profiles (append_row (sample_profile 2%N "sam" role_user))
       (with_auth_users (append_row {| au_id := 2%N; au_email := Some "sam@example.com" |})
          empty_db)).


(** ** Setup completion *)

(** The condition under which [update_setup_completion] updates the
    profile of the written row. *)
Definition fires (NEW : setup_progress) (d : db) : bool :=
  existsb (String.eqb (sp_step_name NEW)) required_steps &&
  step_completed (sp_user_id NEW) "avatar_selected" d &&
  step_completed (sp_user_id NEW) "profile_info_completed" d.

(** What the trigger's update makes of a profile. *)
Definition complete_for (u : uuid) (now : timestamptz) (p : profile) : profile :=
  if N.eqb (p_id p) u
  then update_updated_at_column now (mark_setup_completed now p)
  else p.

(** The same step written as completed at [now1] and again at [now2]. *)
Definition written_twice (u : uuid) (step : text) (now1 now2 : timestamptz)
  (d : db) : db * db :=
  let d1 := fst (update_profile_setup_progress u step (Some true) (Some now1) now1 d) in
  let d2 := fst (update_profile_setup_progress u step (Some true) (Some now1) now2 d1) in
  (d1, d2).

(** Setup completion as the specification words it: the second write of a
    step leaves [setup_completed_at] as the first write set it. *)
Definition setup_completion_as_specified (u : uuid) (step : text)
  (now1 now2 : timestamptz) (d : db) : Prop :=
  let (d1, d2) := written_twice u step now1 now2 d in
  map p_setup_completed_at (profiles_of u d2) =
  map p_setup_completed_at (profiles_of u d1).

Definition sample_step (id : uuid) (step : text) (done : bool) : setup_progress :=
  {| sp_id := id; sp_user_id := 1%N; sp_step_name := step;
     sp_completed := Some done; sp_completed_at := None;
     sp_updated_at := Some 0%Z |}.

(** Principal 1 has chosen an avatar and not yet filled in the profile. *)
Definition db_setup_started : db :=
  with_profile_setup_progress
    (fun _ => [sample_step 10%N "avatar_selected" true;
               sample_step 11%N "profile_info_completed" false])
    (with_profiles (append_row (sample_profile 1%N "bea" role_user))
       (with_auth_users (append_row {| au_id := 1%N; au_email := Some "bea@example.com" |})
          empty_db)).

(** ** Carts *)

(** Principal 2 has one cart, created at time 0. *)
Definition db_one_cart : db := db_cart_id_taken.

(** A moment after that cart has expired. *)
Definition after_expiry : timestamptz := (interval_30_days + 1)%Z.


(** ** Further vocabulary: order numbers and image urls *)

(** A double, as the format has it: a whole number of less than 53 bits
    times a power of two, none below 2^-1074.  The largest exponent is left
    out, as no product of this schema comes near it. *)
Definition double (q : Q) : Prop :=
  exists m e : Z,
    (Z.abs m < 2 ^ 53)%Z /\ (-1074 <= e)%Z /\ (q == inject_Z m * 2 ^ e)%Q.

(** [p] is a double, and no double is nearer to [x]: what an operation on
    doubles returns for the exact result [x]. *)
Definition nearest_double (x p : Q) : Prop :=
  double p /\ forall d, double d -> (Qabs (p - x) <= Qabs (d - x))%Q.

(** The four numbers an order number carries, read back from its fixed
    columns: year, month, day and suffix. *)
Definition order_number_fields (s : text) : N * N * N * N :=
  (digits_value (substring 4 4 s), digits_value (substring 8 2 s),
   digits_value (substring 10 2 s), digits_value (substring 13 4 s)).

(** The first test of [get_optimized_image_url]. *)
Definition already_sized (url : text) : bool :=
  LIKE url "%_thumb.webp" || LIKE url "%_small.webp" ||
  LIKE url "%_medium.webp" || LIKE url "%_large.webp".

(** The order number of the [n]-th suffix of a day. *)
Definition order_number_of_suffix (now : calendar) (n : N) : text :=
  "ORD-" ++ TO_CHAR_YYYYMMDD now ++ "-" ++ LPAD (N_to_text n) 4 "0".


(** The whole number [ROUND] picks for a scaled value: the nearest one,
    ties away from zero. *)
Definition nearest (y : Q) : Z :=
  if Qle_bool 0 y then Qfloor (y + (1 # 2)) else (- Qfloor (- y + (1 # 2)))%Z.


(** ** Further vocabulary: row level security *)

(** The commands for which the dump gives a table a policy that can hold. *)
Definition open_command (t : table) (c : command) : bool :=
  match t, c with
  | t_profiles, (SELECT | INSERT | UPDATE)
  | t_listings, _
  | t_shopping_carts, (SELECT | INSERT | UPDATE)
  | t_orders, (SELECT | INSERT | UPDATE)
  | t_profile_setup_progress, (SELECT | INSERT | UPDATE)
  | t_brand_verification_requests, (SELECT | INSERT | UPDATE)
  | t_social_media_accounts, _
  | t_admin_approvals, (SELECT | INSERT)
  | t_seller_payouts, SELECT
  | t_shipping_events, SELECT
  | t_admin_audit_log, SELECT
  | t_refund_requests, (SELECT | INSERT | UPDATE) => true
  | _, _ => false
  end.

(** Principal 9, an admin, is also buyer and seller of order 500. *)
Definition db_all_roles : db :=
  {| auth_users := []; profiles := [sample_profile 9%N "ada" role_admin];
     profile_setup_progress := []; shopping_carts := []; cart_items := [];
     orders := [{| o_id := 500%N; o_buyer_id := 9%N; o_seller_id := 9%N;
                   o_status := pending_payment; o_updated_at := None;
                   o_cancelled_at := None |}];
     user_follows := []; user_stats_summary := [] |}.

(** A row that names principal 9 in every owner column. *)
Definition row_of_nine : row :=
  [("id", Uuid 9%N); ("user_id", Uuid 9%N); ("seller_id", Uuid 9%N);
   ("buyer_id", Uuid 9%N); ("requested_by", Uuid 9%N);
   ("order_id", Uuid 500%N); ("status", Text "active");
   ("verification_status", Text "pending")].

(** A profile row of principal 7, and the same row asking for more. *)
Definition profile_row_of_seven : row :=
  [("id", Uuid 7%N); ("username", Text "sev"); ("role", Text "user");
   ("updated_at", Time 0%Z)].

Definition make_admin (r : row) : row := set_col "role" (Text "admin") r.

(** A brand verification request of principal 7. *)
Definition brand_request_of_seven (status : text) : row :=
  [("id", Uuid 40%N); ("user_id", Uuid 7%N); ("brand_name", Text "Sev");
   ("verification_status", Text status)].


(** ** Further vocabulary: the bootstrap *)

(** A [VARCHAR(n)] column takes the value: it has [n] characters at most,
    or nothing but spaces after them. *)
Definition fits (n : nat) (s : text) : bool :=
  (CHAR_LENGTH s <=? n)%nat || all_spaces (drop (bytes_of_chars n s) s).

Definition username_taken (name : text) (d : db) : bool :=
  existsb (fun r => p_username r =? name) (profiles d).

(** Everything [create_principal] needs of the principal, of the id drawn
    for the cart and of the database. *)
Definition bootstrap_ready `{Locale} (u : auth_user) (fresh_cart_id : uuid)
  (d : db) : bool :=
  negb (known_principal (au_id u) d) &&
  match au_email u with
  | Some e =>
      fits 255 e && fits 30 (default_username e) &&
      negb (username_taken (first_chars 30 (default_username e)) d)
  | None => false
  end &&
  negb (profile_exists (au_id u) d) &&
  negb (cart_exists fresh_cart_id d) &&
  negb (existsb (fun r => N.eqb (sc_user_id r) (au_id u)) (shopping_carts d)) &&
  negb (existsb (fun r => N.eqb (us_user_id r) (au_id u)) (user_stats_summary d)).

(** The database a bootstrap leaves. *)
Definition bootstrapped `{Locale} (u : auth_user) (e : text)
  (fresh_cart_id : uuid) (now : timestamptz) (d : db) : db :=
  with_user_stats_summary (append_row (zeroed_stats (au_id u) now))
    (with_shopping_carts (append_row (new_cart fresh_cart_id (au_id u) now))
       (with_profiles
          (append_row (default_profile (au_id u) (first_chars 255 e)
                         (first_chars 30 (default_username e)) now))
          (with_auth_users (append_row u) d))).

(** [s] has no upper-case letter of ASCII. *)
Fixpoint without_upper (s : text) : bool :=
  match s with
  | EmptyString => true
  | String c s' => negb (is_upper c) && without_upper s'
  end.


(** ** Further vocabulary: setup completion *)

(** Between [d] and [d'] every profile stayed in place, none lost
    [setup_completed], and those of users other than [u] did not change. *)
Definition keeps_completion (u : uuid) (d d' : db) : Prop :=
  Forall2 (fun p p' =>
             p_id p' = p_id p /\
             (p_setup_completed p = Some true -> p_setup_completed p' = Some true) /\
             (p_id p <> u -> p' = p))
          (profiles d) (profiles d').


(** ** Further vocabulary: promotion *)

(** The approval row a promotion logs. *)
Definition promotion_record (id target admin : uuid) (user_email : text)
  (now : timestamptz) : admin_approval :=
  {| aa_id := id; aa_request_type := "user_promotion";
     aa_request_id := target; aa_admin_id := admin;
     aa_action := "approve"; aa_notes := Some "Promoted to admin role";
     aa_metadata := [("email", user_email); ("role", "admin")];
     aa_created_at := Some now |}.

(** The database after a promotion. *)
Definition promoted (target admin fresh_id : uuid) (user_email : text)
  (now : timestamptz) (s : admin_db) : admin_db :=
  with_admin_approvals (append_row (promotion_record fresh_id target admin user_email now))
    (with_base (with_profiles (map (fun r =>
       if N.eqb (p_id r) target
       then update_updated_at_column now (set_role_admin r)
       else r))) s).

Definition approval_exists (id : uuid) (s : admin_db) : bool :=
  existsb (fun r => N.eqb (aa_id r) id) (admin_approvals s).

(** Two principals with their profiles, neither an admin, and no approval
    yet. *)
Definition db_two_users : admin_db :=
  {| base :=
       with_profiles (fun _ => [sample_profile 1%N "bea" role_user;
                                sample_profile 2%N "sam" role_user])
         (with_auth_users
            (fun _ => [{| au_id := 1%N; au_email := Some "bea@example.com" |};
                       {| au_id := 2%N; au_email := Some "sam@example.com" |}])
            empty_db);
     admin_approvals := [] |}.


(** ** Further vocabulary: the form *)

Definition sample_form (kind : account_type) (name : text) : register_form :=
  {| email := units_of_text "bea@example.com";
     password := units_of_text "correct horse";
     confirmPassword := units_of_text "correct horse";
     username := units_of_text "bea_stone";
     fullName := [];
     agreedToTerms := true;
     accountType := kind;
     brandName := units_of_text name;
     brandCategory := units_of_text "shoes";
     brandWebsite := [] |}.

(** Stand-ins for the two library checks, for the sample forms. *)
Definition has_at (s : jsstring) : bool := existsb (N.eqb 64) s.
Definition any_url (s : jsstring) : bool := true.

End Preds.

Import Preds.

(* ===================================================================== *)
(** * Properties *)
(* ===================================================================== *)

Local Open Scope string_scope.

(** ** Text patterns and replacement *)

Section TextFacts.

Lemma like_literal p : literal p = true ->
  forall s, like_pattern p s = true <-> s = p.
Proof.
  induction p as [|c p IH]; simpl; intros Hl s.
  - destruct s; simpl; split; congruence.
  - apply andb_true_iff in Hl as [Hc Hp].
    apply andb_true_iff in Hc as [H1 H2].
    apply negb_true_iff in H1, H2. rewrite H1, H2.
    destruct s as [|d s]; [split; discriminate|].
    rewrite andb_true_iff, Ascii.eqb_eq, (IH Hp). split.
    + intros [-> ->]. reflexivity.
    + intros [= -> ->]. split; reflexivity.
Qed.

Lemma like_percent p s :
  like_pattern (String "%" p) s = true <->
  exists a b, s = a ++ b /\ like_pattern p b = true.
Proof.
  change (like_pattern (String "%" p)) with
    (fix any (s : text) : bool :=
       like_pattern p s ||
       match s with EmptyString => false | String _ s' => any s' end).
  induction s as [|c s IH].
  - rewrite orb_false_r. split.
    + intros H. exists "", "". split; [reflexivity | exact H].
    + intros (a & b & Hs & Hb). destruct a; [|discriminate].
      simpl in Hs. subst b. exact Hb.
  - rewrite orb_true_iff, IH. split.
    + intros [H | (a & b & Hs & Hb)].
      * exists "", (String c s). split; [reflexivity | exact H].
      * exists (String c a), b. split; [simpl; congruence | exact Hb].
    + intros (a & b & Hs & Hb). destruct a as [|c' a].
      * left. simpl in Hs. subst b. exact Hb.
      * right. injection Hs as -> ->. exists a, b. split; [reflexivity | exact Hb].
Qed.

Lemma like_underscore p s :
  like_pattern (String "_" p) s = true <->
  exists c s', s = String c s' /\ like_pattern p s' = true.
Proof.
  simpl. destruct s as [|c s].
  - split; [discriminate | intros (? & ? & [=] & _)].
  - split.
    + intros H. exists c, s. split; [reflexivity | exact H].
    + intros (c' & s' & [= -> ->] & H). exact H.
Qed.

(** [s LIKE '%<tail>'] for a literal tail: [s] ends with it. *)
Lemma like_percent_literal tail s : literal tail = true ->
  LIKE s (String "%" tail) = true <-> ends_with s tail.
Proof.
  intros Hl. unfold LIKE, ends_with. rewrite like_percent. split.
  - intros (a & b & -> & Hb). apply (like_literal _ Hl) in Hb. subst b. now exists a.
  - intros (a & ->). exists a, tail. split; [reflexivity|]. now apply like_literal.
Qed.

(** [s LIKE '%_<tail>'] for a literal tail: [s] ends with the tail, and a
    character stands before it. *)
Lemma like_percent_underscore_literal tail s : literal tail = true ->
  LIKE s (String "%" (String "_" tail)) = true <->
  exists pre c, s = pre ++ String c tail.
Proof.
  intros Hl. unfold LIKE. rewrite like_percent. split.
  - intros (a & b & -> & Hb). apply like_underscore in Hb as (c & s' & -> & Hs').
    apply (like_literal _ Hl) in Hs'. subst s'. now exists a, c.
  - intros (a & c & ->). exists a, (String c tail). split; [reflexivity|].
    apply like_underscore. exists c, tail. split; [reflexivity|]. now apply like_literal.
Qed.

Lemma append_assoc (a b c : text) : (a ++ b) ++ c = a ++ (b ++ c).
Proof. induction a as [|x a IH]; simpl; [reflexivity | now rewrite IH]. Qed.

Lemma append_empty_r (a : text) : a ++ "" = a.
Proof. induction a as [|x a IH]; simpl; [reflexivity | now rewrite IH]. Qed.

Lemma length_append (a b : text) : length (a ++ b) = length a + length b.
Proof. induction a as [|x a IH]; simpl; [reflexivity | now rewrite IH]. Qed.

Lemma ends_with_append a s suffix : ends_with s suffix -> ends_with (a ++ s) suffix.
Proof. intros (pre & ->). exists (a ++ pre). now rewrite append_assoc. Qed.

Lemma ends_with_cons c s suffix : ends_with s suffix -> ends_with (String c s) suffix.
Proof. apply (ends_with_append (String c "")). Qed.

(** Two occurrences of [.webp] do not overlap: a string that ends with
    [.webp] and starts with it is [.webp] itself, or still ends with [.webp]
    once the first five characters are removed. *)
Lemma webp_no_overlap s :
  ends_with s ".webp" -> prefix ".webp" s = true ->
  drop 5 s = "" \/ (ends_with (drop 5 s) ".webp" /\ length (drop 5 s) < length s).
Proof.
  intros (pre & ->) Hp. apply prefix_correct in Hp.
  destruct pre as [|c1 [|c2 [|c3 [|c4 [|c5 pre]]]]]; simpl in Hp |- *;
    try congruence.
  - left. reflexivity.
  - right. split; [now exists pre | lia].
Qed.

(** Replacing [.webp] in a string that ends with it gives a string that ends
    with the replacement. *)
Lemma REPLACE_webp_suffix to : forall n s,
  length s <= n -> ends_with s ".webp" ->
  ends_with (REPLACE s ".webp" to) to.
Proof.
  induction n as [|n IH]; intros s Hn Hs.
  - destruct Hs as (pre & ->). destruct pre; simpl in Hn; lia.
  - destruct s as [|c s'].
    + destruct Hs as (pre & Hs). destruct pre; discriminate Hs.
    + rewrite REPLACE_equation_2.
      change (negb (".webp" =? "")) with true. rewrite andb_true_l.
      destruct (prefix ".webp" (String c s')) eqn:Hp.
      * change (drop (Nat.pred (length ".webp")) s') with (drop 5 (String c s')).
        destruct (webp_no_overlap Hs Hp) as [-> | [Hd Hl]].
        -- rewrite REPLACE_equation_1, append_empty_r. now exists "".
        -- apply ends_with_append, IH; [simpl in *; lia | exact Hd].
      * apply ends_with_cons, IH; [simpl in Hn; lia|].
        destruct Hs as (pre & Hs). destruct pre as [|c' pre].
        -- simpl in Hs. rewrite Hs in Hp. discriminate Hp.
        -- injection Hs as _ ->. now exists pre.
Qed.

End TextFacts.

(** ** [get_optimized_image_url] *)

Section ImageUrl.

(** A url that already carries a size suffix comes back as it is. *)
Lemma get_optimized_image_url_sized url size' size :
  recognized_size size' ->
  ends_with url ("_" ++ size' ++ ".webp") ->
  get_optimized_image_url url size = url.
Proof.
  intros Hsz (pre & ->). unfold get_optimized_image_url.
  match goal with |- (if ?b then _ else _) = _ => destruct b eqn:E end;
    [reflexivity | exfalso].
  repeat (apply orb_false_iff in E; destruct E as [E ?]).
  assert (H' : forall tail, literal tail = true ->
            LIKE (pre ++ String "_" tail) (String "%" (String "_" tail)) = true).
  { intros tail Hl. apply like_percent_underscore_literal; [exact Hl|].
    now exists pre, "_"%char. }
  destruct Hsz as [-> | [-> | [-> | ->]]]; simpl append in *.
  - rewrite (H' "thumb.webp" eq_refl) in E. discriminate.
  - rewrite (H' "small.webp" eq_refl) in *. discriminate.
  - rewrite (H' "medium.webp" eq_refl) in *. discriminate.
  - rewrite (H' "large.webp" eq_refl) in *. discriminate.
Qed.

(** The function returns its argument, or a url with the size suffix. *)
Lemma get_optimized_image_url_cases url size :
  get_optimized_image_url url size = url \/
  ends_with (get_optimized_image_url url size) ("_" ++ size ++ ".webp").
Proof.
  unfold get_optimized_image_url.
  match goal with |- (if ?b then _ else _) = _ \/ _ => destruct b end;
    [left; reflexivity|].
  destruct (LIKE url "%.webp") eqn:Hw; [right | left; reflexivity].
  apply (like_percent_literal ".webp" url eq_refl) in Hw.
  apply (REPLACE_webp_suffix _ (n := length url)); [lia | exact Hw].
Qed.

Lemma not_webp_unchanged url size :
  ~ ends_with url ".webp" -> get_optimized_image_url url size = url.
Proof.
  intros Hn. unfold get_optimized_image_url.
  match goal with |- (if ?b then _ else _) = _ => destruct b end; [reflexivity|].
  destruct (LIKE url "%.webp") eqn:Hw; [|reflexivity].
  apply (like_percent_literal ".webp" url eq_refl) in Hw. contradiction.
Qed.

(** C9: for each of the sizes thumb, small, medium and large,
    [get_optimized_image_url] applied twice with that size gives what it
    gives applied once; and a url that does not end in [.webp] is returned
    unchanged. *)
Theorem get_optimized_image_url_idempotent :
  (forall url size, recognized_size size ->
     get_optimized_image_url (get_optimized_image_url url size) size =
     get_optimized_image_url url size) /\
  (forall url size, ~ ends_with url ".webp" ->
     get_optimized_image_url url size = url).
Proof.
  split; [|exact not_webp_unchanged].
  intros url size Hsz.
  destruct (get_optimized_image_url_cases url size) as [H | He].
  - rewrite H. exact H.
  - now apply get_optimized_image_url_sized with (size' := size).
Qed.

Lemma get_optimized_image_url_idempotent_witness :
  (recognized_size "thumb" /\
   get_optimized_image_url
     (get_optimized_image_url "https://cdn.example/a.webp" "thumb") "thumb" =
   get_optimized_image_url "https://cdn.example/a.webp" "thumb") /\
  (~ ends_with "https://cdn.example/a.png" ".webp" /\
   get_optimized_image_url "https://cdn.example/a.png" "thumb" =
   "https://cdn.example/a.png").
Proof.
  assert (Hs : recognized_size "thumb") by (left; reflexivity).
  assert (Hn : ~ ends_with "https://cdn.example/a.png" ".webp").
  { intros H. apply (like_percent_literal ".webp" _ eq_refl) in H. discriminate H. }
  split; split.
  - exact Hs.
  - exact (proj1 get_optimized_image_url_idempotent _ _ Hs).
  - exact Hn.
  - exact (proj2 get_optimized_image_url_idempotent _ _ Hn).
Defined.

End ImageUrl.

(** ** [generate_order_number] *)

(** ** Doubles *)

Section DoublePrecision.

Local Open Scope Q_scope.

Lemma round_half_even_near x :
  x - (1 # 2) <= inject_Z (round_half_even x) <= x + (1 # 2).
Proof.
  unfold round_half_even.
  pose proof (Qfloor_le x) as Hlo. pose proof (Qlt_floor x) as Hhi.
  rewrite inject_Z_plus in Hhi. change (inject_Z 1) with 1 in Hhi.
  destruct (x - inject_Z (Qfloor x) ?= 1 # 2) eqn:C.
  - apply Qeq_alt in C. destruct (Z.even (Qfloor x));
      rewrite ?inject_Z_plus; change (inject_Z 1) with 1; lra.
  - apply Qlt_alt in C. lra.
  - apply Qgt_alt in C. rewrite inject_Z_plus. change (inject_Z 1) with 1. lra.
Qed.

Lemma round_half_even_nonneg x : 0 <= x -> (0 <= round_half_even x)%Z.
Proof.
  intros H. assert (Hf : (0 <= Qfloor x)%Z).
  { change 0%Z with (Qfloor 0). now apply Qfloor_resp_le. }
  unfold round_half_even.
  destruct (x - inject_Z (Qfloor x) ?= 1 # 2); [destruct (Z.even _)| |]; lia.
Qed.

Lemma float8_quantum_pos q : 0 < float8_quantum q.
Proof. apply Qpower_0_lt. reflexivity. Qed.

Lemma float8_near q :
  q - float8_quantum q * (1 # 2) <= float8 q <= q + float8_quantum q * (1 # 2).
Proof.
  unfold float8. pose proof (float8_quantum_pos q) as Hq.
  set (u := float8_quantum q) in *.
  pose proof (round_half_even_near (q / u)) as [Hlo Hhi].
  set (k := inject_Z (round_half_even (q / u))) in *.
  assert (E : q == q / u * u) by (field; lra).
  split.
  - apply Qle_trans with ((q / u - (1 # 2)) * u); [rewrite E at 1; lra|].
    apply Qmult_le_compat_r; lra.
  - apply Qle_trans with ((q / u + (1 # 2)) * u); [|rewrite E at 2; lra].
    apply Qmult_le_compat_r; lra.
Qed.

Lemma float8_nonneg q : 0 <= q -> 0 <= float8 q.
Proof.
  intros H. unfold float8. pose proof (float8_quantum_pos q) as Hq.
  apply Qmult_le_0_compat; [|lra].
  change 0 with (inject_Z 0). rewrite <- Zle_Qle.
  apply round_half_even_nonneg. apply Qle_shift_div_l; lra.
Qed.

Lemma Qabs_pos_id q : 0 <= q -> Qabs q = q.
Proof.
  destruct q as [n d]. unfold Qle, Qabs. simpl. intros H.
  f_equal. apply Z.abs_eq. lia.
Qed.

Lemma binade_eq q q' : q == q' -> binade q = binade q'.
Proof.
  intros E. unfold binade. cbv zeta.
  assert (Ea : Qabs q == Qabs q') by now rewrite E.
  assert (Eb : Qle_bool 1 (Qabs q) = Qle_bool 1 (Qabs q')).
  { destruct (Qle_bool 1 (Qabs q)) eqn:A, (Qle_bool 1 (Qabs q')) eqn:B; try reflexivity.
    - apply Qle_bool_iff in A. rewrite Ea in A. apply Qle_bool_iff in A. congruence.
    - apply Qle_bool_iff in B. rewrite <- Ea in B. apply Qle_bool_iff in B. congruence. }
  rewrite Eb. destruct (Qle_bool 1 (Qabs q')).
  - now rewrite Ea.
  - now rewrite Ea.
Qed.

Lemma pow2_inject (n : Z) : (0 <= n)%Z -> 2 ^ n == inject_Z (2 ^ n).
Proof. intros H. now rewrite Zpower_Qpower. Qed.

(** What stands above a number in its binade. *)
Lemma binade_above q : 0 < q -> q < 2 ^ (binade q + 1).
Proof.
  intros Hq. unfold binade. cbv zeta.
  rewrite (Qabs_pos_id (Qlt_le_weak _ _ Hq)).
  destruct (Qle_bool 1 q) eqn:H1.
  - cbv iota. apply Qle_bool_iff in H1.
    assert (Hf : (1 <= Qfloor q)%Z).
    { change 1%Z with (Qfloor 1). now apply Qfloor_resp_le. }
    pose proof (Z.log2_spec (Qfloor q) ltac:(lia)) as [_ Hs].
    pose proof (Z.log2_nonneg (Qfloor q)) as Hn.
    rewrite (@pow2_inject (Z.log2 (Qfloor q) + 1)) by lia.
    apply Qlt_le_trans with (inject_Z (Qfloor q + 1)); [apply Qlt_floor|].
    rewrite <- Zle_Qle.
    replace (Z.log2 (Qfloor q) + 1)%Z with (Z.succ (Z.log2 (Qfloor q))) by lia.
    lia.
  - cbv iota. assert (Hlt : q < 1).
    { apply Qnot_le_lt. intros H. apply Qle_bool_iff in H. congruence. }
    set (c := Qceiling (/ q)).
    assert (Hinv : 1 < / q) by (apply Qlt_shift_inv_l; lra).
    assert (Hc : (1 < c)%Z).
    { rewrite Zlt_Qlt. apply Qlt_le_trans with (/ q); [exact Hinv | apply Qle_ceiling]. }
    pose proof (Z.log2_up_spec c Hc) as [Hs _].
    pose proof (Z.log2_up_pos c Hc) as Hp.
    set (k := Z.log2_up c) in *.
    assert (Hb : inject_Z (2 ^ Z.pred k) < / q).
    { apply Qle_lt_trans with (inject_Z (c - 1)); [|apply Qceiling_lt].
      rewrite <- Zle_Qle. lia. }
    replace (- k + 1)%Z with (- Z.pred k)%Z by lia.
    rewrite Qpower_opp, (@pow2_inject (Z.pred k)) by lia.
    assert (Hpos : 0 < inject_Z (2 ^ Z.pred k)).
    { change 0 with (inject_Z 0). rewrite <- Zlt_Qlt. apply Z.pow_pos_nonneg; lia. }
    apply Qlt_shift_inv_l; [exact Hpos|].
    assert (Hm : inject_Z (2 ^ Z.pred k) * q < / q * q)
      by (apply Qmult_lt_compat_r; assumption).
    assert (E : / q * q == 1) by (field; lra).
    rewrite E in Hm. lra.
Qed.

Lemma binade_small q : 0 < q -> q < 1 -> (binade q <= -1)%Z.
Proof.
  intros Hq Hlt. unfold binade. cbv zeta.
  rewrite (Qabs_pos_id (Qlt_le_weak _ _ Hq)).
  destruct (Qle_bool 1 q) eqn:H1; [apply Qle_bool_iff in H1; lra|].
  assert (Hinv : 1 < / q) by (apply Qlt_shift_inv_l; lra).
  assert (Hc : (1 < Qceiling (/ q))%Z).
  { rewrite Zlt_Qlt. apply Qlt_le_trans with (/ q); [exact Hinv | apply Qle_ceiling]. }
  pose proof (Z.log2_up_pos _ Hc). lia.
Qed.

Lemma binade_below_2p14 q : 0 <= q -> q < inject_Z (2 ^ 14) -> (binade q <= 13)%Z.
Proof.
  intros Hq Hlt. unfold binade. cbv zeta. rewrite (Qabs_pos_id Hq).
  destruct (Qle_bool 1 q) eqn:H1.
  - apply Qle_bool_iff in H1.
    assert (Hf : (1 <= Qfloor q)%Z).
    { change 1%Z with (Qfloor 1). now apply Qfloor_resp_le. }
    assert (Hlt' : (Qfloor q < 2 ^ 14)%Z).
    { rewrite Zlt_Qlt. apply Qle_lt_trans with q; [apply Qfloor_le | exact Hlt]. }
    apply Z.log2_lt_pow2 in Hlt'; lia.
  - pose proof (Z.log2_up_nonneg (Qceiling (/ q))). lia.
Qed.

Lemma float8_quantum_le q z :
  (binade q <= z)%Z -> (-1022 <= z)%Z -> float8_quantum q <= 2 ^ (z - 52).
Proof.
  intros Hb Hz. unfold float8_quantum.
  apply Qpower_le_compat_l; [lia | discriminate].
Qed.

(** The doubles below 1 end at 1 - 2^-53. *)
Lemma float8_below_one r :
  is_float8 r = true -> 0 <= r -> r < 1 -> r <= 1 - 2 ^ (-53).
Proof.
  intros Hf H0 H1. apply Qeq_bool_iff in Hf.
  destruct (Qlt_le_dec 0 r) as [Hpos|Hle]; [|apply Qle_trans with 0; [exact Hle | discriminate]].
  pose proof (binade_above Hpos) as Hab.
  pose proof (binade_small Hpos H1) as Hb.
  unfold float8 in Hf. unfold float8_quantum in *.
  set (z := (Z.max (binade r) (-1022) - 52)%Z) in *.
  set (k := round_half_even (r / 2 ^ z)) in *.
  assert (Hu : 0 < 2 ^ z) by (apply Qpower_0_lt; reflexivity).
  assert (Hz : 2 ^ z <= 2 ^ (-53)) by (apply Qpower_le_compat_l; [lia | discriminate]).
  assert (Htop : 2 ^ (binade r + 1) <= 2 ^ (z + 53))
    by (apply Qpower_le_compat_l; [lia | discriminate]).
  assert (Esplit : 2 ^ (z + 53) == 2 ^ z * inject_Z (2 ^ 53)).
  { rewrite Qpower_plus by discriminate. now rewrite (@pow2_inject 53). }
  assert (Hk : (k < 2 ^ 53)%Z).
  { rewrite Zlt_Qlt. apply Qnot_le_lt. intros Hge.
    assert (2 ^ z * inject_Z (2 ^ 53) <= inject_Z k * 2 ^ z).
    { rewrite (Qmult_comm (inject_Z k)). apply Qmult_le_l; assumption. }
    lra. }
  assert (Hk' : inject_Z k <= inject_Z (2 ^ 53) - 1).
  { assert (H : (k <= 2 ^ 53 - 1)%Z) by lia.
    rewrite Zle_Qle in H. unfold Z.sub in H. rewrite inject_Z_plus in H. exact H. }
  rewrite <- Hf.
  apply Qle_trans with ((inject_Z (2 ^ 53) - 1) * 2 ^ z).
  - apply Qmult_le_compat_r; lra.
  - apply Qle_trans with ((inject_Z (2 ^ 53) - 1) * 2 ^ (-53)).
    + apply Qmult_le_l; [reflexivity | exact Hz].
    + apply Qle_lteq. right. reflexivity.
Qed.

(** What stands below a number in its binade. *)
Lemma binade_below q : 0 < q -> 2 ^ binade q <= q.
Proof.
  intros Hq. unfold binade. cbv zeta.
  rewrite (Qabs_pos_id (Qlt_le_weak _ _ Hq)).
  destruct (Qle_bool 1 q) eqn:H1.
  - cbv iota. apply Qle_bool_iff in H1.
    assert (Hf : (1 <= Qfloor q)%Z).
    { change 1%Z with (Qfloor 1). now apply Qfloor_resp_le. }
    pose proof (Z.log2_spec (Qfloor q) ltac:(lia)) as [Hs _].
    pose proof (Z.log2_nonneg (Qfloor q)) as Hn.
    rewrite (@pow2_inject (Z.log2 (Qfloor q))) by lia.
    apply Qle_trans with (inject_Z (Qfloor q)); [|apply Qfloor_le].
    now rewrite <- Zle_Qle.
  - cbv iota. assert (Hlt : q < 1).
    { apply Qnot_le_lt. intros H. apply Qle_bool_iff in H. congruence. }
    set (c := Qceiling (/ q)).
    assert (Hinv : 1 < / q) by (apply Qlt_shift_inv_l; lra).
    assert (Hc : (1 < c)%Z).
    { rewrite Zlt_Qlt. apply Qlt_le_trans with (/ q); [exact Hinv | apply Qle_ceiling]. }
    pose proof (Z.log2_up_spec c Hc) as [_ Hs].
    pose proof (Z.log2_up_pos c Hc) as Hp.
    set (k := Z.log2_up c) in *.
    assert (Hb : / q <= inject_Z (2 ^ k)).
    { apply Qle_trans with (inject_Z c); [apply Qle_ceiling|]. now rewrite <- Zle_Qle. }
    rewrite Qpower_opp, (@pow2_inject k) by lia.
    assert (Hpos : 0 < inject_Z (2 ^ k)).
    { change 0 with (inject_Z 0). rewrite <- Zlt_Qlt. apply Z.pow_pos_nonneg; lia. }
    apply Qle_shift_inv_r; [exact Hpos|].
    assert (Hm : / q * q <= inject_Z (2 ^ k) * q)
      by (apply Qmult_le_compat_r; [exact Hb | lra]).
    assert (E : / q * q == 1) by (field; lra).
    rewrite E in Hm. lra.
Qed.

(** Rounding picks a nearest whole number. *)
Lemma round_half_even_nearest x (j : Z) :
  Qabs (inject_Z (round_half_even x) - x) <= Qabs (inject_Z j - x).
Proof.
  pose proof (Qfloor_le x) as Hlo. pose proof (Qlt_floor x) as Hhi.
  rewrite inject_Z_plus in Hhi. change (inject_Z 1) with 1 in Hhi.
  assert (Hj : inject_Z j <= inject_Z (Qfloor x) \/ inject_Z (Qfloor x) + 1 <= inject_Z j).
  { destruct (Z_le_gt_dec j (Qfloor x)) as [H|H].
    - left. now rewrite <- Zle_Qle.
    - right. assert (H' : (Qfloor x + 1 <= j)%Z) by lia.
      rewrite Zle_Qle, inject_Z_plus in H'. exact H'. }
  unfold round_half_even.
  destruct (x - inject_Z (Qfloor x) ?= 1 # 2) eqn:C.
  - apply Qeq_alt in C.
    destruct (Z.even (Qfloor x)); rewrite ?inject_Z_plus; change (inject_Z 1) with 1;
      apply Qabs_case; intros; apply Qabs_case; intros; destruct Hj; lra.
  - apply Qlt_alt in C.
    apply Qabs_case; intros; apply Qabs_case; intros; destruct Hj; lra.
  - apply Qgt_alt in C. rewrite inject_Z_plus. change (inject_Z 1) with 1.
    apply Qabs_case; intros; apply Qabs_case; intros; destruct Hj; lra.
Qed.

Lemma pow2_pos (n : Z) : 0 < 2 ^ n.
Proof. apply Qpower_0_lt. reflexivity. Qed.

Lemma pow2_plus (a b : Z) : 2 ^ (a + b) == 2 ^ a * 2 ^ b.
Proof. apply Qpower_plus. discriminate. Qed.

Lemma pow2_split (e z : Z) : (z <= e)%Z -> 2 ^ e == inject_Z (2 ^ (e - z)) * 2 ^ z.
Proof.
  intros H. rewrite <- (@pow2_inject (e - z)) by lia.
  rewrite <- pow2_plus. now replace (e - z + z)%Z with e by lia.
Qed.

Lemma pow2_le (e z : Z) : (z <= e)%Z -> 2 ^ z <= 2 ^ e.
Proof.
  intros H. rewrite (pow2_split H).
  assert (H1 : 1 <= inject_Z (2 ^ (e - z))).
  { change 1 with (inject_Z 1). rewrite <- Zle_Qle.
    pose proof (Z.pow_pos_nonneg 2 (e - z)). lia. }
  pose proof (pow2_pos z) as Hp.
  apply Qle_trans with (1 * 2 ^ z); [lra|].
  apply Qmult_le_compat_r; lra.
Qed.

(** No whole multiple of the quantum is nearer than the rounded value. *)
Lemma float8_nearest_multiple q (j : Z) :
  Qabs (float8 q - q) <= Qabs (inject_Z j * float8_quantum q - q).
Proof.
  unfold float8. pose proof (float8_quantum_pos q) as Hu.
  set (u := float8_quantum q) in *.
  pose proof (round_half_even_nearest (q / u) j) as H.
  set (k := inject_Z (round_half_even (q / u))) in *.
  assert (E1 : k * u - q == (k - q / u) * u) by (field; lra).
  assert (E2 : inject_Z j * u - q == (inject_Z j - q / u) * u) by (field; lra).
  rewrite E1, E2, !Qabs_Qmult, (Qabs_pos_id (Qlt_le_weak _ _ Hu)).
  apply Qmult_le_compat_r; lra.
Qed.

(** A positive number rounds to a nearest double. *)
Lemma float8_nearest q d : 0 < q -> double d -> Qabs (float8 q - q) <= Qabs (d - q).
Proof.
  intros Hq (m & e & Hm & He & Ed).
  set (z := (Z.max (binade q) (-1022) - 52)%Z).
  assert (Eu : float8_quantum q = 2 ^ z) by reflexivity.
  destruct (Z_le_gt_dec z e) as [Hz|Hz].
  - pose proof (float8_nearest_multiple q (m * 2 ^ (e - z))) as H.
    rewrite Eu in H.
    assert (E : d == inject_Z (m * 2 ^ (e - z)) * 2 ^ z).
    { rewrite Ed, inject_Z_mult, (pow2_split Hz). ring. }
    now rewrite E.
  - assert (Hb : z = (binade q - 52)%Z) by lia.
    pose proof (float8_nearest_multiple q (2 ^ 52)) as H.
    rewrite Eu in H.
    assert (E52 : inject_Z (2 ^ 52) * 2 ^ z == 2 ^ binade q).
    { rewrite <- (@pow2_inject 52) by lia. rewrite <- pow2_plus.
      now replace (52 + z)%Z with (binade q) by lia. }
    rewrite E52 in H.
    pose proof (binade_below Hq) as Hlo.
    assert (Hd : d < 2 ^ binade q).
    { rewrite Ed.
      apply Qle_lt_trans with (inject_Z (Z.abs m) * 2 ^ e).
      { apply Qmult_le_compat_r; [|apply Qlt_le_weak, pow2_pos].
        rewrite <- Zle_Qle. lia. }
      apply Qlt_le_trans with (inject_Z (2 ^ 53) * 2 ^ e).
      { apply Qmult_lt_compat_r; [apply pow2_pos|]. now rewrite <- Zlt_Qlt. }
      rewrite <- (@pow2_inject 53) by lia. rewrite <- pow2_plus.
      apply pow2_le. lia. }
    rewrite (Qabs_neg (2 ^ binade q - q)) in H by lra.
    rewrite (Qabs_neg (d - q)) by lra. lra.
Qed.

Lemma float8_zero q : q == 0 -> float8 q == 0.
Proof.
  intros E. unfold float8. pose proof (float8_quantum_pos q) as Hu.
  set (u := float8_quantum q) in *.
  pose proof (round_half_even_near (q / u)) as [Hlo Hhi].
  assert (E0 : q / u == 0) by (rewrite E; field; lra).
  set (k := round_half_even (q / u)) in *.
  assert (Hk : k = 0%Z).
  { assert (H1 : (-1 < k)%Z) by (rewrite Zlt_Qlt; change (inject_Z (-1)) with (-1); lra).
    assert (H2 : (k < 1)%Z) by (rewrite Zlt_Qlt; change (inject_Z 1) with 1; lra).
    lia. }
  rewrite Hk. change (inject_Z 0) with 0. ring.
Qed.

(** What a number that is not negative rounds to is a double. *)
Lemma float8_double q : 0 <= q -> double (float8 q).
Proof.
  intros Hq. destruct (Qlt_le_dec 0 q) as [Hpos|Hz].
  2:{ exists 0%Z, 0%Z. repeat split; try lia.
      rewrite float8_zero by lra. change (inject_Z 0) with 0. ring. }
  set (z := (Z.max (binade q) (-1022) - 52)%Z).
  assert (Eu : float8_quantum q = 2 ^ z) by reflexivity.
  unfold float8. rewrite Eu.
  pose proof (pow2_pos z) as Hu.
  pose proof (round_half_even_near (q / 2 ^ z)) as [_ Hhi].
  assert (H0 : (0 <= round_half_even (q / 2 ^ z))%Z).
  { apply round_half_even_nonneg. apply Qle_shift_div_l; lra. }
  assert (Hx : q / 2 ^ z < inject_Z (2 ^ 53)).
  { apply Qlt_shift_div_r; [exact Hu|].
    apply Qlt_le_trans with (2 ^ (binade q + 1)); [now apply binade_above|].
    rewrite <- (@pow2_inject 53) by lia. rewrite <- pow2_plus.
    apply pow2_le. lia. }
  set (k := round_half_even (q / 2 ^ z)) in *.
  assert (Hk : (k <= 2 ^ 53)%Z).
  { assert (H : (k < 2 ^ 53 + 1)%Z).
    { rewrite Zlt_Qlt, inject_Z_plus. change (inject_Z 1) with 1. lra. }
    lia. }
  destruct (Z.eq_dec k (2 ^ 53)) as [E|N].
  - exists (2 ^ 52)%Z, (z + 1)%Z. repeat split; try lia.
    rewrite E, (Z.add_comm z 1), pow2_plus.
    change (2 ^ 1) with 2. rewrite <- !pow2_inject by lia. 
    change (2 ^ 53) with (2 * 2 ^ 52). ring.
  - exists k, z. repeat split; lia.
Qed.

(** Rounding gives a nearest double. *)
Lemma float8_nearest_double q : 0 <= q -> nearest_double q (float8 q).
Proof.
  intros Hq. split; [now apply float8_double|].
  intros d Hd. destruct (Qlt_le_dec 0 q) as [Hpos|Hz].
  - now apply float8_nearest.
  - assert (E : float8 q - q == 0) by (rewrite float8_zero; lra).
    rewrite E. apply Qabs_nonneg.
Qed.

(** The largest double below one. *)
Lemma double_below_one r : double r -> r < 1 -> r <= 1 - 2 ^ (-53).
Proof.
  intros (m & e & Hm & He & Er) H1.
  destruct (Z_le_gt_dec (-53) e) as [Hz|Hz].
  - assert (E : r == inject_Z (m * 2 ^ (e + 53)) * 2 ^ (-53)).
    { rewrite Er, inject_Z_mult, (@pow2_split e (-53)) by lia.
      replace (e - -53)%Z with (e + 53)%Z by lia. ring. }
    assert (Hlt : (m * 2 ^ (e + 53) < 2 ^ 53)%Z).
    { rewrite Zlt_Qlt.
      assert (Hp : inject_Z (m * 2 ^ (e + 53)) == r * inject_Z (2 ^ 53)).
      { rewrite E. change (2 ^ (-53)) with (/ inject_Z (2 ^ 53)). field. discriminate. }
      rewrite Hp. apply Qlt_le_trans with (1 * inject_Z (2 ^ 53)); [|lra].
      apply Qmult_lt_compat_r; [reflexivity | exact H1]. }
    rewrite E.
    apply Qle_trans with (inject_Z (2 ^ 53 - 1) * 2 ^ (-53)).
    + apply Qmult_le_compat_r; [|discriminate]. rewrite <- Zle_Qle. lia.
    + vm_compute. discriminate.
  - rewrite Er.
    apply Qle_trans with (inject_Z (Z.abs m) * 2 ^ e).
    { apply Qmult_le_compat_r; [|apply Qlt_le_weak, pow2_pos]. rewrite <- Zle_Qle. lia. }
    apply Qle_trans with (inject_Z (2 ^ 53) * 2 ^ e).
    { apply Qmult_le_compat_r; [|apply Qlt_le_weak, pow2_pos]. rewrite <- Zle_Qle. lia. }
    apply Qle_trans with (inject_Z (2 ^ 53) * 2 ^ (-54)).
    { apply Qmult_le_l; [reflexivity|]. apply pow2_le. lia. }
    vm_compute. discriminate.
Qed.

(** The doubles that are not negative are the numbers rounding leaves
    as they are. *)
Lemma is_float8_iff q : 0 <= q -> is_float8 q = true <-> double q.
Proof.
  intros Hq. unfold is_float8. rewrite Qeq_bool_iff. split.
  - intros E. destruct (float8_double Hq) as (m & e & Hm & He & Ed).
    exists m, e. repeat split; try assumption. now rewrite <- E.
  - intros Hd. destruct (float8_nearest_double Hq) as [_ Hn].
    specialize (Hn q Hd).
    assert (E0 : q - q == 0) by ring.
    rewrite E0 in Hn. change (Qabs 0) with 0 in Hn.
    revert Hn. apply Qabs_case; intros; lra.
Qed.

(** [FLOOR] of a number that is not negative is the whole number at or
    just below it. *)
Lemma FLOOR_spec q :
  0 <= q -> inject_Z (Z.of_N (FLOOR q)) <= q < inject_Z (Z.of_N (FLOOR q)) + 1.
Proof.
  intros Hq. unfold FLOOR.
  assert (Hlo : (0 <= Qfloor q)%Z).
  { change 0%Z with (Qfloor 0). now apply Qfloor_resp_le. }
  rewrite Z2N.id by exact Hlo. split; [apply Qfloor_le|].
  pose proof (Qlt_floor q) as H. rewrite inject_Z_plus in H. exact H.
Qed.

Lemma FLOOR_below q (n : Z) : 0 <= q -> q < inject_Z n -> (FLOOR q < Z.to_N n)%N.
Proof.
  intros H0 Hn. unfold FLOOR.
  assert (Hlo : (0 <= Qfloor q)%Z).
  { change 0%Z with (Qfloor 0). now apply Qfloor_resp_le. }
  assert (Hhi : (Qfloor q < n)%Z).
  { rewrite Zlt_Qlt. apply Qle_lt_trans with q; [apply Qfloor_le | exact Hn]. }
  lia.
Qed.

(** The product of a draw and 10000 stays within half a step of the exact
    product, a step being 2^-39 at most. *)
Lemma float8mul_random_near r :
  0 <= r -> r < 1 ->
  0 <= float8mul r 10000 <= r * 10000 + 2 ^ (-40).
Proof.
  intros H0 H1. unfold float8mul.
  assert (Hq0 : 0 <= r * 10000) by lra.
  assert (Hq1 : r * 10000 < inject_Z (2 ^ 14)).
  { apply Qlt_le_trans with 10000; [lra | discriminate]. }
  split; [now apply float8_nonneg|].
  pose proof (float8_near (r * 10000)) as [_ Hhi].
  pose proof (@float8_quantum_le (r * 10000) 13
                (binade_below_2p14 Hq0 Hq1) ltac:(lia)) as Hu.
  change (13 - 52)%Z with (-39)%Z in Hu.
  assert (E : 2 ^ (-39) * (1 # 2) == 2 ^ (-40)) by reflexivity.
  apply Qle_trans with (1 := Hhi). rewrite <- E.
  apply Qplus_le_r. apply Qmult_le_compat_r; [exact Hu | discriminate].
Qed.

(** [FLOOR(RANDOM() * 10000)] is one of 0, ..., 9999. *)
Lemma FLOOR_random_top (random : Q) :
  0 <= random -> random <= 1 - 2 ^ (-53) ->
  (FLOOR (float8mul random 10000) <= 9999)%N.
Proof.
  intros H0 Htop.
  assert (H1 : random < 1).
  { apply Qle_lt_trans with (1 := Htop). reflexivity. }
  destruct (float8mul_random_near H0 H1) as [Hlo Hhi].
  assert (H : (FLOOR (float8mul random 10000) < Z.to_N 10000)%N).
  { apply FLOOR_below; [exact Hlo|].
    apply Qle_lt_trans with (1 := Hhi).
    apply Qle_lt_trans with ((1 - 2 ^ (-53)) * 10000 + 2 ^ (-40)).
    - apply Qplus_le_l. apply Qmult_le_compat_r; [exact Htop | discriminate].
    - reflexivity. }
  change (Z.to_N 10000) with 10000%N in H. lia.
Qed.

Lemma FLOOR_random (random : Q) :
  is_float8 random = true -> 0 <= random -> random < 1 ->
  (FLOOR (float8mul random 10000) <= 9999)%N.
Proof.
  intros Hf H0 H1. apply FLOOR_random_top; [exact H0|].
  now apply float8_below_one.
Qed.

Lemma FLOOR_random_double (random : Q) :
  double random -> 0 <= random -> random < 1 ->
  (FLOOR (float8mul random 10000) <= 9999)%N.
Proof.
  intros Hd H0 H1. apply FLOOR_random_top; [exact H0|].
  now apply double_below_one.
Qed.

(** Of a number that is no double the product may round up to 10000. *)
Lemma FLOOR_random_any (random : Q) :
  0 <= random -> random < 1 -> (FLOOR (float8mul random 10000) <= 10000)%N.
Proof.
  intros H0 H1.
  destruct (float8mul_random_near H0 H1) as [Hlo Hhi].
  assert (H : (FLOOR (float8mul random 10000) < Z.to_N 10001)%N).
  { apply FLOOR_below; [exact Hlo|].
    apply Qle_lt_trans with (1 := Hhi).
    apply Qlt_le_trans with (10000 + 2 ^ (-40)); [|discriminate].
    apply Qplus_lt_l. lra. }
  change (Z.to_N 10001) with 10001%N in H. lia.
Qed.

End DoublePrecision.

Section OrderNumber.

(** A property checked on every number below a bound holds of each. *)
Lemma below_pow2 (k : nat) : forall (P : N -> bool),
  all_below_pow2 k P = true -> forall n, (n < 2 ^ N.of_nat k)%N -> P n = true.
Proof.
  induction k as [|k IH]; intros P H n Hn.
  - cbn [all_below_pow2] in H. change (2 ^ N.of_nat 0)%N with 1%N in Hn.
    replace n with 0%N by lia. exact H.
  - cbn [all_below_pow2] in H. apply andb_true_iff in H as [He Ho].
    rewrite Nat2N.inj_succ, N.pow_succ_r' in Hn.
    pose proof (N.div2_odd n) as E.
    assert (Hq : (N.div2 n < 2 ^ N.of_nat k)%N).
    { destruct (N.odd n); cbn [N.b2n] in E; lia. }
    rewrite E. destruct (N.odd n); cbn [N.b2n].
    + exact (IH _ Ho _ Hq).
    + rewrite N.add_0_r. exact (IH _ He _ Hq).
Qed.

Lemma below_bound (P : N -> bool) (bound : N) (k : nat) :
  all_below_pow2 k (fun n => (bound <=? n)%N || P n) = true ->
  (bound <= 2 ^ N.of_nat k)%N ->
  forall n, (n < bound)%N -> P n = true.
Proof.
  intros H Hk n Hn.
  pose proof (@below_pow2 k _ H n ltac:(lia)) as Hp. cbv beta in Hp.
  destruct (N.leb_spec bound n); [lia | exact Hp].
Qed.

Lemma zero_padded_4 n : (n <= 9999)%N -> writes 4 n (zero_padded 4 n) = true.
Proof.
  intros H.
  apply (@below_bound (fun n => writes 4 n (zero_padded 4 n)) 10000 14);
    [vm_compute; reflexivity | change (2 ^ N.of_nat 14)%N with 16384%N; lia | lia].
Qed.

Lemma zero_padded_2 n : (n <= 99)%N -> writes 2 n (zero_padded 2 n) = true.
Proof.
  intros H.
  apply (@below_bound (fun n => writes 2 n (zero_padded 2 n)) 100 7);
    [vm_compute; reflexivity | change (2 ^ N.of_nat 7)%N with 128%N; lia | lia].
Qed.

Lemma LPAD_4 n : (n <= 9999)%N -> writes 4 n (LPAD (N_to_text n) 4 "0") = true.
Proof.
  intros H.
  apply (@below_bound (fun n => writes 4 n (LPAD (N_to_text n) 4 "0")) 10000 14);
    [vm_compute; reflexivity | change (2 ^ N.of_nat 14)%N with 16384%N; lia | lia].
Qed.

Lemma writes_spec w n s : writes w n s = true ->
  length s = w /\ all_digits s = true /\ digits_value s = n.
Proof.
  unfold writes. rewrite !andb_true_iff, Nat.eqb_eq, N.eqb_eq. tauto.
Qed.

(** C5: an order number is [ORD-], the eight digits of the date (four of
    the year, two of the month, two of the day), a hyphen and four decimal
    digits, whatever is drawn; of a draw that is a double, as [RANDOM()]
    gives them, the four digits write the floor of its product with
    10000. *)
Theorem generate_order_number_format (now : calendar) (random : Q) :
  valid_calendar now -> (0 <= random)%Q -> (random < 1)%Q ->
  exists yyyy mm dd nnnn,
    generate_order_number now random =
      "ORD-" ++ (yyyy ++ mm ++ dd) ++ "-" ++ nnnn /\
    (length yyyy = 4 /\ all_digits yyyy = true /\ digits_value yyyy = cal_year now) /\
    (length mm = 2 /\ all_digits mm = true /\ digits_value mm = cal_month now) /\
    (length dd = 2 /\ all_digits dd = true /\ digits_value dd = cal_day now) /\
    (length nnnn = 4 /\ all_digits nnnn = true /\
     (is_float8 random = true ->
      digits_value nnnn = FLOOR (float8mul random 10000))).
Proof.
  intros (Hy & Hm & Hd) H0 H1.
  exists (zero_padded 4 (cal_year now)), (zero_padded 2 (cal_month now)),
         (zero_padded 2 (cal_day now)),
         (LPAD (N_to_text (FLOOR (float8mul random 10000))) 4 "0").
  split; [reflexivity|].
  split; [apply writes_spec, zero_padded_4; lia|].
  split; [apply writes_spec, zero_padded_2; lia|].
  split; [apply writes_spec, zero_padded_2; lia|].
  pose proof (FLOOR_random_any H0 H1) as Hn.
  destruct (N.eq_dec (FLOOR (float8mul random 10000)) 10000) as [E|Hne].
  - split; [now rewrite E|]. split; [now rewrite E|].
    intros Hf. pose proof (FLOOR_random Hf H0 H1). lia.
  - assert (Hle : (FLOOR (float8mul random 10000) <= 9999)%N) by lia.
    destruct (writes_spec _ _ _ (LPAD_4 Hle)) as (Hl & Ha & Hv). auto.
Qed.

Lemma generate_order_number_format_witness :
  let now := {| cal_year := 2025; cal_month := 3; cal_day := 9 |} in
  (valid_calendar now /\ (0 <= 175 # 4096)%Q /\ (175 # 4096 < 1)%Q) /\
  exists yyyy mm dd nnnn,
    generate_order_number now (175 # 4096) =
      "ORD-" ++ (yyyy ++ mm ++ dd) ++ "-" ++ nnnn /\
    (length yyyy = 4 /\ all_digits yyyy = true /\ digits_value yyyy = cal_year now) /\
    (length mm = 2 /\ all_digits mm = true /\ digits_value mm = cal_month now) /\
    (length dd = 2 /\ all_digits dd = true /\ digits_value dd = cal_day now) /\
    (length nnnn = 4 /\ all_digits nnnn = true /\
     (is_float8 (175 # 4096) = true ->
      digits_value nnnn = FLOOR (float8mul (175 # 4096) 10000))).
Proof.
  intros now.
  assert (Hc : valid_calendar now) by (unfold valid_calendar, now; simpl; lia).
  assert (H0 : (0 <= 175 # 4096)%Q) by (unfold Qle; simpl; lia).
  assert (H1 : (175 # 4096 < 1)%Q) by (unfold Qlt; simpl; lia).
  split; [exact (conj Hc (conj H0 H1))|].
  exact (generate_order_number_format Hc H0 H1).
Defined.

(** The draw 175/4096, a double: 427.24609375 when multiplied. *)
Example generate_order_number_example :
  is_float8 (175 # 4096) = true /\
  generate_order_number {| cal_year := 2025; cal_month := 3; cal_day := 9 |}
                        (175 # 4096) = "ORD-20250309-0427".
Proof. split; vm_compute; reflexivity. Qed.

(** The double nearest to 0.0121 lies below it, and so does its exact
    product with 10000 lie below 121; the product of the doubles is 121. *)
Example generate_order_number_rounds :
  let random := (54493555491183 # 4503599627370496)%Q in
  is_float8 random = true /\
  Qfloor (random * 10000) = 120%Z /\
  generate_order_number {| cal_year := 2025; cal_month := 3; cal_day := 9 |}
                        random = "ORD-20250309-0121".
Proof. repeat split; vm_compute; reflexivity. Qed.

End OrderNumber.

(** ** [calculate_platform_fee] *)

Section PlatformFee.

Local Open Scope Q_scope.

(** [k] is [y] rounded to a whole number, ties away from zero. *)
Lemma round_half_away (y : Q) :
  let k := if Qle_bool 0 y then Qfloor (y + (1 # 2)) else (- Qfloor (- y + (1 # 2)))%Z in
  inject_Z k - (1 # 2) <= y /\ y <= inject_Z k + (1 # 2).
Proof.
  destruct (Qle_bool 0 y) eqn:Hs; cbv zeta.
  - pose proof (Qfloor_le (y + (1 # 2))). pose proof (Qlt_floor (y + (1 # 2))) as Hlt.
    rewrite inject_Z_plus in Hlt. change (inject_Z 1) with 1 in Hlt. split; lra.
  - pose proof (Qfloor_le (- y + (1 # 2))). pose proof (Qlt_floor (- y + (1 # 2))) as Hlt.
    rewrite inject_Z_plus in Hlt. change (inject_Z 1) with 1 in Hlt.
    rewrite inject_Z_opp. split; lra.
Qed.

(** [ROUND(x, 2)] is a whole number of hundredths, and one nearest to [x]. *)
Lemma ROUND_2 (x : numeric) :
  exists cents : Z,
    ROUND x 2 == inject_Z cents / 100 /\ Qabs (ROUND x 2 - x) <= 1 # 200.
Proof.
  unfold ROUND. change (inject_Z (10 ^ Z.of_nat 2)) with 100.
  pose proof (round_half_away (x * 100)) as H. cbv zeta in H.
  set (k := if Qle_bool 0 (x * 100) then _ else _) in *.
  exists k. split; [reflexivity|].
  apply Qabs_Qle_condition. destruct H as [Hlo Hhi].
  assert (E : inject_Z k / 100 == inject_Z k * (1 # 100)) by (field).
  rewrite E. split; lra.
Qed.

Lemma ROUND_compat (x y : numeric) (s : nat) : x == y -> ROUND x s == ROUND y s.
Proof.
  intros E. unfold ROUND.
  assert (E' : x * inject_Z (10 ^ Z.of_nat s) == y * inject_Z (10 ^ Z.of_nat s))
    by (rewrite E; reflexivity).
  assert (Eb : Qle_bool 0 (x * inject_Z (10 ^ Z.of_nat s)) =
               Qle_bool 0 (y * inject_Z (10 ^ Z.of_nat s))).
  { destruct (Qle_bool 0 (y * _)) eqn:Hy.
    - apply Qle_bool_iff. rewrite E'. now apply Qle_bool_iff.
    - destruct (Qle_bool 0 (x * _)) eqn:Hx; [|reflexivity].
      apply Qle_bool_iff in Hx. rewrite E' in Hx. apply Qle_bool_iff in Hx. congruence. }
  rewrite Eb. destruct (Qle_bool 0 (y * _)).
  - rewrite (Qfloor_comp _ _ (Qplus_comp _ _ E' _ _ (Qeq_refl _))). reflexivity.
  - rewrite (Qfloor_comp _ _ (Qplus_comp _ _ (Qopp_comp _ _ E') _ _ (Qeq_refl _))).
    reflexivity.
Qed.

(** C6: the platform fee is 5% of the amount rounded to two decimal places:
    a whole number of hundredths within half a hundredth of [amount * 0.05],
    determined by the value of the amount alone. *)
Theorem calculate_platform_fee_pure (amount : numeric) :
  calculate_platform_fee amount = ROUND (amount * (5 # 100)) 2 /\
  (exists cents : Z, calculate_platform_fee amount == inject_Z cents / 100) /\
  Qabs (calculate_platform_fee amount - amount * (5 # 100)) <= 1 # 200 /\
  (forall amount' : numeric,
     amount == amount' ->
     calculate_platform_fee amount == calculate_platform_fee amount').
Proof.
  unfold calculate_platform_fee. split; [reflexivity|].
  destruct (ROUND_2 (amount * (5 # 100))) as (cents & Hc & Hn).
  split; [now exists cents|]. split; [exact Hn|].
  intros amount' E. apply ROUND_compat. rewrite E. reflexivity.
Qed.

Lemma calculate_platform_fee_pure_witness :
  (1999 # 100 == 3998 # 200) /\
  calculate_platform_fee (1999 # 100) == calculate_platform_fee (3998 # 200).
Proof.
  assert (E : 1999 # 100 == 3998 # 200) by reflexivity.
  split; [exact E|].
  exact (proj2 (proj2 (proj2 (calculate_platform_fee_pure (1999 # 100)))) _ E).
Defined.

Example calculate_platform_fee_example :
  calculate_platform_fee (1999 # 100) == 1 # 1 /\
  calculate_platform_fee (10 # 1) == 1 # 2 /\
  calculate_platform_fee (1 # 10) == 1 # 100.
Proof. repeat split; reflexivity. Qed.

End PlatformFee.

(** ** Row level security *)

Section RowLevelSecurity.

(** Unfolds the decision of a command on a table down to the expressions of
    the policies that apply. *)
Ltac policies_of_table :=
  cbv [permits rls_select rls_insert rls_delete using_ok check_ok
       policies_for policies filter existsb
       table_beq applies_to andb
       USING WITH_CHECK USING_WITH_CHECK
       policy_table policy_cmd policy_using policy_with_check
       passes effective_check].

Lemma policy_count : List.length policies = 35.
Proof. reflexivity. Qed.

(** The subquery on [profiles] that the admin policies share decides whether
    the principal is an admin. *)
Lemma is_true_Some b : is_true (Some b) = b.
Proof. destruct b; reflexivity. Qed.

Lemma existsb_pointwise {A} (f g : A -> bool) l :
  (forall x, f x = g x) -> existsb f l = existsb g l.
Proof.
  intros E. induction l as [|x l IH]; cbn [existsb]; [reflexivity|].
  now rewrite E, IH.
Qed.

Lemma exists_admin_profile_is_admin uid d r :
  is_true (exists_admin_profile uid d r) = principal_is_admin uid d.
Proof.
  unfold exists_admin_profile, sql_exists, principal_is_admin, is_admin.
  rewrite is_true_Some. destruct uid as [u|].
  - apply existsb_pointwise. intros p. simpl.
    destruct (p_role p) as [[]|]; simpl; destruct (N.eqb (p_id p) u); reflexivity.
  - transitivity (existsb (fun _ : profile => false) (profiles d)).
    + apply existsb_pointwise. intros p. simpl.
      destruct (p_role p) as [[]|]; reflexivity.
    + induction (profiles d) as [|p ps IH]; [reflexivity | exact IH].
Qed.

Lemma is_true_sql_or a b : is_true (sql_or a b) = is_true a || is_true b.
Proof. destruct a as [[]|], b as [[]|]; reflexivity. Qed.

Lemma is_true_sql_and a b : is_true (sql_and a b) = is_true a && is_true b.
Proof. destruct a as [[]|], b as [[]|]; reflexivity. Qed.

Lemma is_true_sql_eq_text v s : is_true (sql_eq v (Text s)) = true <-> v = Text s.
Proof.
  destruct v as [|u|s'|t]; simpl; try (split; discriminate).
  destruct (String.eqb_spec s' s) as [->|Hne]; simpl; split; congruence.
Qed.

Lemma is_true_sql_eq_uuid v u : is_true (sql_eq v (Uuid u)) = true <-> v = Uuid u.
Proof.
  destruct v as [|u'|s|t]; simpl; try (split; discriminate).
  destruct (N.eqb_spec u' u) as [->|Hne]; simpl; split; congruence.
Qed.

Lemma sql_in_text v l :
  is_true (sql_in v (map Text l)) = true <-> exists s, v = Text s /\ In s l.
Proof.
  induction l as [|x l IH]; simpl.
  - split; [discriminate | intros (s & _ & [])].
  - rewrite is_true_sql_or, orb_true_iff, is_true_sql_eq_text, IH. split.
    + intros [-> | (s & -> & Hin)]; eauto.
    + intros (s & -> & [-> | Hin]); eauto.
Qed.

(** *** Listings *)

(** C1, as the policy decides it: a listing is returned to a principal
    exactly when its status is active, sold or reserved, whoever the
    principal is. *)
Theorem listings_select_public_only (uid : option uuid) (d : db) (r : row) :
  rls_select uid d t_listings r = true <-> public_status r.
Proof.
  policies_of_table. rewrite orb_false_r.
  change [Text "active"; Text "sold"; Text "reserved"]
    with (map Text ["active"; "sold"; "reserved"]).
  rewrite sql_in_text. unfold public_status. split.
  - intros (s & -> & [<- | [<- | [<- | []]]]); auto.
  - intros [H | [H | H]]; rewrite H; eexists; split; try reflexivity; simpl; auto.
Qed.

(** C1 fails as worded: the seller of a draft listing is not shown it. *)
Lemma listings_select_hides_own_draft :
  ~ listing_visibility_as_specified (Some 7%N) empty_db draft_listing.
Proof.
  unfold listing_visibility_as_specified. intros [_ H].
  assert (Hv : rls_select (Some 7%N) empty_db t_listings draft_listing = true).
  { apply H. right. left. exists 7%N. split; reflexivity. }
  discriminate Hv.
Qed.

(** A draft is not shown to an admin either. *)
Example listings_select_hides_draft_from_admin :
  principal_is_admin (Some 9%N) db_with_admin = true /\
  rls_select (Some 9%N) db_with_admin t_listings draft_listing = false.
Proof. split; reflexivity. Qed.

(** *** Orders *)

Lemma is_true_owns column uid d r u :
  col r column = Uuid u -> is_true (owns column uid d r) = uid_eqb uid u.
Proof.
  unfold owns. intros ->. destruct uid as [x|]; simpl; [|reflexivity].
  apply is_true_Some.
Qed.

Lemma uid_eqb_eq uid u : uid_eqb uid u = true <-> uid = Some u.
Proof.
  destruct uid as [x|]; simpl; [|split; discriminate].
  rewrite N.eqb_eq. split; congruence.
Qed.

Lemma before_paymentb_spec s : before_paymentb s = true <-> before_payment s.
Proof.
  unfold before_payment. destruct s; simpl; split; intuition discriminate.
Qed.

(** The [USING] side of the two update policies of [orders]. *)
Lemma orders_update_using uid d o :
  using_ok uid d t_orders UPDATE (row_of_order o) =
  uid_eqb uid (o_buyer_id o) && before_paymentb (o_status o) ||
  uid_eqb uid (o_seller_id o).
Proof.
  policies_of_table. rewrite orb_false_r, is_true_sql_and.
  rewrite (is_true_owns "buyer_id" uid d (row_of_order o) (u := o_buyer_id o) eq_refl).
  rewrite (is_true_owns "seller_id" uid d (row_of_order o) (u := o_seller_id o) eq_refl).
  change (col (row_of_order o) "status") with (Text (order_status_label (o_status o))).
  destruct (o_status o); reflexivity.
Qed.

(** The [WITH CHECK] side, on a cancelled order: the buyer's policy checks
    its [USING] expression, which the status [cancelled] fails. *)
Lemma orders_update_check_cancelled uid d now o :
  check_ok uid d t_orders UPDATE
    (update_updated_at_column now (cancel_order now (row_of_order o))) =
  uid_eqb uid (o_seller_id o).
Proof.
  policies_of_table. rewrite orb_false_r, is_true_sql_and.
  set (new := update_updated_at_column now (cancel_order now (row_of_order o))).
  rewrite (is_true_owns "seller_id" uid d new (u := o_seller_id o) eq_refl).
  replace (is_true (sql_in (col new "status")
             [Text "pending_payment"; Text "payment_processing"])) with false
    by reflexivity.
  now rewrite andb_false_r.
Qed.

(** The [SELECT] policy of [orders], on a row of buyer [b] and seller
    [s]. *)
Lemma orders_select uid d r b s :
  col r "buyer_id" = Uuid b -> col r "seller_id" = Uuid s ->
  rls_select uid d t_orders r = uid_eqb uid b || uid_eqb uid s.
Proof.
  intros Hb Hs. policies_of_table. rewrite orb_false_r, is_true_sql_or.
  now rewrite (is_true_owns "buyer_id" uid d r Hb),
              (is_true_owns "seller_id" uid d r Hs).
Qed.

(** Whether the statement reads the order or not, the policies decide a
    cancellation alike: who passes an update policy of [orders] passes its
    [SELECT] policy. *)
Lemma cancellation_cases reads uid d now o :
  cancellation reads uid d now o =
  if uid_eqb uid (o_buyer_id o) && before_paymentb (o_status o) ||
     uid_eqb uid (o_seller_id o)
  then if uid_eqb uid (o_seller_id o)
       then row_updated (update_updated_at_column now (cancel_order now (row_of_order o)))
       else rls_violation
  else row_not_seen.
Proof.
  unfold cancellation, rls_update, select_ok.
  rewrite orders_update_using. change (has_updated_at_trigger t_orders) with true.
  cbv iota zeta. rewrite orders_update_check_cancelled.
  rewrite (@orders_select uid d (row_of_order o) (o_buyer_id o) (o_seller_id o))
    by reflexivity.
  rewrite (@orders_select uid d
             (update_updated_at_column now (cancel_order now (row_of_order o)))
             (o_buyer_id o) (o_seller_id o)) by reflexivity.
  destruct reads, (uid_eqb uid (o_buyer_id o)), (uid_eqb uid (o_seller_id o)),
    (before_paymentb (o_status o)); reflexivity.
Qed.

(** C2, as the update policies of [orders] decide it: a cancellation goes
    through only for the seller of the order, or for its buyer while the
    order is in [pending_payment] or [payment_processing]; and when a
    principal other than the seller cancels a shipped order, the statement
    does not see the row and the order stays as it was. *)
Theorem orders_cancel_guard (reads : bool) (uid : option uuid) (d : db)
  (now : timestamptz) (o : order) :
  (forall new, cancellation reads uid d now o = row_updated new ->
     uid = Some (o_seller_id o) \/
     (uid = Some (o_buyer_id o) /\ before_payment (o_status o))) /\
  (o_status o = shipped -> uid <> Some (o_seller_id o) ->
     cancellation reads uid d now o = row_not_seen /\
     row_after (row_of_order o) (cancellation reads uid d now o) = row_of_order o).
Proof.
  rewrite cancellation_cases. split.
  - intros new H.
    destruct (uid_eqb uid (o_buyer_id o) && before_paymentb (o_status o) ||
              uid_eqb uid (o_seller_id o)) eqn:Hu; [|discriminate H].
    apply orb_true_iff in Hu as [Hb | Hs].
    + right. apply andb_true_iff in Hb as [Hb Hp].
      split; [now apply uid_eqb_eq | now apply before_paymentb_spec].
    + left. now apply uid_eqb_eq.
  - intros Hst Hne.
    assert (Hs : uid_eqb uid (o_seller_id o) = false).
    { destruct (uid_eqb uid (o_seller_id o)) eqn:E; [|reflexivity].
      apply uid_eqb_eq in E. contradiction. }
    rewrite Hs, Hst. simpl. rewrite andb_false_r. split; reflexivity.
Qed.

Lemma orders_cancel_guard_witness :
  (o_status (sample_order shipped) = shipped /\
   Some 1%N <> Some (o_seller_id (sample_order shipped))) /\
  cancellation true (Some 1%N) empty_db 20%Z (sample_order shipped) = row_not_seen /\
  row_after (row_of_order (sample_order shipped))
            (cancellation true (Some 1%N) empty_db 20%Z (sample_order shipped)) =
  row_of_order (sample_order shipped).
Proof.
  assert (Hst : o_status (sample_order shipped) = shipped) by reflexivity.
  assert (Hne : Some 1%N <> Some (o_seller_id (sample_order shipped)))
    by (simpl; discriminate).
  split; [exact (conj Hst Hne)|].
  exact (proj2 (orders_cancel_guard true (Some 1%N) empty_db 20%Z (sample_order shipped))
               Hst Hne).
Defined.

(** C2 fails as worded: the seller cancels a shipped order. *)
Lemma orders_cancel_by_seller_after_shipping :
  ~ cancellation_as_specified true (Some 2%N) empty_db 20%Z (sample_order shipped).
Proof.
  intros [_ H]. apply (H eq_refl) with
    (new := update_updated_at_column 20%Z
              (cancel_order 20%Z (row_of_order (sample_order shipped)))).
  reflexivity.
Qed.

(** What the policies make of a buyer's cancellation: the row is seen while
    the order is not yet paid, but storing the status [cancelled] is
    refused, unless the buyer is the seller too. *)
Remark orders_cancel_by_buyer reads uid d now o :
  uid = Some (o_buyer_id o) -> o_buyer_id o <> o_seller_id o ->
  cancellation reads uid d now o =
  if before_paymentb (o_status o) then rls_violation else row_not_seen.
Proof.
  intros -> Hne. rewrite cancellation_cases. simpl.
  rewrite N.eqb_refl. apply N.eqb_neq in Hne. rewrite Hne, orb_false_r.
  reflexivity.
Qed.

(** *** Admins and the service-role tables *)






(** Profiles and social media accounts are read by everyone. *)
Lemma public_read_permits reads uid d t c old new :
  public_read t c = true -> permits reads uid d t c old new = true.
Proof.
  intros Hp. destruct t; try discriminate Hp; destruct c; try discriminate Hp;
    reflexivity.
Qed.





(** Nor does the update policy for admins reach a refund request of
    others: [UPDATE refund_requests SET status = 'approved' WHERE id = ...]
    by an admin who neither made the request nor sells the order finds no
    row.  Without a [WHERE] clause the same update passes, on every
    request of the table. *)
Example admin_cannot_update_foreign_refund :
  principal_is_admin (Some 9%N) db_with_order = true /\
  rls_update true (Some 9%N) db_with_order t_refund_requests 50%Z
    (refund_of_one "pending") (set_col "status" (Text "approved")) = row_not_seen /\
  rls_update false (Some 9%N) db_with_order t_refund_requests 50%Z
    (refund_of_one "pending") (set_col "status" (Text "approved")) =
  row_updated (refund_of_one "approved") /\
  rls_update true (Some 2%N) db_with_order t_refund_requests 50%Z
    (refund_of_one "pending") (set_col "status" (Text "approved")) = row_not_seen.
Proof. repeat split. Qed.

End RowLevelSecurity.

(** ** Commands that succeed, step by step *)

Section Transactions.

Local Open Scope tx_scope.

Lemma bind_ok {A B} (m : tx A) (k : A -> tx B) d d' b :
  bind m k d = (d', Ok b) ->
  exists d1 a, m d = (d1, Ok a) /\ k a d1 = (d', Ok b).
Proof.
  unfold bind. destruct (m d) as [d1 [a|e]]; [eauto | discriminate].
Qed.

Lemma ret_ok {A} (a b : A) d d' : ret a d = (d', Ok b) -> d' = d /\ b = a.
Proof. unfold ret. intros [= -> ->]. auto. Qed.

Lemma read_ok {A} (f : db -> A) d d' a : read f d = (d', Ok a) -> d' = d /\ a = f d.
Proof. unfold read. intros [= -> ->]. auto. Qed.

Lemma write_ok (f : db -> db) d d' u : write f d = (d', Ok u) -> d' = f d.
Proof. unfold write. intros [= ->]. auto. Qed.

Lemma require_ok b e d d' u : require b e d = (d', Ok u) -> d' = d /\ b = true.
Proof. destruct b; simpl; [intros [= ->]; auto | discriminate]. Qed.

Lemma not_null_ok {A} column (v : option A) d d' a :
  not_null column v d = (d', Ok a) -> d' = d /\ v = Some a.
Proof. destruct v; simpl; [intros [= -> ->]; auto | discriminate]. Qed.

Lemma atomically_ok {A} (m : tx A) d d' a :
  atomically m d = (d', Ok a) -> m d = (d', Ok a).
Proof.
  unfold atomically. destruct (m d) as [d1 [x|e]]; [|discriminate].
  intros [= -> ->]. reflexivity.
Qed.

(** A command that raises inside [atomically] leaves the database as it
    was. *)
Lemma atomically_err {A} (m : tx A) d d' e :
  atomically m d = (d', Err e) -> d' = d.
Proof.
  unfold atomically. destruct (m d) as [d1 [x|e1]]; [discriminate|].
  intros [= -> _]. reflexivity.
Qed.

End Transactions.

(** Takes a successful run apart into the steps it is made of. *)
Ltac tx_steps :=
  repeat match goal with
    | H : atomically _ _ = (_, Ok _) |- _ => apply atomically_ok in H
    | H : bind _ _ _ = (_, Ok _) |- _ =>
        let d1 := fresh "d" in let a := fresh "a" in
        let H1 := fresh "Hstep" in let H2 := fresh "Hrest" in
        apply bind_ok in H; destruct H as (d1 & a & H1 & H2)
    | H : ret _ _ = (_, Ok _) |- _ => apply ret_ok in H; destruct H as [? ?]; subst
    | H : read _ _ = (_, Ok _) |- _ => apply read_ok in H; destruct H as [? ?]; subst
    | H : write _ _ = (_, Ok _) |- _ => apply write_ok in H; subst
    | H : require _ _ _ = (_, Ok _) |- _ => apply require_ok in H; destruct H as [? ?]; subst
    | H : not_null _ _ _ = (_, Ok _) |- _ => apply not_null_ok in H; destruct H as [? ?]; subst
    end.

(** ** [user_follows] *)

Section Follows.

Lemma user_follows_check_ne a b :
  user_follows_check (Some a) (Some b) = true -> a <> b.
Proof. simpl. intros H. apply N.eqb_neq. now apply negb_true_iff. Qed.

Lemma insert_user_follows_ok id a b now d d' :
  insert_user_follows id a b now d = (d', Ok tt) ->
  exists x y, a = Some x /\ b = Some y /\ x <> y /\
    user_follows d' = (user_follows d ++
      [{| uf_id := id; uf_follower_id := x; uf_following_id := y;
          uf_created_at := Some now |}])%list.
Proof.
  unfold insert_user_follows. intros H. tx_steps.
  match goal with H : user_follows_check _ _ = true |- _ =>
    apply user_follows_check_ne in H end.
  eexists _, _. repeat split. assumption.
Qed.

Lemma user_follows_set_ok e r d d' r' :
  user_follows_set e r d = (d', Ok r') ->
  d' = d /\ uf_follower_id r' <> uf_following_id r'.
Proof.
  unfold user_follows_set. destruct (e r) as [a b]. intros H. tx_steps.
  match goal with H : user_follows_check _ _ = true |- _ =>
    apply user_follows_check_ne in H end.
  split; [reflexivity | assumption].
Qed.

Lemma user_follows_rewrite_ok cond e : forall todo done d d' t',
  user_follows_rewrite cond e done todo d = (d', Ok t') ->
  (forall r, In r (done ++ todo) -> uf_follower_id r <> uf_following_id r) ->
  forall r, In r t' -> uf_follower_id r <> uf_following_id r.
Proof.
  induction todo as [|r todo IH]; cbn [user_follows_rewrite]; intros done d d' t' H Hinv.
  - tx_steps. intros r Hr. apply Hinv. now rewrite app_nil_r.
  - destruct (cond r).
    + tx_steps.
      match goal with H : user_follows_set _ _ _ = _ |- _ =>
        apply user_follows_set_ok in H; destruct H as [-> Hr] end.
      match goal with H : user_follows_rewrite _ _ _ _ _ = _ |- _ =>
        refine (IH _ _ _ _ H _) end.
      intros x Hx. rewrite <- app_assoc in Hx. cbn [app] in Hx.
      apply in_app_or in Hx as [Hx | [<- | Hx]]; [|exact Hr|];
        apply Hinv, in_or_app; [now left | now right; right].
    + refine (IH _ _ _ _ H _).
      intros x Hx. rewrite <- app_assoc in Hx. exact (Hinv x Hx).
Qed.

Lemma reachable_no_self_follow d : reachable d -> no_self_follow d.
Proof.
  unfold no_self_follow. induction 1 as
    [| d d' id a b now _ IH Hins | d d' cond e _ IH Hupd
     | d d' cond _ IH Hdel | d d' _ IH Hsame].
  - intros r [].
  - apply insert_user_follows_ok in Hins as (x & y & -> & -> & Hne & ->).
    intros r Hin. apply in_app_or in Hin as [Hin | [<- | []]]; auto.
  - unfold update_user_follows in Hupd. tx_steps.
    match goal with H : user_follows_rewrite _ _ _ _ _ = _ |- _ =>
      eapply user_follows_rewrite_ok; [exact H | exact IH] end.
  - unfold delete_user_follows in Hdel. tx_steps. simpl.
    intros r Hin. apply filter_In in Hin as [Hin _]. auto.
  - rewrite Hsame. exact IH.
Qed.

(** An update that gives a row it rewrites the same follower and following
    does not go through. *)
Lemma user_follows_rewrite_self cond e r u : forall todo done d d' t',
  In r todo -> cond r = true -> e r = (Some u, Some u) ->
  user_follows_rewrite cond e done todo d <> (d', Ok t').
Proof.
  induction todo as [|r0 todo IH]; intros done d d' t' Hin Hc He H; [destruct Hin|].
  cbn [user_follows_rewrite] in H. destruct Hin as [-> | Hin].
  - rewrite Hc in H. tx_steps.
    unfold user_follows_set in *. rewrite He in *. tx_steps.
    match goal with H : Some _ = Some _ |- _ => injection H as <- end.
    match goal with H : Some _ = Some _ |- _ => injection H as <- end.
    match goal with H : user_follows_check _ _ = true |- _ =>
      apply user_follows_check_ne in H; now apply H end.
  - destruct (cond r0).
    + tx_steps.
      match goal with H : user_follows_rewrite _ _ _ _ _ = _ |- _ =>
        exact (IH _ _ _ _ Hin Hc He H) end.
    + exact (IH _ _ _ _ Hin Hc He H).
Qed.

(** C10: no statement stores a self-follow (an insertion or an update that
    would is refused by the check constraint and changes nothing), so in
    every state the database reaches no user follows themselves. *)
Theorem user_follows_never_self (d : db) :
  (forall id u now,
     insert_user_follows id (Some u) (Some u) now d =
     (d, Err (check_violation "user_follows_check"))) /\
  (forall cond e r u,
     In r (user_follows d) -> cond r = true -> e r = (Some u, Some u) ->
     exists err, update_user_follows cond e d = (d, Err err)) /\
  (reachable d ->
   forall r, In r (user_follows d) -> uf_follower_id r <> uf_following_id r).
Proof.
  split; [|split].
  - intros id u now. unfold insert_user_follows, atomically, bind. simpl.
    rewrite N.eqb_refl. reflexivity.
  - intros cond e r u Hin Hc He.
    destruct (update_user_follows cond e d) as [d' [[]|err]] eqn:H.
    + exfalso. unfold update_user_follows in H. tx_steps.
      match goal with H : user_follows_rewrite _ _ _ _ _ = _ |- _ =>
        eapply user_follows_rewrite_self; [exact Hin | exact Hc | exact He | exact H]
      end.
    + exists err. f_equal. now apply atomically_err in H.
  - exact (@reachable_no_self_follow d).
Qed.

Lemma db_one_follow_reachable : reachable db_one_follow.
Proof.
  apply reach_insert with (d := db_two_profiles) (id := 300%N)
    (a := Some 1%N) (b := Some 2%N) (now := 5%Z).
  - apply reach_other with (d := empty_db); [constructor | reflexivity].
  - reflexivity.
Qed.

Lemma user_follows_never_self_witness :
  (In sample_follow (user_follows db_one_follow) /\
   (exists err,
      update_user_follows (fun _ => true) (fun _ => (Some 1%N, Some 1%N))
        db_one_follow = (db_one_follow, Err err))) /\
  (reachable db_one_follow /\
   uf_follower_id sample_follow <> uf_following_id sample_follow).
Proof.
  assert (Hin : In sample_follow (user_follows db_one_follow)) by (left; reflexivity).
  split; split.
  - exact Hin.
  - exact (proj1 (proj2 (user_follows_never_self db_one_follow))
             (fun _ => true) (fun _ => (Some 1%N, Some 1%N)) sample_follow 1%N
             Hin eq_refl eq_refl).
  - exact db_one_follow_reachable.
  - exact (proj2 (proj2 (user_follows_never_self db_one_follow))
             db_one_follow_reachable sample_follow Hin).
Defined.

Example self_follow_refused :
  insert_user_follows 301%N (Some 1%N) (Some 1%N) 6%Z db_one_follow =
  (db_one_follow, Err (check_violation "user_follows_check")).
Proof. reflexivity. Qed.

(** The unique constraint is checked row by row: an update that swaps whom
    principal 1 follows would leave no double, but its first row meets the
    second as it still is, and the statement raises. *)
Example update_user_follows_row_by_row :
  update_user_follows (fun _ => true) swap_followed db_two_follows =
  (db_two_follows,
   Err (unique_violation "user_follows_follower_id_following_id_key")).
Proof. reflexivity. Qed.

(** Each foreign key raises under its own name. *)
Example update_user_follows_foreign_keys :
  update_user_follows (fun _ => true) (fun r => (Some 8%N, Some (uf_following_id r)))
    db_one_follow =
  (db_one_follow, Err (foreign_key_violation "user_follows_follower_id_fkey")) /\
  update_user_follows (fun _ => true) (fun r => (Some (uf_follower_id r), Some 8%N))
    db_one_follow =
  (db_one_follow, Err (foreign_key_violation "user_follows_following_id_fkey")).
Proof. split; reflexivity. Qed.

End Follows.

(** ** Principal bootstrap: [handle_new_user] and [on_auth_user_created] *)

Section Bootstrap.

Context {L : Locale}.

Local Open Scope tx_scope.

Lemma substring_whole n s : (length s <= n)%nat -> substring 0 n s = s.
Proof.
  revert n. induction s as [|c s IH]; intros [|n] H; simpl in *;
    try reflexivity; try lia.
  rewrite IH; [reflexivity | lia].
Qed.

(** A text of [n] characters at most is its own first [n] characters. *)
Lemma bytes_of_chars_whole s : forall n,
  (CHAR_LENGTH s <= n)%nat -> bytes_of_chars n s = length s.
Proof.
  induction s as [|c s IH]; intros n H; cbn [bytes_of_chars CHAR_LENGTH length] in *;
    [reflexivity|].
  destruct (is_continuation c).
  - now rewrite IH.
  - destruct n as [|n]; [lia|]. rewrite IH; [reflexivity | lia].
Qed.

Lemma first_chars_whole n s : (CHAR_LENGTH s <= n)%nat -> first_chars n s = s.
Proof.
  intros H. unfold first_chars. rewrite bytes_of_chars_whole by exact H.
  now apply substring_whole.
Qed.

(** What a [VARCHAR(n)] column stores of a value it accepts. *)
Lemma varchar_ok n column s d d' s' :
  varchar n column s d = (d', Ok s') -> d' = d /\ s' = first_chars n s.
Proof.
  unfold varchar. destruct (CHAR_LENGTH s <=? n)%nat eqn:Hl.
  - intros [= -> ->]. apply Nat.leb_le in Hl. now rewrite first_chars_whole.
  - destruct (all_spaces (drop (bytes_of_chars n s) s)); [|discriminate].
    intros [= -> ->]. auto.
Qed.

(** Folding the letters of ASCII keeps the characters apart as they were,
    and is what the specification calls lower case. *)
Lemma lower_char_continuation c : is_continuation (lower_char c) = is_continuation c.
Proof. destruct c as [[] [] [] [] [] [] [] []]; reflexivity. Qed.

Lemma CHAR_LENGTH_lower_ascii s : CHAR_LENGTH (lower_ascii s) = CHAR_LENGTH s.
Proof.
  induction s as [|c s IH]; cbn [lower_ascii CHAR_LENGTH]; [reflexivity|].
  now rewrite lower_char_continuation, IH.
Qed.

Lemma lower_char_small_letter c : lower_char c = small_letter c.
Proof. destruct c as [[] [] [] [] [] [] [] []]; reflexivity. Qed.

Lemma lower_ascii_as_specified s : lower_cased_as_specified s (lower_ascii s).
Proof.
  split.
  - induction s as [|c s IH]; cbn [lower_ascii length]; [reflexivity | now rewrite IH].
  - induction s as [|c s IH]; intros i; cbn [lower_ascii get]; [reflexivity|].
    destruct i as [|i]; cbn [option_map]; [now rewrite lower_char_small_letter|].
    apply IH.
Qed.

Lemma prefix_at c s : prefix "@" (String c s) = Ascii.eqb c "@".
Proof.
  cbn [prefix]. destruct (ascii_dec "@" c) as [<-|Hne].
  - now destruct s.
  - symmetry. apply Ascii.eqb_neq. congruence.
Qed.

(** [SPLIT_PART(email, '@', 1)] is the local part of the address. *)
Lemma SPLIT_PART_as_specified email :
  local_part_as_specified email (SPLIT_PART email "@" 1).
Proof.
  unfold SPLIT_PART. change (Nat.pred (Pos.to_nat 1)) with 0%nat.
  cbn [split_part_from]. change ("@" =? "") with false. cbv iota.
  unfold local_part_as_specified.
  induction email as [|c s IH].
  - split; [intros i; destruct i; discriminate | now left].
  - cbn [index]. rewrite prefix_at.
    destruct (Ascii.eqb c "@") eqn:Hc.
    + apply Ascii.eqb_eq in Hc. subst c.
      split; [intros i; destruct i; discriminate|].
      right. exists s. reflexivity.
    + apply Ascii.eqb_neq in Hc. destruct IH as [IH1 IH2].
      destruct (index 0 "@" s) as [i|].
      * cbn [substring]. split.
        -- intros [|j]; cbn [get]; [congruence | apply IH1].
        -- destruct IH2 as [E | (rest & E)].
           ++ left. f_equal. exact E.
           ++ right. exists rest. cbn [append]. f_equal. exact E.
      * split.
        -- intros [|j]; cbn [get]; [congruence | apply IH1].
        -- now left.
Qed.

(** The words of the specification name one text. *)
Lemma local_part_unique email : forall local local',
  local_part_as_specified email local ->
  local_part_as_specified email local' -> local = local'.
Proof.
  assert (Hhead : forall e l c l', l = String c l' ->
            (forall i, get i l <> Some "@"%char) ->
            (e = l \/ exists rest, e = l ++ "@" ++ rest) ->
            c <> "@"%char /\ exists e', e = String c e' /\
              (forall i, get i l' <> Some "@"%char) /\
              (e' = l' \/ exists rest, e' = l' ++ "@" ++ rest)).
  { intros e l c l' -> Hno He. split.
    - intros ->. exact (Hno 0 eq_refl).
    - destruct He as [-> | (rest & ->)].
      + exists l'. split; [reflexivity|].
        split; [intros i; exact (Hno (S i)) | now left].
      + exists (l' ++ "@" ++ rest). split; [reflexivity|].
        split; [intros i; exact (Hno (S i)) | right; now exists rest]. }
  assert (Hnil : forall e, (e = "" \/ exists rest, e = "" ++ "@" ++ rest) ->
            forall c e', e = String c e' -> c = "@"%char).
  { intros e [-> | (rest & ->)] c e' E; [discriminate | now injection E as <- _]. }
  induction email as [|a email IH]; intros local local' [Hn He] [Hn' He'].
  - destruct local as [|c l].
    + destruct local' as [|c' l']; [reflexivity|].
      destruct (Hhead _ _ _ _ eq_refl Hn' He') as (_ & e' & E & _). discriminate E.
    + destruct (Hhead _ _ _ _ eq_refl Hn He) as (_ & e' & E & _). discriminate E.
  - destruct local as [|c l], local' as [|c' l'].
    + reflexivity.
    + destruct (Hhead _ _ _ _ eq_refl Hn' He') as (Hc & e' & E & _).
      injection E as <- _. now specialize (Hnil _ He _ _ eq_refl).
    + destruct (Hhead _ _ _ _ eq_refl Hn He) as (Hc & e' & E & _).
      injection E as <- _. now specialize (Hnil _ He' _ _ eq_refl).
    + destruct (Hhead _ _ _ _ eq_refl Hn He) as (_ & e1 & E1 & H1 & H1').
      destruct (Hhead _ _ _ _ eq_refl Hn' He') as (_ & e2 & E2 & H2 & H2').
      injection E1 as <- <-. injection E2 as <- <-.
      f_equal. exact (IH _ _ (conj H1 H1') (conj H2 H2')).
Qed.

Lemma filter_none {A} (f : A -> bool) l : existsb f l = false -> filter f l = [].
Proof.
  induction l as [|x l IH]; simpl; [reflexivity|].
  destruct (f x); simpl; [discriminate | exact IH].
Qed.

Lemma existsb_false {A} (f : A -> bool) l :
  (forall x, In x l -> f x = false) -> existsb f l = false.
Proof.
  intros H. induction l as [|x l IH]; simpl; [reflexivity|].
  rewrite (H x (or_introl eq_refl)), IH; [reflexivity|].
  intros y Hy. apply H. now right.
Qed.

Lemma filter_append_row {A} (f : A -> bool) l r :
  existsb f l = false -> f r = true -> filter f (append_row r l) = [r].
Proof.
  intros Hl Hr. unfold append_row. rewrite filter_app, (filter_none _ _ Hl).
  simpl. now rewrite Hr.
Qed.

(** Before a principal exists, integrity leaves it no row. *)
Lemma unknown_principal_has_no_row u d :
  referential_integrity d -> known_principal u d = false ->
  profiles_of u d = [] /\ carts_of u d = [] /\ stats_of u d = [].
Proof.
  intros RI Hu.
  assert (Hp : profile_exists u d = false).
  { apply existsb_false. intros p Hin.
    destruct (N.eqb_spec (p_id p) u) as [<-|]; [|reflexivity].
    rewrite (fk_profiles RI p Hin) in Hu. discriminate. }
  split; [exact (filter_none _ _ Hp)|]. split; apply filter_none, existsb_false.
  - intros c Hin. destruct (N.eqb_spec (sc_user_id c) u) as [<-|]; [|reflexivity].
    rewrite (fk_carts RI c Hin) in Hp. discriminate.
  - intros s Hin. destruct (N.eqb_spec (us_user_id s) u) as [<-|]; [|reflexivity].
    rewrite (fk_stats RI s Hin) in Hp. discriminate.
Qed.

(** C3: creating a principal either succeeds, and then the principal has
    exactly one profile, exactly one cart with no item in it, and exactly
    one stats row that counts nothing; or it raises, and then the database
    is the one before: no row of the new principal is kept in any of the
    three tables.  The username of the profile is the local part of the
    email, what stands before its first [@], in lower case: what [LOWER]
    makes of it, in the 30 characters the column holds; for a local part of
    ASCII that has 30 characters at most, the local part with each capital
    letter replaced by its small letter. *)
Theorem create_principal_atomic (u : auth_user) (fresh_cart_id : uuid)
  (now : timestamptz) (d : db) :
  referential_integrity d ->
  match create_principal u fresh_cart_id now d with
  | (d', Ok _) =>
      exists email local,
        au_email u = Some email /\
        local_part_as_specified email local /\
        profiles_of (au_id u) d' =
          [default_profile (au_id u) (first_chars 255 email)
             (first_chars 30 (LOWER local)) now] /\
        ((CHAR_LENGTH (LOWER local) <= 30)%nat ->
         map p_username (profiles_of (au_id u) d') = [LOWER local]) /\
        (is_ascii local = true -> (CHAR_LENGTH local <= 30)%nat ->
         exists name,
           map p_username (profiles_of (au_id u) d') = [name] /\
           lower_cased_as_specified local name) /\
        carts_of (au_id u) d' = [new_cart fresh_cart_id (au_id u) now] /\
        items_of fresh_cart_id d' = [] /\
        stats_of (au_id u) d' = [zeroed_stats (au_id u) now]
  | (d', Err _) =>
      d' = d /\
      (known_principal (au_id u) d = false ->
       profiles_of (au_id u) d' = [] /\ carts_of (au_id u) d' = [] /\
       stats_of (au_id u) d' = [])
  end.
Proof.
  intros RI.
  destruct (create_principal u fresh_cart_id now d) as [d' [[]|e]] eqn:H.
  - unfold create_principal, handle_new_user, insert_auth_users, insert_profiles,
      insert_shopping_carts, insert_user_stats_summary in H.
    tx_steps.
    repeat match goal with
           | H : varchar _ _ _ _ = (_, Ok _) |- _ =>
               apply varchar_ok in H; destruct H as [? ?]; subst
           end.
    tx_steps.
    cbn [profiles shopping_carts user_stats_summary cart_items auth_users
         with_auth_users with_profiles with_shopping_carts
         with_user_stats_summary] in *.
    repeat match goal with
           | H : negb _ = true |- _ => apply negb_true_iff in H
           end.
    match goal with
    | He : au_email u = Some ?e, Hn : option_map _ (au_email u) = Some _ |- _ =>
        rename e into email; rewrite He in Hn; injection Hn as <-;
        exists email, (SPLIT_PART email "@" 1); split; [exact He|]
    end.
    split; [apply SPLIT_PART_as_specified|].
    set (local := SPLIT_PART email "@" 1) in *.
    assert (Hprofile : forall stored_email username,
              existsb (fun r => N.eqb (p_id r) (au_id u)) (profiles d) = false ->
              filter (fun p => N.eqb (p_id p) (au_id u))
                (append_row (default_profile (au_id u) stored_email username now)
                            (profiles d)) =
              [default_profile (au_id u) stored_email username now]).
    { intros stored_email username Hno. apply filter_append_row; [exact Hno|].
      apply N.eqb_refl. }
    unfold profiles_of, carts_of, stats_of, items_of.
    cbn [profiles shopping_carts user_stats_summary cart_items
         with_auth_users with_profiles with_shopping_carts
         with_user_stats_summary].
    match goal with
    | |- context [append_row ?p (profiles d)] =>
        change p with (default_profile (au_id u) (first_chars 255 email)
                         (first_chars 30 (LOWER local)) now)
    end.
    rewrite Hprofile by assumption.
    split; [reflexivity|].
    split; [intros Hlen; simpl; now rewrite first_chars_whole|].
    split.
    { intros Ha Hlen. exists (lower_ascii local).
      split; [|apply lower_ascii_as_specified].
      simpl. rewrite (LOWER_ascii local Ha).
      rewrite first_chars_whole; [reflexivity|].
      now rewrite CHAR_LENGTH_lower_ascii. }
    split; [apply filter_append_row; [assumption | apply N.eqb_refl]|].
    split; [|apply filter_append_row; [assumption | apply N.eqb_refl]].
    apply filter_none, existsb_false. intros i Hin.
    destruct (N.eqb_spec (ci_cart_id i) fresh_cart_id) as [E|]; [|reflexivity].
    pose proof (fk_items RI i Hin) as Hc. unfold cart_exists in Hc.
    rewrite E in Hc. congruence.
  - apply atomically_err in H. subst d'. split; [reflexivity|].
    now apply unknown_principal_has_no_row.
Qed.

Lemma referential_integrity_empty : referential_integrity empty_db.
Proof. split; intros ? []. Qed.

End Bootstrap.

(** The bootstrap run in the locale [C]. *)

Section BootstrapRuns.

Local Open Scope tx_scope.

Lemma create_principal_atomic_witness :
  let d' := fst (@create_principal C_locale sample_user 77%N 1000%Z empty_db) in
  referential_integrity empty_db /\
  exists email local,
    au_email sample_user = Some email /\
    local_part_as_specified email local /\
    profiles_of 1%N d' =
      [default_profile 1%N (first_chars 255 email)
         (first_chars 30 (@LOWER C_locale local)) 1000%Z] /\
    ((CHAR_LENGTH (@LOWER C_locale local) <= 30)%nat ->
     map p_username (profiles_of 1%N d') = [@LOWER C_locale local]) /\
    (is_ascii local = true -> (CHAR_LENGTH local <= 30)%nat ->
     exists name,
       map p_username (profiles_of 1%N d') = [name] /\
       lower_cased_as_specified local name) /\
    carts_of 1%N d' = [new_cart 77%N 1%N 1000%Z] /\
    items_of 77%N d' = [] /\
    stats_of 1%N d' = [zeroed_stats 1%N 1000%Z].
Proof.
  split; [exact referential_integrity_empty|].
  exact (@create_principal_atomic C_locale sample_user 77%N 1000%Z empty_db
           referential_integrity_empty).
Defined.

Example create_principal_username :
  map p_username
    (profiles (fst (@create_principal C_locale sample_user 77%N 1000%Z empty_db))) =
  ["bea.stone"].
Proof. reflexivity. Qed.

(** A local part of twenty characters that take forty bytes, twenty times
    the letter e with an acute accent, fits the column of thirty
    characters. *)
Example create_principal_counts_characters :
  let e_acute := String (ascii_of_nat 195) (String (ascii_of_nat 169) "") in
  let local := concat "" (repeat e_acute 20) in
  let u := {| au_id := 4%N; au_email := Some (local ++ "@example.com") |} in
  length local = 40 /\ CHAR_LENGTH local = 20 /\
  map p_username
    (profiles (fst (@create_principal C_locale u 79%N 1000%Z empty_db))) = [local].
Proof. repeat split. Qed.

(** Two addresses with the same local part cannot both be bootstrapped: the
    second username is taken, and the second principal is not created. *)
Example create_principal_same_local_part :
  let d1 := fst (@create_principal C_locale sample_user 77%N 1000%Z empty_db) in
  let twin := {| au_id := 3%N; au_email := Some "bea.stone@elsewhere.org" |} in
  @create_principal C_locale twin 78%N 2000%Z d1 =
    (d1, Err (unique_violation "profiles_username_key")).
Proof. reflexivity. Qed.

(** A bootstrap that fails half way: the cart id drawn is taken.  The
    trigger has stored the profile when the cart is refused; the transaction
    takes it back. *)
Example create_principal_rolls_back :
  let body := (insert_auth_users sample_user ;;
               @handle_new_user C_locale sample_user 77%N 1000%Z ;; ret tt) in
  snd (body db_cart_id_taken) = Err (unique_violation "shopping_carts_pkey") /\
  map p_username (profiles_of 1%N (fst (body db_cart_id_taken))) = ["bea.stone"] /\
  @create_principal C_locale sample_user 77%N 1000%Z db_cart_id_taken =
    (db_cart_id_taken, Err (unique_violation "shopping_carts_pkey")) /\
  profiles_of 1%N db_cart_id_taken = [].
Proof. repeat split. Qed.

End BootstrapRuns.

(** ** Setup completion: [update_setup_completion] *)

Section SetupCompletion.

Local Open Scope tx_scope.

(** The trigger never raises; it rewrites the profiles of the written row's
    user when [fires] holds and does nothing otherwise. *)
Lemma update_setup_completion_run NEW now d :
  update_setup_completion NEW now d =
  (if fires NEW d
   then with_profiles (map (complete_for (sp_user_id NEW) now)) d
   else d, Ok NEW).
Proof.
  unfold update_setup_completion, fires, bind, read, ret,
    update_profiles_setup_completed, write.
  destruct (existsb (String.eqb (sp_step_name NEW)) required_steps); simpl;
    [|reflexivity].
  destruct (step_completed (sp_user_id NEW) "avatar_selected" d); simpl;
    [|reflexivity].
  destruct (step_completed (sp_user_id NEW) "profile_info_completed" d); reflexivity.
Qed.

(** The trigger reads [profile_setup_progress] only. *)
Lemma fires_with_profiles NEW f d : fires NEW (with_profiles f d) = fires NEW d.
Proof. reflexivity. Qed.

Lemma complete_for_flag u now p :
  p_setup_completed (complete_for u now p) =
  if N.eqb (p_id p) u then Some true else p_setup_completed p.
Proof. unfold complete_for. destruct (N.eqb (p_id p) u); reflexivity. Qed.

Lemma complete_for_stamp u now p :
  p_setup_completed_at (complete_for u now p) =
  if N.eqb (p_id p) u then Some now else p_setup_completed_at p.
Proof. unfold complete_for. destruct (N.eqb (p_id p) u); reflexivity. Qed.

Lemma complete_for_id u now p : p_id (complete_for u now p) = p_id p.
Proof. unfold complete_for. destruct (N.eqb (p_id p) u); reflexivity. Qed.

(** C4, as the trigger behaves.  One firing keeps every profile in place,
    never takes [setup_completed] back from true, and changes it only to
    true, only for the user of the written row, and only when the step is one
    of the three listed and that user's [avatar_selected] and
    [profile_info_completed] rows are completed.  A second firing for the
    same row leaves [setup_completed] of every profile as the first left it,
    and, when the condition holds, stamps [setup_completed_at] of that user's
    profiles with the time of the second firing. *)
Theorem update_setup_completion_transitions (NEW : setup_progress)
  (now1 now2 : timestamptz) (d : db) :
  let d1 := fst (update_setup_completion NEW now1 d) in
  let d2 := fst (update_setup_completion NEW now2 d1) in
  snd (update_setup_completion NEW now1 d) = Ok NEW /\
  Forall2 (fun p p' =>
             p_id p' = p_id p /\
             (p_setup_completed p = Some true -> p_setup_completed p' = Some true) /\
             (p_setup_completed p' <> p_setup_completed p ->
                p_setup_completed p' = Some true /\
                p_id p = sp_user_id NEW /\
                In (sp_step_name NEW) required_steps /\
                step_completed (sp_user_id NEW) "avatar_selected" d = true /\
                step_completed (sp_user_id NEW) "profile_info_completed" d = true))
          (profiles d) (profiles d1) /\
  map p_setup_completed (profiles d2) = map p_setup_completed (profiles d1) /\
  (fires NEW d = true ->
   forall p, In p (profiles d2) -> p_id p = sp_user_id NEW ->
             p_setup_completed p = Some true /\ p_setup_completed_at p = Some now2).
Proof.
  cbv zeta. rewrite !update_setup_completion_run. cbn [fst snd].
  split; [reflexivity|].
  destruct (fires NEW d) eqn:Hf.
  - rewrite fires_with_profiles, Hf. cbn [profiles with_profiles].
    unfold fires in Hf. apply andb_true_iff in Hf as [Hf Hinfo].
    apply andb_true_iff in Hf as [Hstep Havatar].
    apply existsb_exists in Hstep as (s & Hin & Hs). apply String.eqb_eq in Hs.
    subst s. split; [|split].
    + induction (profiles d) as [|p ps IH]; constructor; [|exact IH].
      rewrite complete_for_id, complete_for_flag.
      destruct (N.eqb_spec (p_id p) (sp_user_id NEW)); intuition congruence.
    + rewrite !map_map. apply map_ext. intros p.
      rewrite !complete_for_flag, complete_for_id.
      destruct (N.eqb (p_id p) (sp_user_id NEW)); reflexivity.
    + intros _ p Hp Hid. apply in_map_iff in Hp as (q & <- & _).
      rewrite complete_for_id in Hid.
      rewrite complete_for_flag, complete_for_stamp, Hid, N.eqb_refl. auto.
  - rewrite Hf. split; [|split; [reflexivity | discriminate]].
    induction (profiles d) as [|p ps IH]; constructor; [|exact IH].
    intuition congruence.
Qed.

Lemma update_setup_completion_transitions_witness :
  let NEW := sample_step 11%N "profile_info_completed" true in
  let d := with_profile_setup_progress
             (fun _ => [sample_step 10%N "avatar_selected" true; NEW])
             db_setup_started in
  fires NEW d = true /\
  forall p, In p (profiles (fst (update_setup_completion NEW 200%Z
                                   (fst (update_setup_completion NEW 100%Z d))))) ->
            p_id p = sp_user_id NEW ->
            p_setup_completed p = Some true /\ p_setup_completed_at p = Some 200%Z.
Proof.
  intros NEW d.
  assert (Hf : fires NEW d = true) by reflexivity.
  split; [exact Hf|].
  exact (proj2 (proj2 (proj2 (update_setup_completion_transitions NEW 100%Z 200%Z d))) Hf).
Defined.

(** C4 fails as worded: the step [profile_info_completed] written as
    completed at time 100 and again at time 200 leaves [setup_completed_at]
    at 200. *)
Lemma setup_completed_at_is_restamped :
  ~ setup_completion_as_specified 1%N "profile_info_completed" 100%Z 200%Z
      db_setup_started.
Proof.
  unfold setup_completion_as_specified. vm_compute. discriminate.
Qed.

Example setup_completed_at_history :
  let (d1, d2) := written_twice 1%N "profile_info_completed" 100%Z 200%Z
                    db_setup_started in
  map (fun p => (p_setup_completed p, p_setup_completed_at p)) (profiles db_setup_started) =
    [(Some false, None)] /\
  map (fun p => (p_setup_completed p, p_setup_completed_at p)) (profiles d1) =
    [(Some true, Some 100%Z)] /\
  map (fun p => (p_setup_completed p, p_setup_completed_at p)) (profiles d2) =
    [(Some true, Some 200%Z)].
Proof. repeat split. Qed.

End SetupCompletion.

(** ** Carts: [get_or_create_cart] *)

Section Carts.

Local Open Scope tx_scope.





(** C8 on an input where it fails: principal 2 has a cart that expired; the
    call neither returns a cart id nor creates a cart, it raises a unique
    violation. *)
Theorem get_or_create_cart_raises_on_expired_cart :
  carts_of 2%N db_one_cart = [new_cart 77%N 2%N 0%Z] /\
  select_live_cart 2%N after_expiry db_one_cart = None /\
  get_or_create_cart 2%N 78%N after_expiry db_one_cart =
    (db_one_cart, Err (unique_violation "shopping_carts_user_id_key")).
Proof. repeat split. Qed.

End Carts.

(* ===================================================================== *)
(** * Further properties of the functions of section 4.1 *)
(* ===================================================================== *)

(** ** Order numbers read back *)

Section OrderNumberFields.

Lemma substring_take a b : substring 0 (length a) (a ++ b) = a.
Proof. induction a as [|c a IH]; simpl; [now destruct b | now rewrite IH]. Qed.

Lemma substring_skip a b k m :
  substring (length a + k) m (a ++ b) = substring k m b.
Proof. induction a as [|c a IH]; simpl; [reflexivity | exact IH]. Qed.

(** The field of [m] characters that follows a prefix of [k] characters. *)
Lemma substring_field pre a b k m :
  length pre = k -> length a = m -> substring k m (pre ++ a ++ b) = a.
Proof.
  intros <- <-. rewrite <- (Nat.add_0_r (length pre)), substring_skip.
  apply substring_take.
Qed.

(** The order number of a date and a draw, a double of [0, 1), has
    seventeen characters, starts with [ORD-], and its digit columns give
    back the year, the month, the day and a suffix: the whole number at or
    just below the product of the draw and 10000 as doubles multiply, which
    is a double nearest to the exact product. *)
Theorem generate_order_number_fields (now : calendar) (random : Q) :
  valid_calendar now ->
  double random -> (0 <= random)%Q -> (random < 1)%Q ->
  length (generate_order_number now random) = 17 /\
  substring 0 4 (generate_order_number now random) = "ORD-" /\
  exists (product : Q) (suffix : N),
    nearest_double (random * 10000) product /\
    (inject_Z (Z.of_N suffix) <= product < inject_Z (Z.of_N suffix) + 1)%Q /\
    order_number_fields (generate_order_number now random) =
      (cal_year now, cal_month now, cal_day now, suffix).
Proof.
  intros (Hy & Hm & Hd) Hf H0 H1.
  assert (Hp : (0 <= random * 10000)%Q).
  { apply Qmult_le_0_compat; [exact H0 | discriminate]. }
  unfold generate_order_number, TO_CHAR_YYYYMMDD.
  destruct (writes_spec _ _ _ (zero_padded_4 (n := cal_year now) ltac:(lia)))
    as (Ly & _ & Vy).
  destruct (writes_spec _ _ _ (zero_padded_2 (n := cal_month now) ltac:(lia)))
    as (Lm & _ & Vm).
  destruct (writes_spec _ _ _ (zero_padded_2 (n := cal_day now) ltac:(lia)))
    as (Ld & _ & Vd).
  destruct (writes_spec _ _ _ (LPAD_4 (FLOOR_random_double Hf H0 H1)))
    as (Ln & _ & Vn).
  set (Y := zero_padded 4 (cal_year now)) in *.
  set (M := zero_padded 2 (cal_month now)) in *.
  set (D := zero_padded 2 (cal_day now)) in *.
  set (S := LPAD (N_to_text (FLOOR (float8mul random 10000))) 4 "0") in *.
  rewrite !append_assoc.
  set (G := "ORD-" ++ Y ++ M ++ D ++ "-" ++ S).
  assert (EM : G = ("ORD-" ++ Y) ++ M ++ (D ++ "-" ++ S))
    by (unfold G; now rewrite !append_assoc).
  assert (ED : G = ("ORD-" ++ Y ++ M) ++ D ++ ("-" ++ S))
    by (unfold G; now rewrite !append_assoc).
  assert (ES : G = ("ORD-" ++ Y ++ M ++ D ++ "-") ++ S ++ "")
    by (unfold G; rewrite !append_assoc, append_empty_r; reflexivity).
  assert (FY : substring 4 4 G = Y)
    by (unfold G; apply substring_field; [reflexivity | exact Ly]).
  assert (FM : substring 8 2 G = M).
  { rewrite EM. apply substring_field; [|exact Lm].
    rewrite length_append, Ly. reflexivity. }
  assert (FD : substring 10 2 G = D).
  { rewrite ED. apply substring_field; [|exact Ld].
    rewrite !length_append, Ly, Lm. reflexivity. }
  assert (FS : substring 13 4 G = S).
  { rewrite ES. apply substring_field; [|exact Ln].
    rewrite !length_append, Ly, Lm, Ld. reflexivity. }
  split; [|split].
  - unfold G. rewrite !length_append, Ly, Lm, Ld, Ln. reflexivity.
  - exact (substring_take "ORD-" _).
  - exists (float8mul random 10000), (FLOOR (float8mul random 10000)).
    split; [exact (float8_nearest_double Hp)|].
    split; [exact (FLOOR_spec (float8_nonneg Hp))|].
    unfold order_number_fields. now rewrite FY, FM, FD, FS, Vy, Vm, Vd, Vn.
Qed.

Lemma generate_order_number_fields_witness :
  let now := {| cal_year := 2025; cal_month := 3; cal_day := 9 |} in
  (valid_calendar now /\ double (175 # 4096) /\
   (0 <= 175 # 4096)%Q /\ (175 # 4096 < 1)%Q) /\
  length (generate_order_number now (175 # 4096)) = 17 /\
  substring 0 4 (generate_order_number now (175 # 4096)) = "ORD-" /\
  exists (product : Q) (suffix : N),
    nearest_double ((175 # 4096) * 10000) product /\
    (inject_Z (Z.of_N suffix) <= product < inject_Z (Z.of_N suffix) + 1)%Q /\
    order_number_fields (generate_order_number now (175 # 4096)) =
      (2025%N, 3%N, 9%N, suffix).
Proof.
  intros now.
  assert (Hc : valid_calendar now) by (unfold valid_calendar, now; simpl; lia).
  assert (Hf : double (175 # 4096)).
  { exists 175%Z, (-12)%Z. split; [reflexivity | split; [lia | reflexivity]]. }
  assert (H0 : (0 <= 175 # 4096)%Q) by (unfold Qle; simpl; lia).
  assert (H1 : (175 # 4096 < 1)%Q) by (unfold Qlt; simpl; lia).
  split; [exact (conj Hc (conj Hf (conj H0 H1)))|].
  exact (generate_order_number_fields Hc Hf H0 H1).
Defined.

(** More than ten thousand order numbers of one day cannot all differ,
    whatever is drawn. *)
Theorem generate_order_number_collides (now : calendar) (draws : list Q) :
  (forall r, In r draws -> (0 <= r)%Q /\ (r < 1)%Q) ->
  (10000 < N.of_nat (List.length draws))%N ->
  ~ NoDup (map (generate_order_number now) draws).
Proof.
  intros Hr Hlen Hnd.
  pose (all := map (fun k => order_number_of_suffix now (N.of_nat k))
                   (seq 0 (N.to_nat 10000))).
  assert (Hincl : incl (map (generate_order_number now) draws) all).
  { intros s Hs. apply in_map_iff in Hs as (r & <- & Hin).
    destruct (Hr r Hin) as [H0 H1]. pose proof (FLOOR_random_any H0 H1) as Hf.
    apply in_map_iff.
    destruct (N.eq_dec (FLOOR (float8mul r 10000)) 10000) as [E|Hne].
    - (* of five digits the four on the left are kept *)
      exists (N.to_nat 1000). split; [|apply in_seq; lia].
      unfold generate_order_number, order_number_of_suffix.
      now rewrite E, N2Nat.id.
    - exists (N.to_nat (FLOOR (float8mul r 10000))). split.
      + now rewrite N2Nat.id.
      + apply in_seq. lia. }
  pose proof (NoDup_incl_length Hnd Hincl) as Hle.
  unfold all in Hle. rewrite !length_map, length_seq in Hle. lia.
Qed.

Lemma generate_order_number_collides_witness :
  let now := {| cal_year := 2025; cal_month := 3; cal_day := 9 |} in
  let draws := repeat (1 # 2)%Q (N.to_nat 10001) in
  ((forall r, In r draws -> (0 <= r)%Q /\ (r < 1)%Q) /\
   (10000 < N.of_nat (List.length draws))%N) /\
  ~ NoDup (map (generate_order_number now) draws).
Proof.
  intros now draws.
  assert (Hr : forall r, In r draws -> (0 <= r)%Q /\ (r < 1)%Q).
  { intros r Hin. apply repeat_spec in Hin. subst r. split; [discriminate | reflexivity]. }
  assert (Hlen : (10000 < N.of_nat (List.length draws))%N).
  { unfold draws. rewrite repeat_length, N2Nat.id. reflexivity. }
  split; [exact (conj Hr Hlen)|].
  exact (generate_order_number_collides now draws Hr Hlen).
Defined.

End OrderNumberFields.

(** ** The platform fee as a function of the amount *)

Section PlatformFeeOrder.

Local Open Scope Q_scope.

Lemma ROUND_2_nearest x : ROUND x 2 = inject_Z (nearest (x * 100)) / 100.
Proof. reflexivity. Qed.

Lemma nearest_mono x y : x <= y -> (nearest x <= nearest y)%Z.
Proof.
  intros H. unfold nearest.
  destruct (Qle_bool 0 x) eqn:Hx, (Qle_bool 0 y) eqn:Hy.
  - apply Qfloor_resp_le. lra.
  - apply Qle_bool_iff in Hx.
    assert (Hn : ~ 0 <= y) by (rewrite <- Qle_bool_iff; congruence). lra.
  - apply Qle_bool_iff in Hy.
    assert (Hn : ~ 0 <= x) by (rewrite <- Qle_bool_iff; congruence).
    assert (H1 : (0 <= Qfloor (- x + (1 # 2)))%Z)
      by (change 0%Z with (Qfloor 0); apply Qfloor_resp_le; lra).
    assert (H2 : (0 <= Qfloor (y + (1 # 2)))%Z)
      by (change 0%Z with (Qfloor 0); apply Qfloor_resp_le; lra).
    lia.
  - assert (H1 : (Qfloor (- y + (1 # 2)) <= Qfloor (- x + (1 # 2)))%Z)
      by (apply Qfloor_resp_le; lra).
    lia.
Qed.

Lemma hundredths_le (j k : Z) : (j <= k)%Z -> inject_Z j / 100 <= inject_Z k / 100.
Proof.
  intros H. unfold Qdiv. apply Qmult_le_compat_r; [now rewrite <- Zle_Qle | discriminate].
Qed.

(** The fee grows with the amount; on an amount that is not negative it is
    not negative and not more than the amount. *)
Theorem calculate_platform_fee_monotone (amount amount' : numeric) :
  (amount <= amount' ->
   calculate_platform_fee amount <= calculate_platform_fee amount') /\
  (0 <= amount ->
   0 <= calculate_platform_fee amount /\ calculate_platform_fee amount <= amount).
Proof.
  unfold calculate_platform_fee. rewrite !ROUND_2_nearest. split.
  - intros H. apply hundredths_le, nearest_mono. lra.
  - intros H0. split.
    + apply Qle_trans with (inject_Z 0 / 100); [discriminate|].
      apply hundredths_le. change 0%Z with (nearest 0).
      apply nearest_mono. lra.
    + set (y := amount * (5 # 100) * 100).
      assert (Hy : 0 <= y) by (unfold y; lra).
      assert (Hk : inject_Z (nearest y) <= y + (1 # 2)).
      { unfold nearest. apply Qle_bool_iff in Hy. rewrite Hy. apply Qfloor_le. }
      assert (E : inject_Z (nearest y) / 100 == inject_Z (nearest y) * (1 # 100))
        by field.
      rewrite E.
      destruct (Qlt_le_dec y (1 # 2)) as [Hsmall | Hbig].
      * assert (Hz : (nearest y <= 0)%Z).
        { assert (Hlt : inject_Z (nearest y) < inject_Z 1)
            by (change (inject_Z 1) with 1; lra).
          rewrite <- Zlt_Qlt in Hlt. lia. }
        rewrite Zle_Qle in Hz. change (inject_Z 0) with 0 in Hz. lra.
      * unfold y in *. lra.
Qed.

Lemma calculate_platform_fee_monotone_witness :
  ((1999 # 100) <= (2500 # 100) /\ 0 <= (1999 # 100)) /\
  calculate_platform_fee (1999 # 100) <= calculate_platform_fee (2500 # 100) /\
  0 <= calculate_platform_fee (1999 # 100) /\
  calculate_platform_fee (1999 # 100) <= (1999 # 100).
Proof.
  assert (H1 : (1999 # 100) <= (2500 # 100)) by (unfold Qle; simpl; lia).
  assert (H0 : 0 <= (1999 # 100)) by (unfold Qle; simpl; lia).
  split; [exact (conj H1 H0)|]. split.
  - exact (proj1 (calculate_platform_fee_monotone (1999 # 100) (2500 # 100)) H1).
  - exact (proj2 (calculate_platform_fee_monotone (1999 # 100) (2500 # 100)) H0).
Defined.

Lemma nearest_compat x y : x == y -> nearest x = nearest y.
Proof.
  intros E. apply Z.le_antisymm; apply nearest_mono; rewrite E; apply Qle_refl.
Qed.

Lemma nearest_opp y : nearest (- y) = (- nearest y)%Z.
Proof.
  unfold nearest.
  destruct (Qle_bool 0 y) eqn:Hy, (Qle_bool 0 (- y)) eqn:Hn.
  - apply Qle_bool_iff in Hy, Hn.
    assert (E : y == 0) by lra.
    rewrite (Qfloor_comp (- y + (1 # 2)) (1 # 2)) by (rewrite E; reflexivity).
    rewrite (Qfloor_comp (y + (1 # 2)) (1 # 2)) by (rewrite E; reflexivity).
    reflexivity.
  - rewrite (Qfloor_comp (- - y + (1 # 2)) (y + (1 # 2))) by (rewrite Qopp_involutive; reflexivity).
    reflexivity.
  - rewrite Z.opp_involutive. reflexivity.
  - exfalso.
    assert (H1 : ~ 0 <= y) by (rewrite <- Qle_bool_iff; congruence).
    assert (H2 : ~ 0 <= - y) by (rewrite <- Qle_bool_iff; congruence).
    lra.
Qed.

(** The fee of a negated amount is the negated fee: ties are rounded away
    from zero on both sides. *)
Theorem calculate_platform_fee_opp (amount : numeric) :
  calculate_platform_fee (- amount) == - calculate_platform_fee amount.
Proof.
  unfold calculate_platform_fee. rewrite !ROUND_2_nearest.
  rewrite (nearest_compat (x := - amount * (5 # 100) * 100)
                          (y := - (amount * (5 # 100) * 100))) by ring.
  rewrite nearest_opp, inject_Z_opp. field.
Qed.

End PlatformFeeOrder.

(** ** Image urls: the usual case and the wildcard *)

Section ImageUrlCases.

(** Where the first [.webp] of a string is its ending, [REPLACE] rewrites
    the ending and nothing else. *)
Lemma REPLACE_last_only stem to :
  index 0 ".webp" (stem ++ ".webp") = Some (length stem) ->
  REPLACE (stem ++ ".webp") ".webp" to = stem ++ to.
Proof.
  induction stem as [|c stem IH]; intros Hi.
  - cbn [append]. rewrite REPLACE_equation_2. cbn. rewrite REPLACE_equation_1.
    apply append_empty_r.
  - cbn [append length] in *. rewrite REPLACE_equation_2.
    change (negb (".webp" =? "")) with true. rewrite andb_true_l.
    cbn [index] in Hi.
    destruct (prefix ".webp" (String c (stem ++ ".webp"))); [discriminate Hi|].
    destruct (index 0 ".webp" (stem ++ ".webp")) as [n|]; [|discriminate Hi].
    injection Hi as ->. now rewrite IH.
Qed.

(** A url that ends in [.webp], has no other [.webp] in it and carries no
    size yet gets the size put before the extension. *)
Theorem get_optimized_image_url_adds_size (stem size : text) :
  index 0 ".webp" (stem ++ ".webp") = Some (length stem) ->
  already_sized (stem ++ ".webp") = false ->
  get_optimized_image_url (stem ++ ".webp") size = stem ++ "_" ++ size ++ ".webp".
Proof.
  intros Hi Hs. unfold get_optimized_image_url. unfold already_sized in Hs.
  rewrite Hs.
  assert (Hw : LIKE (stem ++ ".webp") "%.webp" = true)
    by (apply (like_percent_literal ".webp" _ eq_refl); now exists stem).
  rewrite Hw. now apply REPLACE_last_only.
Qed.

Lemma get_optimized_image_url_adds_size_witness :
  (index 0 ".webp" ("https://cdn.example/a" ++ ".webp") =
     Some (length "https://cdn.example/a") /\
   already_sized ("https://cdn.example/a" ++ ".webp") = false) /\
  get_optimized_image_url ("https://cdn.example/a" ++ ".webp") "small" =
  "https://cdn.example/a" ++ "_" ++ "small" ++ ".webp".
Proof.
  assert (Hi : index 0 ".webp" ("https://cdn.example/a" ++ ".webp") =
               Some (length "https://cdn.example/a")) by reflexivity.
  assert (Hs : already_sized ("https://cdn.example/a" ++ ".webp") = false)
    by reflexivity.
  split; [exact (conj Hi Hs)|].
  exact (get_optimized_image_url_adds_size "https://cdn.example/a" "small" Hi Hs).
Defined.

(** The [_] of the four patterns stands for any character: a url whose name
    merely ends in [thumb.webp], [small.webp], [medium.webp] or [large.webp]
    after at least one character is taken to carry a size and comes back as
    it is, whatever size is asked for. *)
Theorem get_optimized_image_url_wildcard (pre : text) (c : ascii) (word size : text) :
  recognized_size word ->
  get_optimized_image_url (pre ++ String c (word ++ ".webp")) size =
  pre ++ String c (word ++ ".webp").
Proof.
  intros Hw. unfold get_optimized_image_url.
  assert (H : forall tail, literal tail = true ->
            LIKE (pre ++ String c tail) (String "%" (String "_" tail)) = true).
  { intros tail Hl. apply like_percent_underscore_literal; [exact Hl|]. now exists pre, c. }
  destruct Hw as [-> | [-> | [-> | ->]]]; cbn [append].
  - rewrite (H "thumb.webp" eq_refl). reflexivity.
  - rewrite (H "small.webp" eq_refl), orb_true_r. reflexivity.
  - rewrite (H "medium.webp" eq_refl), !orb_true_r. reflexivity.
  - rewrite (H "large.webp" eq_refl), !orb_true_r. reflexivity.
Qed.

Lemma get_optimized_image_url_wildcard_witness :
  recognized_size "small" /\
  get_optimized_image_url ("photos/too" ++ String "-" ("small" ++ ".webp")) "large" =
  "photos/too" ++ String "-" ("small" ++ ".webp").
Proof.
  assert (Hw : recognized_size "small") by (right; left; reflexivity).
  split; [exact Hw|].
  exact (get_optimized_image_url_wildcard "photos/too" "-" "large" Hw).
Defined.

End ImageUrlCases.

(** ** Carts: the two calls and the expired cart, with inputs *)

Section CartsWitnesses.



End CartsWitnesses.

(* ===================================================================== *)
(** * Further properties of the policies of section 5.2 *)
(* ===================================================================== *)

(** Unfolds the decision of a command on a table down to the expressions of
    the policies that apply. *)
Ltac policy_expressions :=
  cbv [permits rls_select rls_insert rls_delete using_ok check_ok
       policies_for policies filter existsb
       table_beq applies_to andb
       USING WITH_CHECK USING_WITH_CHECK
       policy_table policy_cmd policy_using policy_with_check
       passes effective_check].

Section PolicyCoverage.

Lemma public_status_of_policy r :
  is_true (sql_in (col r "status") [Text "active"; Text "sold"; Text "reserved"]) = true ->
  public_status r.
Proof.
  change [Text "active"; Text "sold"; Text "reserved"]
    with (map Text ["active"; "sold"; "reserved"]).
  rewrite sql_in_text. unfold public_status.
  intros (s & -> & [<- | [<- | [<- | []]]]); auto.
Qed.

Lemma existsb_never {A} (f : A -> bool) l :
  (forall x, f x = false) -> existsb f l = false.
Proof. intros H. induction l as [|x l IH]; simpl; [reflexivity | now rewrite H, IH]. Qed.

Lemma col_set_col_same name v r : col (set_col name v r) name = v.
Proof.
  induction r as [|[n w] r IH]; simpl.
  - now rewrite String.eqb_refl.
  - destruct (String.eqb_spec n name) as [->|Hne]; simpl.
    + now rewrite String.eqb_refl.
    + apply String.eqb_neq in Hne. now rewrite Hne.
Qed.

Lemma col_set_col_other name name' v r :
  name <> name' -> col (set_col name v r) name' = col r name'.
Proof.
  intros Hne. induction r as [|[n w] r IH]; simpl.
  - apply String.eqb_neq in Hne. now rewrite Hne.
  - destruct (String.eqb_spec n name) as [->|Hn]; simpl.
    + apply String.eqb_neq in Hne. now rewrite Hne.
    + now rewrite IH.
Qed.

(** A statement that reads the rows passes where the same statement would
    pass without reading them, and not everywhere it would. *)
Lemma permits_not_reading uid d t c old new :
  permits false uid d t c old new =
  match c with
  | SELECT => using_ok uid d t SELECT old
  | INSERT => check_ok uid d t INSERT new
  | UPDATE => using_ok uid d t UPDATE old && check_ok uid d t UPDATE new
  | DELETE => using_ok uid d t DELETE old
  end.
Proof.
  destruct c; unfold permits, rls_insert, rls_delete, rls_select, select_ok;
    cbn [negb orb]; rewrite ?andb_true_r; reflexivity.
Qed.

Lemma permits_reads reads uid d t c old new :
  permits reads uid d t c old new = true -> permits false uid d t c old new = true.
Proof.
  destruct reads; [|trivial].
  destruct c; unfold permits, rls_insert, rls_delete, select_ok; cbn [negb orb];
    rewrite ?andb_true_iff; tauto.
Qed.

(** A command is ever let through exactly where [open_command] says,
    whether the statement reads the rows or not: every command on the
    thirty-one other tables, [DELETE] outside listings and social media
    accounts, and every write to payouts, shipping events, the audit log
    and approvals beyond those listed are closed to every principal. *)
Theorem policies_cover_open_commands (reads : bool) (t : table) (c : command) :
  open_command t c = true <->
  exists uid d old new, permits reads uid d t c old new = true.
Proof.
  split.
  - intros H. exists (Some 9%N), db_all_roles, row_of_nine, row_of_nine.
    destruct reads; destruct t; destruct c; try discriminate H; reflexivity.
  - intros (uid & d & old & new & H). apply permits_reads in H.
    destruct t; destruct c; try reflexivity; discriminate H.
Qed.

(** A request without a principal ([auth.uid()] is NULL) reads profiles,
    social media accounts and public listings, and nothing else; it writes
    nothing. *)
Theorem anonymous_reads_public_only (reads : bool) (d : db) (t : table)
  (c : command) (old new : row) :
  permits reads None d t c old new = true ->
  c = SELECT /\
  (t = t_profiles \/ t = t_social_media_accounts \/
   (t = t_listings /\ public_status old)).
Proof.
  intros H. apply permits_reads in H. rewrite permits_not_reading in H.
  assert (Hadmin : forall r, is_true (exists_admin_profile None d r) = false)
    by (intros r; now rewrite exists_admin_profile_is_admin).
  assert (Howns : forall column r, is_true (owns column None d r) = false)
    by reflexivity.
  assert (Hnull : forall v, is_true (sql_eq v (auth_uid None)) = false)
    by (intros v; destruct v; reflexivity).
  assert (Horders : forall (f : order -> sql_bool) (g : order -> value),
            is_true (sql_exists (orders d)
              (fun o => sql_and (f o) (sql_eq (g o) (auth_uid None)))) = false).
  { intros f g. unfold sql_exists. rewrite is_true_Some. apply existsb_never.
    intros o. rewrite is_true_sql_and. destruct (g o); simpl; apply andb_false_r. }
  assert (Horders2 : forall (f : order -> sql_bool) (g h : order -> value),
            is_true (sql_exists (orders d)
              (fun o => sql_and (f o) (sql_or (sql_eq (g o) (auth_uid None))
                                              (sql_eq (h o) (auth_uid None))))) = false).
  { intros f g h. unfold sql_exists. rewrite is_true_Some. apply existsb_never.
    intros o. rewrite is_true_sql_and, is_true_sql_or.
    destruct (g o), (h o); simpl; apply andb_false_r. }
  destruct t; destruct c; try discriminate H;
    try (split; [reflexivity | tauto]);
    revert H; policy_expressions;
    rewrite ?is_true_sql_or, ?is_true_sql_and, ?Hadmin, ?Howns, ?Horders, ?Horders2,
            ?Hnull;
    cbn [orb andb]; try discriminate.
  rewrite orb_false_r. intros H. split; [reflexivity|]. right. right.
  split; [reflexivity|]. now apply public_status_of_policy.
Qed.

Lemma anonymous_reads_public_only_witness :
  permits true None empty_db t_listings SELECT
    [("id", Uuid 101%N); ("seller_id", Uuid 7%N); ("status", Text "sold")] [] = true /\
  SELECT = SELECT /\
  (t_listings = t_profiles \/ t_listings = t_social_media_accounts \/
   (t_listings = t_listings /\
    public_status [("id", Uuid 101%N); ("seller_id", Uuid 7%N); ("status", Text "sold")])).
Proof.
  assert (H : permits true None empty_db t_listings SELECT
                [("id", Uuid 101%N); ("seller_id", Uuid 7%N); ("status", Text "sold")] []
              = true) by reflexivity.
  split; [exact H|].
  exact (anonymous_reads_public_only true empty_db t_listings SELECT _ [] H).
Defined.

(** *** Listings *)

(** The [SELECT] policy of [listings] bears on the seller's own updates: a
    draft, which nobody is shown, is not found by [UPDATE listings SET ...
    WHERE id = ...] of its seller, and a public listing cannot be made a
    draft that way. *)
Example listings_update_own_draft :
  let publish := set_col "status" (Text "active") in
  let withdraw := set_col "status" (Text "draft") in
  rls_update true (Some 7%N) empty_db t_listings 50%Z draft_listing publish =
    row_not_seen /\
  rls_update false (Some 7%N) empty_db t_listings 50%Z draft_listing publish =
    row_updated (update_updated_at_column 50%Z (publish draft_listing)) /\
  rls_update true (Some 7%N) empty_db t_listings 50%Z (publish draft_listing) withdraw =
    rls_violation.
Proof. repeat split. Qed.

(** *** Profiles *)

Lemma owns_stamped column uid d now r :
  column <> "updated_at" ->
  owns column uid d (update_updated_at_column now r) = owns column uid d r.
Proof.
  intros Hne. unfold owns, update_updated_at_column, set_updated_at, row_updated_at.
  rewrite col_set_col_other; [reflexivity | congruence].
Qed.

(** The one update policy of [profiles] looks at [id] only: a principal
    rewrites any other column of their own row, the role among them; a row
    of somebody else is not seen; and a row cannot be handed to another
    [id]. *)
Theorem profiles_update_own_row (reads : bool) (u : uuid) (d : db)
  (now : timestamptz) (old : row) (set : row -> row) :
  (col old "id" = Uuid u -> col (set old) "id" = Uuid u ->
   rls_update reads (Some u) d t_profiles now old set =
   row_updated (update_updated_at_column now (set old))) /\
  (col old "id" = Uuid u -> col (set old) "id" <> Uuid u ->
   rls_update reads (Some u) d t_profiles now old set = rls_violation) /\
  (col old "id" <> Uuid u ->
   rls_update reads (Some u) d t_profiles now old set = row_not_seen).
Proof.
  assert (Hsel : forall r, select_ok reads (Some u) d t_profiles r = true)
    by (intros r; unfold select_ok; apply orb_true_r).
  assert (Hown : forall r, is_true (owns "id" (Some u) d r) = true <-> col r "id" = Uuid u).
  { intros r. unfold owns. cbn [auth_uid opt_value].
    destruct (col r "id") as [|x|s|t]; simpl; try (split; discriminate).
    destruct (N.eqb_spec u x) as [->|Hne]; simpl; split; congruence. }
  assert (Husing : using_ok (Some u) d t_profiles UPDATE old =
                   is_true (owns "id" (Some u) d old))
    by (policy_expressions; apply orb_false_r).
  assert (Hcheck : check_ok (Some u) d t_profiles UPDATE
                     (update_updated_at_column now (set old)) =
                   is_true (owns "id" (Some u) d (set old))).
  { policy_expressions. rewrite orb_false_r, owns_stamped; [reflexivity | discriminate]. }
  unfold rls_update. change (has_updated_at_trigger t_profiles) with true.
  cbv zeta iota. rewrite Husing, Hcheck, !Hsel, !andb_true_r.
  split; [|split].
  - intros Ho Hn. apply Hown in Ho, Hn. now rewrite Ho, Hn.
  - intros Ho Hn. apply Hown in Ho. rewrite Ho.
    destruct (is_true (owns "id" (Some u) d (set old))) eqn:E; [|reflexivity].
    apply Hown in E. contradiction.
  - intros Ho. destruct (is_true (owns "id" (Some u) d old)) eqn:E; [|reflexivity].
    apply Hown in E. contradiction.
Qed.

Lemma profiles_update_own_row_witness :
  (col profile_row_of_seven "id" = Uuid 7%N /\
   col (make_admin profile_row_of_seven) "id" = Uuid 7%N) /\
  rls_update true (Some 7%N) empty_db t_profiles 50%Z profile_row_of_seven make_admin =
  row_updated (update_updated_at_column 50%Z (make_admin profile_row_of_seven)).
Proof.
  assert (H1 : col profile_row_of_seven "id" = Uuid 7%N) by reflexivity.
  assert (H2 : col (make_admin profile_row_of_seven) "id" = Uuid 7%N) by reflexivity.
  split; [exact (conj H1 H2)|].
  exact (proj1 (profiles_update_own_row true 7%N empty_db 50%Z profile_row_of_seven
                  make_admin) H1 H2).
Defined.

Example profiles_update_role_stored :
  col (row_after profile_row_of_seven
         (rls_update true (Some 7%N) empty_db t_profiles 50%Z profile_row_of_seven
            make_admin))
      "role" = Text "admin".
Proof. reflexivity. Qed.

(** *** Timestamps *)

Lemma row_updated_inv (u c : bool) (r new : row) :
  (if u then if c then row_updated r else rls_violation else row_not_seen) =
  row_updated new -> new = r /\ u = true /\ c = true.
Proof. destruct u, c; intros [=]; auto. Qed.

Lemma stamped_updated_at now (r : row) :
  col (update_updated_at_column now r) "updated_at" = Time now.
Proof.
  unfold update_updated_at_column, set_updated_at, row_updated_at.
  cbn [opt_value]. apply col_set_col_same.
Qed.

(** On the six tables with an [updated_at] trigger, a row an update stores
    carries the time of the update, whatever the statement assigned to
    [updated_at]. *)
Theorem update_stamps_updated_at (reads : bool) (uid : option uuid) (d : db)
  (t : table) (now : timestamptz) (old new : row) (set : row -> row) :
  has_updated_at_trigger t = true ->
  rls_update reads uid d t now old set = row_updated new ->
  col new "updated_at" = Time now.
Proof.
  intros Ht H.
  assert (E : rls_update reads uid d t now old set =
    if using_ok uid d t UPDATE old && select_ok reads uid d t old then
      if check_ok uid d t UPDATE (update_updated_at_column now (set old)) &&
         select_ok reads uid d t (update_updated_at_column now (set old))
      then row_updated (update_updated_at_column now (set old)) else rls_violation
    else row_not_seen).
  { unfold rls_update. rewrite Ht. reflexivity. }
  rewrite E in H.
  apply row_updated_inv in H as (-> & _ & _). apply stamped_updated_at.
Qed.

Lemma update_stamps_updated_at_witness :
  let backdate := set_col "updated_at" (Time 1%Z) in
  (has_updated_at_trigger t_profiles = true /\
   rls_update true (Some 7%N) empty_db t_profiles 50%Z profile_row_of_seven backdate =
   row_updated (update_updated_at_column 50%Z (backdate profile_row_of_seven))) /\
  col (update_updated_at_column 50%Z (backdate profile_row_of_seven)) "updated_at" =
  Time 50%Z.
Proof.
  intros backdate.
  assert (Ht : has_updated_at_trigger t_profiles = true) by reflexivity.
  assert (H : rls_update true (Some 7%N) empty_db t_profiles 50%Z profile_row_of_seven
                backdate =
              row_updated (update_updated_at_column 50%Z (backdate profile_row_of_seven)))
    by reflexivity.
  split; [exact (conj Ht H)|].
  exact (update_stamps_updated_at true (Some 7%N) empty_db t_profiles 50%Z
           profile_row_of_seven backdate Ht H).
Defined.

(** *** Brand verification requests *)

(** A principal who is not an admin can update a request only so that it is
    theirs and pending before and after: the status cannot be moved by its
    owner.  An insertion is checked for the owner alone, whatever status the
    new request claims. *)
Theorem brand_request_status_guard (reads : bool) (uid : option uuid) (d : db)
  (now : timestamptz) (old new : row) (set : row -> row) :
  (principal_is_admin uid d = false ->
   rls_update reads uid d t_brand_verification_requests now old set = row_updated new ->
   (is_owner uid old "user_id" /\ col old "verification_status" = Text "pending") /\
   (is_owner uid new "user_id" /\ col new "verification_status" = Text "pending")) /\
  (is_owner uid new "user_id" ->
   rls_insert reads uid d t_brand_verification_requests new = true).
Proof.
  assert (Hown : forall r, is_true (owns "user_id" uid d r) = true <->
                           is_owner uid r "user_id").
  { intros r. unfold owns, is_owner. destruct uid as [u|]; cbn [auth_uid opt_value].
    - destruct (col r "user_id") as [|x|s|t]; simpl;
        try (split; [discriminate | intros (u' & _ & [=])]).
      destruct (N.eqb_spec u x) as [->|Hne]; simpl; split.
      + intros _. now exists x.
      + reflexivity.
      + discriminate.
      + intros (u' & [= ->] & [= ->]). contradiction.
    - simpl. split; [discriminate | intros (u' & [=] & _)]. }
  split.
  - intros Hna H. unfold rls_update in H.
    change (has_updated_at_trigger t_brand_verification_requests) with true in H.
    cbv zeta iota in H.
    destruct (using_ok uid d t_brand_verification_requests UPDATE old) eqn:Hu;
      [|discriminate H].
    destruct (check_ok uid d t_brand_verification_requests UPDATE
                (update_updated_at_column now (set old))) eqn:Hc;
      cbn [andb] in H;
      destruct (select_ok reads uid d t_brand_verification_requests old);
      try discriminate H.
    destruct (select_ok reads uid d t_brand_verification_requests
                (update_updated_at_column now (set old))); [|discriminate H].
    injection H as <-.
    revert Hu Hc. policy_expressions.
    rewrite !exists_admin_profile_is_admin, Hna, !orb_false_r, !is_true_sql_and,
      !andb_true_iff, !Hown, !is_true_sql_eq_text.
    tauto.
  - intros Ho. apply Hown in Ho.
    unfold rls_insert, select_ok. policy_expressions.
    rewrite is_true_sql_or, Ho. cbn [orb]. now rewrite orb_true_r.
Qed.

Lemma brand_request_status_guard_witness :
  let keep := set_col "brand_name" (Text "Seven") in
  (principal_is_admin (Some 7%N) empty_db = false /\
   rls_update true (Some 7%N) empty_db t_brand_verification_requests 50%Z
     (brand_request_of_seven "pending") keep =
   row_updated (update_updated_at_column 50%Z (keep (brand_request_of_seven "pending"))) /\
   is_owner (Some 7%N) (brand_request_of_seven "approved") "user_id") /\
  col (update_updated_at_column 50%Z (keep (brand_request_of_seven "pending")))
      "verification_status" = Text "pending" /\
  rls_insert true (Some 7%N) empty_db t_brand_verification_requests
    (brand_request_of_seven "approved") = true.
Proof.
  intros keep.
  assert (Hna : principal_is_admin (Some 7%N) empty_db = false) by reflexivity.
  assert (H : rls_update true (Some 7%N) empty_db t_brand_verification_requests 50%Z
                (brand_request_of_seven "pending") keep =
              row_updated (update_updated_at_column 50%Z
                             (keep (brand_request_of_seven "pending"))))
    by reflexivity.
  assert (Ho : is_owner (Some 7%N) (brand_request_of_seven "approved") "user_id")
    by (exists 7%N; split; reflexivity).
  split; [exact (conj Hna (conj H Ho))|]. split.
  - exact (proj2 (proj2 (proj1 (brand_request_status_guard true (Some 7%N) empty_db
                                  50%Z (brand_request_of_seven "pending") _ keep)
                           Hna H))).
  - exact (proj2 (brand_request_status_guard true (Some 7%N) empty_db 50%Z [] _
                    (fun r => r)) Ho).
Defined.

Example brand_request_self_approval_refused :
  rls_update true (Some 7%N) empty_db t_brand_verification_requests 50%Z
    (brand_request_of_seven "pending")
    (set_col "verification_status" (Text "approved")) = rls_violation.
Proof. reflexivity. Qed.

(** *** Orders *)

(** An order is shown to its buyer and its seller and to nobody else, and a
    principal who is neither cannot update it, whatever the update. *)
Theorem orders_only_for_parties (reads : bool) (uid : option uuid) (d : db)
  (now : timestamptz) (o : order) (set : row -> row) :
  (rls_select uid d t_orders (row_of_order o) = true <->
   uid = Some (o_buyer_id o) \/ uid = Some (o_seller_id o)) /\
  (uid <> Some (o_buyer_id o) -> uid <> Some (o_seller_id o) ->
   rls_update reads uid d t_orders now (row_of_order o) set = row_not_seen).
Proof.
  split.
  - policy_expressions. rewrite orb_false_r, is_true_sql_or.
    rewrite (is_true_owns "buyer_id" uid d (row_of_order o) (u := o_buyer_id o) eq_refl).
    rewrite (is_true_owns "seller_id" uid d (row_of_order o) (u := o_seller_id o) eq_refl).
    now rewrite orb_true_iff, !uid_eqb_eq.
  - intros Hb Hs. unfold rls_update. rewrite orders_update_using.
    assert (Eb : uid_eqb uid (o_buyer_id o) = false).
    { destruct (uid_eqb uid (o_buyer_id o)) eqn:E; [|reflexivity].
      apply uid_eqb_eq in E. contradiction. }
    assert (Es : uid_eqb uid (o_seller_id o) = false).
    { destruct (uid_eqb uid (o_seller_id o)) eqn:E; [|reflexivity].
      apply uid_eqb_eq in E. contradiction. }
    now rewrite Eb, Es.
Qed.

Lemma orders_only_for_parties_witness :
  (Some 9%N <> Some (o_buyer_id (sample_order paid)) /\
   Some 9%N <> Some (o_seller_id (sample_order paid))) /\
  rls_update true (Some 9%N) db_with_admin t_orders 50%Z
    (row_of_order (sample_order paid)) (cancel_order 50%Z) = row_not_seen.
Proof.
  assert (Hb : Some 9%N <> Some (o_buyer_id (sample_order paid))) by discriminate.
  assert (Hs : Some 9%N <> Some (o_seller_id (sample_order paid))) by discriminate.
  split; [exact (conj Hb Hs)|].
  exact (proj2 (orders_only_for_parties true (Some 9%N) db_with_admin 50%Z
                  (sample_order paid) (cancel_order 50%Z)) Hb Hs).
Defined.

End PolicyCoverage.

(* ===================================================================== *)
(** * Further properties of the bootstrap *)
(* ===================================================================== *)

Section BootstrapConditions.

Context {L : Locale}.

Local Open Scope tx_scope.

Lemma bind_run {A B} (m : tx A) (k : A -> tx B) d d1 a :
  m d = (d1, Ok a) -> bind m k d = k a d1.
Proof. unfold bind. now intros ->. Qed.

Lemma varchar_fits n column s d :
  fits n s = true -> varchar n column s d = (d, Ok (first_chars n s)).
Proof.
  unfold fits, varchar. destruct (CHAR_LENGTH s <=? n)%nat eqn:Hl; simpl.
  - intros _. apply Nat.leb_le in Hl. now rewrite first_chars_whole.
  - now intros ->.
Qed.

Lemma varchar_ok_fits n column s d d' s' :
  varchar n column s d = (d', Ok s') -> fits n s = true.
Proof.
  unfold fits, varchar. destruct (CHAR_LENGTH s <=? n)%nat; [reflexivity|]. simpl.
  destruct (all_spaces (drop (bytes_of_chars n s) s)); [reflexivity | discriminate].
Qed.

Lemma bind_bind {A B C} (m : tx A) (k1 : A -> tx B) (k2 : B -> tx C) d :
  bind (bind m k1) k2 d = bind m (fun a => bind (k1 a) k2) d.
Proof. unfold bind. destruct (m d) as [d1 [a|e]]; reflexivity. Qed.

Lemma bind_read {A B} (f : db -> A) (k : A -> tx B) d : bind (read f) k d = k (f d) d.
Proof. reflexivity. Qed.

Lemma bind_write {B} (f : db -> db) (k : unit -> tx B) d :
  bind (write f) k d = k tt (f d).
Proof. reflexivity. Qed.

Lemma bind_ret {A B} (a : A) (k : A -> tx B) d : bind (ret a) k d = k a d.
Proof. reflexivity. Qed.

Lemma bind_require {B} b e (k : unit -> tx B) d :
  bind (require b e) k d = if b then k tt d else (d, Err e).
Proof. destruct b; reflexivity. Qed.

Lemma bind_not_null {A B} column (a : A) (k : A -> tx B) d :
  bind (not_null column (Some a)) k d = k a d.
Proof. reflexivity. Qed.

Lemma bind_varchar {B} n column s (k : text -> tx B) d :
  fits n s = true -> bind (varchar n column s) k d = k (first_chars n s) d.
Proof. intros H. unfold bind. now rewrite (@varchar_fits n column s d H). Qed.

Lemma existsb_append_row {A} (f : A -> bool) l r :
  f r = true -> existsb f (append_row r l) = true.
Proof.
  intros H. unfold append_row. rewrite existsb_app. simpl. rewrite H.
  now rewrite orb_true_r.
Qed.

(** The bootstrap of a principal goes through exactly when the principal is
    new, has an email that fits its column of 255 characters, the username
    derived from it fits the 30 characters of its column and is free, the id
    drawn for the cart is free, and no profile, cart or stats row stands in
    the way; the database it leaves is then the old one with the four new
    rows. *)
Theorem create_principal_succeeds_iff (u : auth_user) (fresh_cart_id : uuid)
  (now : timestamptz) (d : db) :
  (snd (create_principal u fresh_cart_id now d) = Ok tt <->
   bootstrap_ready u fresh_cart_id d = true) /\
  (bootstrap_ready u fresh_cart_id d = true ->
   exists e, au_email u = Some e /\
     fst (create_principal u fresh_cart_id now d) =
     bootstrapped u e fresh_cart_id now d).
Proof.
  assert (Hrun : bootstrap_ready u fresh_cart_id d = true ->
            exists e, au_email u = Some e /\
              create_principal u fresh_cart_id now d =
              (bootstrapped u e fresh_cart_id now d, Ok tt)).
  { unfold bootstrap_ready. rewrite !andb_true_iff, !negb_true_iff.
    intros [[[[[Hnew Hmail] Hprof] Hcart] Hcartu] Hstats].
    destruct (au_email u) as [e|] eqn:He; [|discriminate Hmail].
    apply andb_true_iff in Hmail as [Hmail Hname].
    apply andb_true_iff in Hmail as [Hfe Hfu]. apply negb_true_iff in Hname.
    exists e. split; [reflexivity|].
    unfold known_principal, profile_exists, cart_exists, username_taken in *.
    assert (Hp1 : forall l r, existsb (fun x : profile => N.eqb (p_id x) (au_id u))
                                (append_row (default_profile (au_id u) l r now)
                                            (profiles d)) = true)
      by (intros; apply existsb_append_row, N.eqb_refl).
    assert (Ha1 : existsb (fun x => N.eqb (au_id x) (au_id u))
                    (append_row u (auth_users d)) = true)
      by (apply existsb_append_row, N.eqb_refl).
    assert (Hve : forall B c (k : text -> tx B) d',
              bind (varchar 255 c e) k d' = k (first_chars 255 e) d')
      by (intros; now apply bind_varchar).
    assert (Hvu : forall B c (k : text -> tx B) d',
              bind (varchar 30 c (default_username e)) k d' =
              k (first_chars 30 (default_username e)) d')
      by (intros; now apply bind_varchar).
    unfold create_principal, atomically, handle_new_user, insert_auth_users,
      insert_profiles, insert_shopping_carts, insert_user_stats_summary.
    rewrite He. cbn [option_map]. fold (default_username e).
    repeat (rewrite ?bind_bind, ?bind_read, ?bind_write, ?bind_ret,
              ?bind_require, ?bind_not_null,
              ?Hve, ?Hvu;
            cbn [profiles shopping_carts user_stats_summary auth_users
                 with_auth_users with_profiles with_shopping_carts
                 with_user_stats_summary];
            fold (default_profile (au_id u) (first_chars 255 e)
                    (first_chars 30 (default_username e)) now);
            rewrite ?Hnew, ?Hprof, ?Hname, ?Hcart, ?Hcartu, ?Hstats, ?Hp1, ?Ha1;
            cbn [negb]).
    reflexivity. }
  split; [split|].
  - intros H.
    destruct (create_principal u fresh_cart_id now d) as [d' [[]|e]] eqn:Hc;
      [|discriminate H].
    unfold create_principal, handle_new_user, insert_auth_users, insert_profiles,
      insert_shopping_carts, insert_user_stats_summary in Hc.
    tx_steps.
    repeat match goal with
           | H : varchar _ _ _ _ = (_, Ok _) |- _ =>
               pose proof (varchar_ok_fits _ _ _ _ H);
               apply varchar_ok in H; destruct H as [? ?]; subst
           end.
    tx_steps.
    cbn [profiles shopping_carts user_stats_summary cart_items auth_users
         with_auth_users with_profiles with_shopping_carts
         with_user_stats_summary] in *.
    match goal with
    | He : au_email u = Some ?e, Hn : option_map _ (au_email u) = Some _ |- _ =>
        rewrite He in Hn; injection Hn as <-
    end.
    unfold bootstrap_ready, known_principal, profile_exists, cart_exists,
      username_taken, default_username.
    repeat match goal with
           | H : _ = true |- _ => rewrite H
           | H : au_email u = Some _ |- _ => rewrite H
           end.
    reflexivity.
  - intros H. destruct (Hrun H) as (e & _ & ->). reflexivity.
  - intros H. destruct (Hrun H) as (e & He & ->). now exists e.
Qed.

(** *** The derived username *)

Lemma lower_char_not_upper c : is_upper (lower_char c) = false.
Proof.
  destruct c as [[] [] [] [] [] [] [] []]; reflexivity.
Qed.

Lemma lower_char_at c : Ascii.eqb (lower_char c) "@" = Ascii.eqb c "@".
Proof.
  destruct c as [[] [] [] [] [] [] [] []]; reflexivity.
Qed.

Lemma lower_ascii_length s : length (lower_ascii s) = length s.
Proof. induction s as [|c s IH]; simpl; [reflexivity | now rewrite IH]. Qed.

Lemma lower_ascii_without_upper s : without_upper (lower_ascii s) = true.
Proof.
  induction s as [|c s IH]; simpl; [reflexivity|].
  now rewrite lower_char_not_upper, IH.
Qed.

Lemma lower_ascii_without_at s :
  without_char "@" (lower_ascii s) = without_char "@" s.
Proof.
  induction s as [|c s IH]; simpl; [reflexivity|].
  now rewrite lower_char_at, IH.
Qed.

(** The first field of a split at [@] has no [@], is no longer than the
    whole, and is of ASCII when the whole is. *)
Lemma first_field_without_at s :
  without_char "@" (SPLIT_PART s "@" 1) = true /\
  length (SPLIT_PART s "@" 1) <= length s /\
  (is_ascii s = true -> is_ascii (SPLIT_PART s "@" 1) = true).
Proof.
  unfold SPLIT_PART. change (Nat.pred (Pos.to_nat 1)) with 0.
  cbn [split_part_from]. change ("@" =? "") with false. cbv iota.
  induction s as [|c s IH].
  - split; [reflexivity|]. split; [reflexivity | intros _; reflexivity].
  - cbn [index]. rewrite prefix_at.
    destruct (Ascii.eqb c "@") eqn:Hc.
    + split; [reflexivity|]. split; [simpl; lia | intros _; reflexivity].
    + destruct IH as (IH1 & IH2 & IH3).
      destruct (index 0 "@" s) as [i|].
      * cbn [substring without_char length is_ascii]. rewrite Hc. cbn [negb andb].
        split; [exact IH1|]. split; [lia|].
        intros Ha. apply andb_true_iff in Ha as [Ha1 Ha2].
        now rewrite Ha1, IH3.
      * cbn [without_char length is_ascii]. rewrite Hc. cbn [negb andb].
        split; [exact IH1|]. split; [lia|]. intros Ha. exact Ha.
Qed.

(** Of an email of ASCII the username the bootstrap derives has no [@] and
    no capital letter, and is never longer than the email. *)
Theorem default_username_shape (e : text) :
  is_ascii e = true ->
  without_char "@" (default_username e) = true /\
  without_upper (default_username e) = true /\
  length (default_username e) <= length e.
Proof.
  intros Ha. unfold default_username.
  destruct (first_field_without_at e) as (H1 & H2 & H3).
  rewrite (LOWER_ascii _ (H3 Ha)).
  split; [now rewrite lower_ascii_without_at|].
  split; [apply lower_ascii_without_upper | now rewrite lower_ascii_length].
Qed.

End BootstrapConditions.

Section BootstrapConditionsRuns.

Local Open Scope string_scope.

Lemma create_principal_succeeds_iff_witness :
  (@bootstrap_ready C_locale sample_user 77%N empty_db) = true /\
  exists e, au_email sample_user = Some e /\
    fst (@create_principal C_locale sample_user 77%N 1000%Z empty_db) =
    (@bootstrapped C_locale sample_user e 77%N 1000%Z empty_db).
Proof.
  assert (H : (@bootstrap_ready C_locale sample_user 77%N empty_db) = true)
    by reflexivity.
  split; [exact H|].
  exact (proj2 (@create_principal_succeeds_iff C_locale sample_user 77%N 1000%Z
                  empty_db) H).
Defined.

Lemma default_username_shape_witness :
  is_ascii "Bea.Stone@Example.com" = true /\
  (without_char "@" (@default_username C_locale "Bea.Stone@Example.com") = true /\
   without_upper (@default_username C_locale "Bea.Stone@Example.com") = true /\
   (length (@default_username C_locale "Bea.Stone@Example.com") <=
    length "Bea.Stone@Example.com")%nat).
Proof.
  assert (H : is_ascii "Bea.Stone@Example.com" = true) by reflexivity.
  split; [exact H|].
  exact (@default_username_shape C_locale "Bea.Stone@Example.com" H).
Defined.

End BootstrapConditionsRuns.

(* ===================================================================== *)
(** * Further properties of the setup completion trigger *)
(* ===================================================================== *)

Section SetupStatements.

Local Open Scope tx_scope.

Lemma keeps_completion_same u d d' : profiles d' = profiles d -> keeps_completion u d d'.
Proof.
  unfold keeps_completion. intros ->.
  induction (profiles d) as [|p ps IH]; constructor; [tauto | exact IH].
Qed.

Lemma keeps_completion_trans u d d1 d2 :
  keeps_completion u d d1 -> keeps_completion u d1 d2 -> keeps_completion u d d2.
Proof.
  unfold keeps_completion. generalize (profiles d) (profiles d1) (profiles d2).
  intros l l1 l2 H. revert l2. induction H as [|p p1 l l1 (Hid & Hf & Ho) _ IH];
    intros l2 H2; inversion H2 as [|p1' p2 l1' l2' (Hid2 & Hf2 & Ho2) H2']; subst;
    constructor; [|now apply IH].
  split; [congruence|]. split; [tauto|].
  intros Hne. rewrite Ho2 by congruence. now apply Ho.
Qed.

Lemma keeps_completion_trigger NEW now d :
  keeps_completion (sp_user_id NEW) d (fst (update_setup_completion NEW now d)) /\
  profile_setup_progress (fst (update_setup_completion NEW now d)) =
  profile_setup_progress d.
Proof.
  rewrite update_setup_completion_run. cbn [fst].
  destruct (fires NEW d); [|split; [now apply keeps_completion_same | reflexivity]].
  split; [|reflexivity]. unfold keeps_completion. cbn [profiles with_profiles].
  induction (profiles d) as [|p ps IH]; constructor; [|exact IH].
  rewrite complete_for_id, complete_for_flag. unfold complete_for.
  destruct (N.eqb_spec (p_id p) (sp_user_id NEW)); intuition congruence.
Qed.

Lemma for_each_triggers u now (f : setup_progress -> setup_progress) :
  forall hits d,
    (forall r, In r hits -> sp_user_id (f r) = u) ->
    exists d', for_each (fun r => update_setup_completion (f r) now ;; ret tt) hits d =
               (d', Ok tt) /\ keeps_completion u d d'.
Proof.
  induction hits as [|r hits IH]; intros d Hu.
  - exists d. split; [reflexivity | now apply keeps_completion_same].
  - cbn [for_each]. rewrite bind_bind.
    destruct (keeps_completion_trigger (f r) now d) as [Hk _].
    rewrite (Hu r (or_introl eq_refl)) in Hk.
    pose proof (update_setup_completion_run (f r) now d) as Hrun.
    set (d1 := fst (update_setup_completion (f r) now d)) in *.
    assert (E : update_setup_completion (f r) now d = (d1, Ok (f r))).
    { rewrite Hrun. unfold d1. rewrite Hrun. reflexivity. }
    erewrite bind_run by exact E. rewrite bind_ret.
    destruct (IH d1 (fun x Hx => Hu x (or_intror Hx))) as (d' & Hrest & Hk').
    exists d'. split; [exact Hrest|]. now apply keeps_completion_trans with d1.
Qed.

(** The two statements by which a step of the setup is written neither
    undo a completed setup nor reach another user's profile.
    [UPDATE profile_setup_progress SET completed = c, completed_at = t
    WHERE user_id = u AND step_name = s], which touches no constrained
    column, never raises and keeps every profile's [setup_completed] once
    true, changing only profiles of [u]; [INSERT INTO profile_setup_progress
    (id, user_id, step_name, completed, completed_at)] does the same when it
    goes through and changes nothing when it raises.  Updates that set
    other columns are not covered. *)
Theorem setup_progress_writes_keep_completion (id u : uuid) (step : text)
  (completed : option bool) (completed_at : option timestamptz)
  (now : timestamptz) (d : db) :
  (exists d',
     update_profile_setup_progress u step completed completed_at now d = (d', Ok tt) /\
     keeps_completion u d d') /\
  match insert_profile_setup_progress id u step completed completed_at now d with
  | (d', Ok _) => keeps_completion u d d'
  | (d', Err _) => d' = d
  end.
Proof.
  split.
  - unfold update_profile_setup_progress. cbv zeta.
    set (rw := fun r => update_updated_at_column now
                          (set_completed completed completed_at r)).
    set (hits := filter (is_step u step) (profile_setup_progress d)).
    set (d0 := with_profile_setup_progress
                 (map (fun r => if is_step u step r then rw r else r)) d).
    destruct (@for_each_triggers u now rw hits d0) as (d' & Hrun & Hk).
    { intros r Hr. apply filter_In in Hr as [_ Hr]. unfold is_step in Hr.
      apply andb_true_iff in Hr as [Hr _]. now apply N.eqb_eq in Hr. }
    exists d'. split.
    + unfold atomically. rewrite bind_read, bind_write.
      unfold d0, hits, rw in Hrun |- *. cbv beta in Hrun |- *. now rewrite Hrun.
    + apply keeps_completion_trans with d0; [|exact Hk].
      now apply keeps_completion_same.
  - destruct (insert_profile_setup_progress id u step completed completed_at now d)
      as [d' [[]|e]] eqn:H.
    + unfold insert_profile_setup_progress in H. tx_steps.
      match goal with
      | H : update_setup_completion ?NEW now ?d0 = (_, Ok _) |- _ =>
          destruct (keeps_completion_trigger NEW now d0) as [Hk _];
          rewrite H in Hk; cbn [fst sp_user_id] in Hk;
          apply keeps_completion_trans with d0; [|exact Hk]
      end.
      now apply keeps_completion_same.
    + now apply atomically_err in H.
Qed.

End SetupStatements.

(* ===================================================================== *)
(** * Properties of [promote_to_admin] *)
(* ===================================================================== *)

Section Promotion.

Local Open Scope fn_scope.

Lemma fn_bind_bind {A B C} (m : fn A) (k1 : A -> fn B) (k2 : B -> fn C) s :
  fn_bind (fn_bind m k1) k2 s = fn_bind m (fun a => fn_bind (k1 a) k2) s.
Proof. unfold fn_bind. destruct (m s) as [s1 [a|e]]; reflexivity. Qed.

Lemma fn_bind_read {A B} (f : admin_db -> A) (k : A -> fn B) s :
  fn_bind (fn_read f) k s = k (f s) s.
Proof. reflexivity. Qed.

Lemma fn_bind_write {B} (f : admin_db -> admin_db) (k : unit -> fn B) s :
  fn_bind (fn_write f) k s = k tt (f s).
Proof. reflexivity. Qed.

Lemma fn_bind_ret {A B} (a : A) (k : A -> fn B) s : fn_bind (fn_ret a) k s = k a s.
Proof. reflexivity. Qed.

Lemma fn_bind_require {B} b e (k : unit -> fn B) s :
  fn_bind (fn_require b e) k s = if b then k tt s else (s, Failed (violated e)).
Proof. destruct b; reflexivity. Qed.

Lemma is_admin_after_role target now l :
  existsb (fun p => N.eqb (p_id p) target &&
                    match p_role p with
                    | Some r => user_role_eqb r role_admin
                    | None => false
                    end)
          (map (fun r => if N.eqb (p_id r) target
                         then update_updated_at_column now (set_role_admin r)
                         else r) l) =
  existsb (fun p => N.eqb (p_id p) target) l.
Proof.
  induction l as [|p l IH]; [reflexivity|]. cbn [map existsb]. rewrite IH.
  f_equal. destruct (N.eqb (p_id p) target) eqn:E; cbn.
  - now rewrite E.
  - now rewrite E.
Qed.

(** Whoever calls it, as long as they are signed in: [promote_to_admin]
    checks neither the role of the caller nor anything else about them.  For
    an email that names a user it makes that user's profile an admin
    ([is_admin] holds afterwards), leaves the flag [is_admin] of every profile
    as it was, leaves the other profiles alone and logs one approval in the
    caller's name. *)
Theorem promote_to_admin_by_anyone (user_email : text) (caller target fresh_id : uuid)
  (now : timestamptz) (s : admin_db) :
  select_user_by_email user_email s = Some target ->
  known_principal caller (base s) = true ->
  approval_exists fresh_id s = false ->
  let s' := promoted target caller fresh_id user_email now s in
  select_promote_to_admin user_email (Some caller) fresh_id now s = (s', Done tt) /\
  is_admin target (base s') = profile_exists target (base s) /\
  map p_is_admin (profiles (base s')) = map p_is_admin (profiles (base s)) /\
  filter (fun p => negb (N.eqb (p_id p) target)) (profiles (base s')) =
  filter (fun p => negb (N.eqb (p_id p) target)) (profiles (base s)) /\
  admin_approvals s' =
  append_row (promotion_record fresh_id target caller user_email now)
             (admin_approvals s).
Proof.
  intros Ht Hc Hf s'. split; [|split; [|split; [|split]]].
  - unfold approval_exists in Hf. unfold known_principal in Hc.
    unfold select_promote_to_admin, fn_atomically, promote_to_admin.
    rewrite fn_bind_read, Ht.
    unfold update_profiles_role_admin, insert_admin_approvals.
    repeat (rewrite ?fn_bind_bind, ?fn_bind_read, ?fn_bind_write, ?fn_bind_ret,
              ?fn_bind_require;
            cbn [admin_approvals with_base base with_profiles auth_users
                 existsb String.eqb Ascii.eqb Bool.eqb request_types actions orb andb];
            rewrite ?Hf, ?Hc; cbn [negb]).
    reflexivity.
  - unfold s', promoted, is_admin, profile_exists.
    cbn [base with_admin_approvals with_base profiles with_profiles].
    apply is_admin_after_role.
  - unfold s', promoted. cbn [base with_admin_approvals with_base profiles with_profiles].
    rewrite map_map. apply map_ext. intros p.
    destruct (N.eqb (p_id p) target); reflexivity.
  - unfold s', promoted. cbn [base with_admin_approvals with_base profiles with_profiles].
    induction (profiles (base s)) as [|p l IH]; [reflexivity|].
    cbn [map filter]. destruct (N.eqb (p_id p) target) eqn:E; cbn.
    + rewrite E. cbn. exact IH.
    + rewrite E. cbn. now rewrite IH.
  - reflexivity.
Qed.

Lemma promote_to_admin_by_anyone_witness :
  (select_user_by_email "sam@example.com" db_two_users = Some 2%N /\
   known_principal 2%N (base db_two_users) = true /\
   approval_exists 60%N db_two_users = false) /\
  select_promote_to_admin "sam@example.com" (Some 2%N) 60%N 900%Z db_two_users =
    (promoted 2%N 2%N 60%N "sam@example.com" 900%Z db_two_users, Done tt) /\
  is_admin 2%N (base (promoted 2%N 2%N 60%N "sam@example.com" 900%Z db_two_users)) =
    profile_exists 2%N (base db_two_users).
Proof.
  assert (Ht : select_user_by_email "sam@example.com" db_two_users = Some 2%N)
    by reflexivity.
  assert (Hc : known_principal 2%N (base db_two_users) = true) by reflexivity.
  assert (Hf : approval_exists 60%N db_two_users = false) by reflexivity.
  split; [exact (conj Ht (conj Hc Hf))|].
  pose proof (@promote_to_admin_by_anyone "sam@example.com" 2%N 2%N 60%N 900%Z
                db_two_users Ht Hc Hf) as H.
  cbv zeta in H. exact (conj (proj1 H) (proj1 (proj2 H))).
Defined.

(** [promote_to_admin] fails, and leaves everything as it was, when no user
    has the email (it raises its own exception) and when there is no signed-in
    caller, as in a migration or the SQL editor: [auth.uid()] is then NULL,
    which [admin_approvals.admin_id] refuses, and the role already written is
    taken back. *)
Theorem promote_to_admin_failures (user_email : text) (uid : option uuid)
  (target fresh_id : uuid) (now : timestamptz) (s : admin_db) :
  (select_user_by_email user_email s = None ->
   select_promote_to_admin user_email uid fresh_id now s =
   (s, Failed (raised ("User with email " ++ user_email ++ " not found")))) /\
  (select_user_by_email user_email s = Some target ->
   select_promote_to_admin user_email None fresh_id now s =
   (s, Failed (violated (not_null_violation "admin_id"))) /\
   fst (promote_to_admin user_email None fresh_id now s) =
   with_base (with_profiles (map (fun r =>
     if N.eqb (p_id r) target
     then update_updated_at_column now (set_role_admin r)
     else r))) s).
Proof.
  split; intros Ht;
    unfold select_promote_to_admin, fn_atomically, promote_to_admin;
    rewrite !fn_bind_read, Ht.
  - reflexivity.
  - split; reflexivity.
Qed.

Lemma promote_to_admin_failures_witness :
  (select_user_by_email "nobody@example.com" db_two_users = None /\
   select_user_by_email "sam@example.com" db_two_users = Some 2%N) /\
  select_promote_to_admin "nobody@example.com" (Some 1%N) 60%N 900%Z db_two_users =
    (db_two_users,
     Failed (raised ("User with email " ++ "nobody@example.com" ++ " not found"))) /\
  select_promote_to_admin "sam@example.com" None 60%N 900%Z db_two_users =
    (db_two_users, Failed (violated (not_null_violation "admin_id"))).
Proof.
  assert (Hn : select_user_by_email "nobody@example.com" db_two_users = None)
    by reflexivity.
  assert (Ht : select_user_by_email "sam@example.com" db_two_users = Some 2%N)
    by reflexivity.
  split; [exact (conj Hn Ht)|]. split.
  - exact (proj1 (promote_to_admin_failures "nobody@example.com" (Some 1%N) 0%N 60%N
                    900%Z db_two_users) Hn).
  - exact (proj1 (proj2 (promote_to_admin_failures "sam@example.com" None 2%N 60%N
                           900%Z db_two_users) Ht)).
Defined.

End Promotion.

(* ===================================================================== *)
(** * Properties of the registration form *)
(* ===================================================================== *)

Section RegistrationForm.

Variables is_email is_url : jsstring -> bool.

Lemma jsstring_eqb_eq a b : jsstring_eqb a b = true <-> a = b.
Proof.
  unfold jsstring_eqb. revert b. induction a as [|x a IH]; intros [|y b]; simpl;
    try (split; [discriminate | congruence]); [split; reflexivity|].
  specialize (IH b). simpl in IH.
  rewrite andb_true_iff in IH |- *. rewrite andb_true_iff, Nat.eqb_eq, N.eqb_eq.
  rewrite Nat.eqb_eq in IH. split.
  - intros (Hl & -> & Hf). f_equal. apply IH. auto.
  - intros [= -> ->]. split; [reflexivity|]. split; [reflexivity|].
    now apply IH.
Qed.

Lemma or_undefined_length x n :
  or_undefined x = Some n -> n = x /\ x <> [].
Proof. destruct x; [discriminate|]. intros [= <-]. split; [reflexivity | discriminate]. Qed.

(** [handleRegister] calls [auth.signUp] only with a form that passed every
    rule: an address the library takes for an email, a password of eight
    code units or more typed twice alike, a username of 3 to 30 letters,
    digits and underscores, the terms agreed to, and for a brand account a
    brand name of two or more.  The call carries the fields as typed; a
    personal account sends no brand data, whatever the brand fields hold. *)
Theorem handleRegister_gate (f : register_form) (call : signup_call) :
  handleRegister is_email is_url f = Some call ->
  (is_email (email f) = true /\
   8 <= List.length (password f) /\ confirmPassword f = password f /\
   username_rule (username f) = true /\ agreedToTerms f = true) /\
  (su_email call = email f /\ su_password call = password f /\
   su_username call = username f) /\
  match accountType f with
  | brand =>
      2 <= List.length (brandName f) /\
      su_metadata call =
      {| account_type_ := brand; brand_name := Some (brandName f);
         brand_category := Some (brandCategory f);
         brand_website := Some (brandWebsite f) |}
  | personal =>
      su_metadata call =
      {| account_type_ := personal; brand_name := None;
         brand_category := None; brand_website := None |}
  end.
Proof.
  unfold handleRegister.
  destruct (registerSchema_accepts is_email is_url (data_of_form f)) eqn:H;
    [|discriminate].
  intros [= <-]. unfold registerSchema_accepts in H.
  repeat (apply andb_true_iff in H; destruct H as [H ?]).
  cbn [data_of_form d_email d_password d_username d_agreedToTerms] in *.
  match goal with Hm : passwords_match _ = true |- _ =>
    unfold passwords_match in Hm; apply (proj1 (jsstring_eqb_eq _ _)) in Hm;
    cbn [data_of_form d_password d_confirmPassword] in Hm; symmetry in Hm end.
  match goal with Hl : (8 <=? _)%nat = true |- _ => apply Nat.leb_le in Hl end.
  split; [repeat split; assumption|]. split; [repeat split|].
  cbn [su_metadata for_brand].
  match goal with Hb : brand_named _ = true |- _ =>
    unfold brand_named in Hb; cbn [data_of_form d_accountType d_brandName] in Hb end.
  unfold for_brand. destruct (accountType f); [reflexivity|].
  destruct (or_undefined (brandName f)) as [n|] eqn:Hn; [|discriminate].
  apply or_undefined_length in Hn as [-> _].
  match goal with Hb : (2 <=? _)%nat = true |- _ => apply Nat.leb_le in Hb end.
  split; [assumption | reflexivity].
Qed.

(** A brand account with a brand name shorter than two never reaches
    [auth.signUp]. *)
Theorem handleRegister_brand_needs_name (f : register_form) :
  accountType f = brand -> List.length (brandName f) < 2 ->
  handleRegister is_email is_url f = None.
Proof.
  intros Hb Hl. unfold handleRegister.
  replace (registerSchema_accepts is_email is_url (data_of_form f)) with false;
    [reflexivity|].
  symmetry. unfold registerSchema_accepts.
  replace (brand_named (data_of_form f)) with false; [apply andb_false_r|].
  unfold brand_named. cbn [data_of_form d_accountType d_brandName]. rewrite Hb.
  destruct (or_undefined (brandName f)) as [n|] eqn:Hn; [|reflexivity].
  apply or_undefined_length in Hn as [-> _]. symmetry. apply Nat.leb_gt. lia.
Qed.

End RegistrationForm.

Section RegistrationWitnesses.

Lemma handleRegister_gate_witness :
  let f := sample_form brand "Stone & Co" in
  exists call,
    handleRegister has_at any_url f = Some call /\
    2 <= List.length (brandName f) /\
    su_metadata call =
    {| account_type_ := brand; brand_name := Some (brandName f);
       brand_category := Some (brandCategory f);
       brand_website := Some (brandWebsite f) |}.
Proof.
  intros f.
  destruct (handleRegister has_at any_url f) as [call|] eqn:H; [|discriminate H].
  exists call. split; [reflexivity|].
  exact (proj2 (proj2 (handleRegister_gate has_at any_url f H))).
Defined.

Lemma handleRegister_brand_needs_name_witness :
  let f := sample_form brand "S" in
  (accountType f = brand /\ List.length (brandName f) < 2) /\
  handleRegister has_at any_url f = None.
Proof.
  intros f.
  assert (Hb : accountType f = brand) by reflexivity.
  assert (Hl : List.length (brandName f) < 2) by (simpl; lia).
  split; [exact (conj Hb Hl)|].
  exact (handleRegister_brand_needs_name has_at any_url f Hb Hl).
Defined.

End RegistrationWitnesses.

Section UsernameRules.

Context {L : Locale}.

Lemma word_unit_lower c :
  word_unit (N_of_ascii (lower_char c)) = word_unit (N_of_ascii c).
Proof. destruct c as [[] [] [] [] [] [] [] []]; reflexivity. Qed.

Lemma units_of_text_length s : List.length (units_of_text s) = length s.
Proof.
  unfold units_of_text. rewrite length_map.
  induction s as [|c s IH]; simpl; [reflexivity | now rewrite IH].
Qed.

Lemma username_rule_lower_ascii s :
  username_rule (units_of_text (lower_ascii s)) = username_rule (units_of_text s).
Proof.
  unfold username_rule. rewrite !units_of_text_length, lower_ascii_length.
  do 2 f_equal. unfold units_of_text.
  induction s as [|c s IH]; [reflexivity|].
  cbn [lower_ascii list_ascii_of_string map forallb]. now rewrite word_unit_lower, IH.
Qed.

Lemma without_dot_word s :
  forallb word_unit (units_of_text s) = true -> without_char "." s = true.
Proof.
  unfold units_of_text. induction s as [|c s IH]; [reflexivity|].
  cbn [list_ascii_of_string map forallb without_char].
  intros H. apply andb_true_iff in H as [Hc Hs]. rewrite (IH Hs), andb_true_r.
  destruct (Ascii.eqb_spec c ".") as [->|]; [discriminate Hc | reflexivity].
Qed.

Lemma CHAR_LENGTH_le_length s : CHAR_LENGTH s <= length s.
Proof.
  induction s as [|c s IH]; cbn [CHAR_LENGTH length]; [lia|].
  destruct (is_continuation c); lia.
Qed.

(** The form's username rule and the trigger's username, for an email of
    ASCII.  The username the trigger derives from the email passes the rule
    of the form exactly when the part of the email before its first [@]
    does; so it fails it whenever that part has a dot.  A username of ASCII
    that passes the rule is stored by the column [VARCHAR(30)] as it is. *)
Theorem username_rule_of_default (e : text) :
  is_ascii e = true ->
  (forall local, local_part_as_specified e local ->
     username_rule (units_of_text (default_username e)) =
       username_rule (units_of_text local) /\
     (without_char "." local = false ->
      username_rule (units_of_text (default_username e)) = false)) /\
  (forall name column d,
     is_ascii name = true ->
     username_rule (units_of_text name) = true ->
     varchar 30 column name d = (d, Ok name)).
Proof.
  intros Ha.
  destruct (first_field_without_at e) as (_ & _ & Hloc).
  assert (E : username_rule (units_of_text (default_username e)) =
              username_rule (units_of_text (SPLIT_PART e "@" 1))).
  { unfold default_username. rewrite (LOWER_ascii _ (Hloc Ha)).
    apply username_rule_lower_ascii. }
  split.
  - intros local Hl.
    rewrite (local_part_unique Hl (SPLIT_PART_as_specified e)).
    split; [exact E|].
    intros Hd. rewrite E.
    destruct (username_rule (units_of_text (SPLIT_PART e "@" 1))) eqn:H; [|reflexivity].
    unfold username_rule in H. rewrite !andb_true_iff in H.
    destruct H as [_ [_ H]]. apply without_dot_word in H. congruence.
  - intros name column d _ H. unfold username_rule in H. rewrite !andb_true_iff in H.
    destruct H as [[_ Hl] _]. rewrite units_of_text_length in Hl.
    apply Nat.leb_le in Hl. pose proof (CHAR_LENGTH_le_length name) as Hc.
    unfold varchar.
    destruct (Nat.leb_spec (CHAR_LENGTH name) 30); [reflexivity | lia].
Qed.

End UsernameRules.

Section UsernameRulesRuns.

Local Open Scope string_scope.

Lemma username_rule_of_default_witness :
  (is_ascii "Bea.Stone@Example.com" = true /\
   local_part_as_specified "Bea.Stone@Example.com" "Bea.Stone" /\
   without_char "." "Bea.Stone" = false /\
   is_ascii "bea_stone" = true /\
   username_rule (units_of_text "bea_stone") = true) /\
  username_rule
    (units_of_text (@default_username C_locale "Bea.Stone@Example.com")) = false /\
  varchar 30 "username" "bea_stone" empty_db = (empty_db, Ok "bea_stone").
Proof.
  assert (Ha : is_ascii "Bea.Stone@Example.com" = true) by reflexivity.
  assert (Hl : local_part_as_specified "Bea.Stone@Example.com" "Bea.Stone").
  { split; [|right; exists "Example.com"; reflexivity].
    intros i. do 9 (destruct i as [|i]; [discriminate|]). discriminate. }
  assert (Hd : without_char "." "Bea.Stone" = false) by reflexivity.
  assert (Hn : is_ascii "bea_stone" = true) by reflexivity.
  assert (Hu : username_rule (units_of_text "bea_stone") = true) by reflexivity.
  split; [exact (conj Ha (conj Hl (conj Hd (conj Hn Hu))))|]. split.
  - exact (proj2 (proj1 (@username_rule_of_default C_locale "Bea.Stone@Example.com" Ha)
                    "Bea.Stone" Hl) Hd).
  - exact (proj2 (@username_rule_of_default C_locale "Bea.Stone@Example.com" Ha)
             "bea_stone" "username" empty_db Hn Hu).
Defined.

End UsernameRulesRuns.

(* ===================================================================== *)
(** * Further properties of [user_follows] and of the admin tables *)
(* ===================================================================== *)

Section FollowsUnique.

Local Open Scope tx_scope.

Lemma user_follows_unique_spec t :
  user_follows_unique t = true ->
  NoDup (map uf_id t) /\
  NoDup (map (fun r => (uf_follower_id r, uf_following_id r)) t).
Proof.
  induction t as [|r t IH]; simpl; [split; constructor|].
  rewrite !andb_true_iff, !negb_true_iff. intros [[Hid Hpair] Ht].
  destruct (IH Ht) as [IH1 IH2]. split; constructor; trivial.
  - intros Hin. apply in_map_iff in Hin as (r' & E & Hr').
    assert (Hx : existsb (fun r' => N.eqb (uf_id r') (uf_id r)) t = true)
      by (apply existsb_exists; exists r'; split; [exact Hr' | now apply N.eqb_eq]).
    congruence.
  - intros Hin. apply in_map_iff in Hin as (r' & E & Hr'). injection E as E1 E2.
    assert (Hx : existsb (same_follow (uf_follower_id r) (uf_following_id r)) t = true).
    { apply existsb_exists. exists r'. split; [exact Hr'|]. unfold same_follow.
      now rewrite E1, E2, !N.eqb_refl. }
    congruence.
Qed.

Lemma user_follows_unique_append t r :
  user_follows_unique t = true ->
  existsb (fun r' => N.eqb (uf_id r') (uf_id r)) t = false ->
  existsb (same_follow (uf_follower_id r) (uf_following_id r)) t = false ->
  user_follows_unique (append_row r t) = true.
Proof.
  unfold append_row. induction t as [|x t IH]; simpl; [reflexivity|].
  rewrite !andb_true_iff, !negb_true_iff, !orb_false_iff.
  intros [[Hid Hpair] Ht] [Hxr Hidr] [Hxp Hpr].
  rewrite !existsb_app, Hid, Hpair. simpl. rewrite !orb_false_r.
  split; [split|now apply IH].
  - rewrite N.eqb_sym. exact Hxr.
  - unfold same_follow in *. rewrite (N.eqb_sym (uf_follower_id r)),
      (N.eqb_sym (uf_following_id r)). exact Hxp.
Qed.

Lemma user_follows_unique_filter f t :
  user_follows_unique t = true -> user_follows_unique (filter f t) = true.
Proof.
  induction t as [|x t IH]; simpl; [reflexivity|].
  rewrite !andb_true_iff, !negb_true_iff. intros [[Hid Hpair] Ht].
  assert (Hsub : forall g, existsb g t = false -> existsb g (filter f t) = false).
  { intros g Hg. destruct (existsb g (filter f t)) eqn:E; [|reflexivity].
    apply existsb_exists in E as (y & Hy & Hgy). apply filter_In in Hy as [Hy _].
    assert (existsb g t = true) by (apply existsb_exists; eauto). congruence. }
  destruct (f x); [|now apply IH]. simpl.
  rewrite (Hsub _ Hid), (Hsub _ Hpair). simpl. now apply IH.
Qed.

Lemma user_follows_unique_of_NoDup t :
  NoDup (map uf_id t) ->
  NoDup (map (fun r => (uf_follower_id r, uf_following_id r)) t) ->
  user_follows_unique t = true.
Proof.
  induction t as [|r t IH]; cbn [map user_follows_unique]; [reflexivity|].
  intros Hid Hpair. inversion Hid as [|? ? Hi Hid']; subst.
  inversion Hpair as [|? ? Hp Hpair']; subst.
  rewrite IH by assumption. rewrite andb_true_r, andb_true_iff, !negb_true_iff.
  split; apply existsb_false.
  - intros x Hx. apply N.eqb_neq. intros E. apply Hi. rewrite <- E.
    now apply in_map.
  - intros x Hx. unfold same_follow.
    destruct (N.eqb_spec (uf_follower_id x) (uf_follower_id r)) as [E1|]; [|reflexivity].
    destruct (N.eqb_spec (uf_following_id x) (uf_following_id r)) as [E2|]; [|reflexivity].
    exfalso. apply Hp. rewrite <- E1, <- E2.
    exact (in_map (fun r => (uf_follower_id r, uf_following_id r)) t x Hx).
Qed.

Lemma user_follows_set_id e r d d' r' :
  user_follows_set e r d = (d', Ok r') -> uf_id r' = uf_id r.
Proof.
  unfold user_follows_set. destruct (e r) as [a b]. intros H. tx_steps. reflexivity.
Qed.

(** A row rewritten in its place keeps the table free of doubles when its
    new pair is that of no other row. *)
Lemma user_follows_unique_replace done r r' todo :
  user_follows_unique (done ++ r :: todo) = true ->
  uf_id r' = uf_id r ->
  existsb (same_follow (uf_follower_id r') (uf_following_id r')) (done ++ todo) = false ->
  user_follows_unique ((done ++ [r']) ++ todo) = true.
Proof.
  intros Hu Hid Hfree. apply user_follows_unique_spec in Hu as [Hids Hpairs].
  rewrite <- app_assoc. cbn [app].
  apply user_follows_unique_of_NoDup.
  - rewrite map_app in *. cbn [map] in *. now rewrite Hid.
  - rewrite map_app in *. cbn [map] in *.
    apply NoDup_remove_1 in Hpairs.
    apply (NoDup_Add (Add_app _ _ _)). split; [exact Hpairs|].
    rewrite <- map_app. intros Hin. apply in_map_iff in Hin as (x & E & Hx).
    injection E as E1 E2.
    assert (Hex : existsb (same_follow (uf_follower_id r') (uf_following_id r'))
                    (done ++ todo) = true).
    { apply existsb_exists. exists x. split; [exact Hx|]. unfold same_follow.
      now rewrite E1, E2, !N.eqb_refl. }
    congruence.
Qed.

Lemma user_follows_rewrite_unique cond e : forall todo done d d' t',
  user_follows_rewrite cond e done todo d = (d', Ok t') ->
  user_follows_unique (done ++ todo) = true ->
  user_follows_unique t' = true.
Proof.
  induction todo as [|r todo IH]; cbn [user_follows_rewrite]; intros done d d' t' H Hu.
  - tx_steps. now rewrite app_nil_r in Hu.
  - destruct (cond r).
    + tx_steps.
      match goal with H : negb _ = true |- _ => apply negb_true_iff in H end.
      match goal with H : user_follows_set _ _ _ = _ |- _ =>
        pose proof (user_follows_set_id _ _ _ H) as Hid;
        apply user_follows_set_ok in H; destruct H as [-> _] end.
      match goal with H : user_follows_rewrite _ _ _ _ _ = _ |- _ =>
        refine (IH _ _ _ _ H _) end.
      now apply user_follows_unique_replace with r.
    + refine (IH _ _ _ _ H _). now rewrite <- app_assoc.
Qed.

(** In every state the database reaches, no two rows of [user_follows] have
    the same id and no follow is stored twice. *)
Theorem user_follows_never_twice (d : db) :
  reachable d ->
  NoDup (map uf_id (user_follows d)) /\
  NoDup (map (fun r => (uf_follower_id r, uf_following_id r)) (user_follows d)).
Proof.
  intros H. apply user_follows_unique_spec.
  induction H as
    [| d d' id a b now _ IH Hins | d d' cond e _ IH Hupd
     | d d' cond _ IH Hdel | d d' _ IH Hsame].
  - reflexivity.
  - unfold insert_user_follows in Hins. tx_steps.
    repeat match goal with
           | H : negb _ = true |- _ => apply negb_true_iff in H
           end.
    cbn [user_follows with_user_follows].
    apply user_follows_unique_append; assumption.
  - unfold update_user_follows in Hupd. tx_steps.
    cbn [user_follows with_user_follows].
    match goal with H : user_follows_rewrite _ _ _ _ _ = _ |- _ =>
      eapply user_follows_rewrite_unique; [exact H | exact IH] end.
  - unfold delete_user_follows in Hdel. tx_steps.
    cbn [user_follows with_user_follows]. now apply user_follows_unique_filter.
  - now rewrite Hsame.
Qed.

Lemma user_follows_never_twice_witness :
  reachable db_one_follow /\
  NoDup (map uf_id (user_follows db_one_follow)) /\
  NoDup (map (fun r => (uf_follower_id r, uf_following_id r))
             (user_follows db_one_follow)).
Proof.
  split; [exact db_one_follow_reachable|].
  exact (user_follows_never_twice db_one_follow_reachable).
Defined.

End FollowsUnique.

Section AdminTables.

(** Approvals and the audit log are for admins and for them alone: reading
    an approval, creating one and reading the audit log pass exactly for a
    principal whose profile has the role admin, whatever the row and
    whether the insertion returns the row or not. *)
Theorem admin_tables_for_admins_only (reads : bool) (uid : option uuid) (d : db)
  (r : row) :
  rls_select uid d t_admin_approvals r = principal_is_admin uid d /\
  rls_insert reads uid d t_admin_approvals r = principal_is_admin uid d /\
  rls_select uid d t_admin_audit_log r = principal_is_admin uid d.
Proof.
  unfold rls_insert, select_ok.
  repeat split; policy_expressions;
    rewrite ?orb_false_r, ?exists_admin_profile_is_admin;
    destruct reads, (principal_is_admin uid d); reflexivity.
Qed.

End AdminTables.
